(** * Word template tool: template consistency, document data preparation,
      storage backends, storage adapter and pack import.

    A shallow embedding of the JavaScript sources
    [js/template.js], [js/word.js], [js/storage.js], [js/storage-file.js],
    [js/storage-adapter.js], [js/export.js] and of the delete-template
    handler of the application script, followed by the properties proved
    about them.

    Conventions of the embedding:
    - a JavaScript string is a [string]: the sequence of the bytes of its
      UTF-8 encoding;
    - a property that holds a string, [null] or [undefined] is a [jstr];
    - a [Set] is a duplicate-free list in insertion order;
    - asynchronous functions are computations in the monad [M] over the
      state [World]; [await] is sequencing, a rejected promise or a thrown
      exception is [Throw]. *)

From stdpp Require Import gmap strings list sorting.
#[local] Set Warnings "-clear-no-such-hyp".
From Stdlib Require Import ZArith Ascii.
From Stdlib Require OrdersEx.
From Stdlib Require DecimalString.



(** ** JavaScript values used by the sources *)

Module Js.

(** A property holding a string, [null] or [undefined]. *)
Inductive jstr : Type :=
| JUndefined
| JNull
| JStr (s : string).

#[global] Instance jstr_eq_dec : EqDecision jstr.
Proof. solve_decision. Defined.

(** [!!v] of JavaScript: the empty string, [null] and [undefined] are falsy. *)
Definition truthy (v : jstr) : bool :=
  match v with
  | JStr s => negb (String.eqb s EmptyString)
  | _ => false
  end.

(** [a || b] on such values. *)
Definition or_else (a b : jstr) : jstr := if truthy a then a else b.

(** Template-literal / [String(v)] rendering. *)
Definition to_string (v : jstr) : string :=
  match v with
  | JUndefined => "undefined"
  | JNull => "null"
  | JStr s => s
  end.

(** [Set.prototype.add] on a set kept in insertion order. *)
Definition set_add (x : string) (s : list string) : list string :=
  if decide (x ∈ s) then s else s ++ [x].

(** [Set.prototype.has]. *)
Definition set_has (x : string) (s : list string) : bool :=
  bool_decide (x ∈ s).

(** [s.split(sep)] for a one-character separator. *)
Fixpoint split_on (sep : ascii) (s : string) : list string :=
  match s with
  | EmptyString => [EmptyString]
  | String c s' =>
      if Ascii.eqb c sep then EmptyString :: split_on sep s'
      else match split_on sep s' with
           | [] => [String c EmptyString]
           | p :: ps => String c p :: ps
           end
  end.

(** [String.prototype.trim] strips the white space and the line terminators
    of ECMAScript from both ends.  In the UTF-8 encoding of the strings
    these are the bytes TAB, LF, VT, FF, CR and SPACE, the two bytes of
    U+00A0 and the three bytes of U+1680, U+2000 to U+200A, U+2028, U+2029,
    U+202F, U+205F, U+3000 and U+FEFF. *)
Definition is_space (c : ascii) : bool :=
  let n := nat_of_ascii c in
  (Nat.eqb n 32) || ((Nat.leb 9 n) && (Nat.leb n 13)).

Definition is_byte (n : nat) (c : ascii) : bool := Nat.eqb (nat_of_ascii c) n.

(** U+00A0 is [C2 A0]. *)
Definition is_space2 (a b : ascii) : bool := is_byte 194 a && is_byte 160 b.

(** U+1680 is [E1 9A 80]; U+2000 to U+200A, U+2028, U+2029 and U+202F are
    [E2 80 80] to [E2 80 8A], [E2 80 A8], [E2 80 A9] and [E2 80 AF]; U+205F
    is [E2 81 9F]; U+3000 is [E3 80 80]; U+FEFF is [EF BB BF]. *)
Definition is_space3 (a b c : ascii) : bool :=
  let n := nat_of_ascii c in
  (is_byte 225 a && is_byte 154 b && is_byte 128 c)
  || (is_byte 226 a && is_byte 128 b
      && ((Nat.leb 128 n && Nat.leb n 138) || Nat.eqb n 168 || Nat.eqb n 169 || Nat.eqb n 175))
  || (is_byte 226 a && is_byte 129 b && is_byte 159 c)
  || (is_byte 227 a && is_byte 128 b && is_byte 128 c)
  || (is_byte 239 a && is_byte 187 b && is_byte 191 c).

(** The number of bytes of the white-space character that the text starts
    with, [0] when it starts with none. *)
Definition space_width (s : string) : nat :=
  match s with
  | EmptyString => 0
  | String a s1 =>
      if is_space a then 1
      else match s1 with
           | EmptyString => 0
           | String b s2 =>
               if is_space2 a b then 2
               else match s2 with
                    | EmptyString => 0
                    | String c _ => if is_space3 a b c then 3 else 0
                    end
           end
  end.

Fixpoint trim_start (s : string) : string :=
  match space_width s, s with
  | 1, String _ s1 => trim_start s1
  | 2, String _ (String _ s2) => trim_start s2
  | 3, String _ (String _ (String _ s3)) => trim_start s3
  | _, _ => s
  end.

(** Drops trailing white space: a character is dropped when only white
    space follows from it on. *)
Fixpoint trim_end (s : string) : string :=
  match trim_start s, s with
  | String _ _, String a s1 => String a (trim_end s1)
  | _, _ => EmptyString
  end.

Definition trim (s : string) : string := trim_end (trim_start s).

(** [s.startsWith(c)] for a one-character prefix. *)
Definition starts_with_char (c : ascii) (s : string) : bool :=
  match s with
  | String d _ => Ascii.eqb d c
  | EmptyString => false
  end.

(** The double-quote character of the messages. *)
Definition dquote : string := String (ascii_of_nat 34) EmptyString.

(** [s.endsWith(suffix)]: some tail of [s] is [suffix]. *)
Fixpoint ends_with (suffix s : string) : bool :=
  String.eqb s suffix
  || match s with
     | String _ s' => ends_with suffix s'
     | EmptyString => false
     end.

(** [s.includes('/')]. *)
Fixpoint has_slash (s : string) : bool :=
  match s with
  | EmptyString => false
  | String c s' => Ascii.eqb c "/"%char || has_slash s'
  end.

End Js.
Import Js.

(** ** Data model ([js/template.js], [createEmpty*]) *)

Record Field : Type := mkField {
  f_key : string;
  f_label : string;
  f_type : string;
  f_required : bool
}.

Record Column : Type := mkColumn {
  c_key : string;
  c_label : string;
  c_type : string
}.

Record Table : Type := mkTable {
  tb_name : string;
  tb_columns : list Column
}.

Record WordFile : Type := mkWordFile {
  wf_name : string;
  wf_data : string
}.

(** [detailTables] is optional: the sources guard every use of it with
    [if (template.detailTables)]. *)
Record Template : Type := mkTemplate {
  t_id : jstr;
  t_name : jstr;
  t_description : string;
  t_titleFieldKey : string;
  t_wordFile : option WordFile;
  t_fields : list Field;
  t_detailTables : option (list Table);
  t_createdAt : jstr;
  t_updatedAt : jstr
}.

(** ** Placeholder extraction and consistency check ([js/template.js]) *)

(** The document library and the base64 decoder are external: [atob]
    fails on text that is not base64, as the text ["undefined"] of nine
    characters is not; [docx_getFullText] stands for [new PizZip(data)],
    [new docxtemplater(zip, ...)] and [doc.getFullText()], and fails when
    the archive is corrupt or the tag structure is malformed. *)
Class DocxHost : Type := {
  atob : string -> option string;
  atob_undefined : atob "undefined" = None;
  docx_getFullText : string -> option string
}.

Module TemplateJs.

(** The loop [while ((match = regex.exec(tags)) !== null)] for the regular
    expression [/\{([^{}]+)\}/g], as one pass over the text.  [inside] is
    [Some acc] when an opening brace has been read and [acc] collects the
    characters after it (in reverse).  A second opening brace restarts the
    attempt; a closing brace completes a match when at least one character
    was collected.  The result lists the captured groups [match[1]]. *)
Fixpoint regex_groups (inside : option (list ascii)) (s : string) : list string :=
  match s with
  | EmptyString => []
  | String c s' =>
      if Ascii.eqb c "{"%char then regex_groups (Some []) s'
      else if Ascii.eqb c "}"%char then
        match inside with
        | Some (a :: acc) =>
            String.string_of_list_ascii (rev (a :: acc)) :: regex_groups None s'
        | _ => regex_groups None s'
        end
      else
        match inside with
        | Some acc => regex_groups (Some (c :: acc)) s'
        | None => regex_groups None s'
        end
  end.

(** The body of the loop: trim, drop loop markers, add to the set. *)
Definition add_tag (placeholders : list string) (group : string) : list string :=
  let tag := trim group in
  if negb (starts_with_char "#"%char tag) && negb (starts_with_char "/"%char tag)
  then set_add tag placeholders
  else placeholders.

Definition placeholders_of_text (tags : string) : list string :=
  foldl add_tag [] (regex_groups None tags).

(** [extractPlaceholdersFromWord]: every exception of the document library
    is caught and logged, and the (then empty) set is returned. *)
Definition extractPlaceholdersFromWord `{DocxHost} (fileData : string) : list string :=
  match docx_getFullText fileData with
  | Some tags => placeholders_of_text tags
  | None => []
  end.

Record ConsistencyResult : Type := mkConsistencyResult {
  matched : list string;
  missingInWord : list string;
  missingInConfig : list string;
  valid : bool;
  error : option string
}.

(** [configKeys]: the field keys, then the column keys of every table. *)
Definition configKeys (template : Template) : list string :=
  let keys := foldl (fun s f => set_add (f_key f) s) [] (t_fields template) in
  match t_detailTables template with
  | Some tables =>
      foldl (fun s table =>
               foldl (fun s col => set_add (c_key col) s) s (tb_columns table))
            keys tables
  | None => keys
  end.

(** [template.wordFile.data.split(',')[1]]; [atob(undefined)] decodes the
    text ["undefined"]. *)
Definition base64_part (data : string) : string :=
  match split_on ","%char data !! 1%nat with
  | Some b => b
  | None => "undefined"
  end.

Definition checkTemplateConsistency `{DocxHost} (template : Template) : ConsistencyResult :=
  match t_wordFile template with
  | Some wf =>
      if String.eqb (wf_data wf) EmptyString then
        mkConsistencyResult [] [] [] false (Some "请先上传 Word 模板文件")
      else
        match atob (base64_part (wf_data wf)) with
        | Some bytes =>
            let wordPlaceholders := extractPlaceholdersFromWord bytes in
            let keys := configKeys template in
            let matched := filter (fun key => set_has key wordPlaceholders = true) keys in
            let missingInWord := filter (fun key => set_has key wordPlaceholders = false) keys in
            let missingInConfig := filter (fun p => set_has p keys = false) wordPlaceholders in
            mkConsistencyResult matched missingInWord missingInConfig
              (bool_decide (length missingInWord = 0%nat) && bool_decide (length missingInConfig = 0%nat))
              None
        | None =>
            mkConsistencyResult [] [] [] false
              (Some "模板自检失败，请检查 Word 文件格式是否正确")
        end
  | None => mkConsistencyResult [] [] [] false (Some "请先上传 Word 模板文件")
  end.

End TemplateJs.

(** [String(n)] and [`${n}`] for a natural number. *)
Definition nat_to_string (n : nat) : string :=
  DecimalString.NilEmpty.string_of_uint (Nat.to_uint n).

(** ** Values of a filled form *)

(** Scalar values of a filled form: a record maps field keys to strings or
    numbers; a missing property reads as [undefined]. *)
Inductive scalar : Type :=
| SUndefined
| SNull
| SStr (s : string)
| SNum (n : Z).

#[global] Instance scalar_eq_dec : EqDecision scalar.
Proof. solve_decision. Defined.

(** ** Records, errors and the state of the application *)

Record Rec : Type := mkRec {
  r_id : jstr;
  r_templateId : jstr;
  r_fileName : jstr;
  r_data : gmap string scalar;
  r_tables : gmap string (list (gmap string scalar));
  r_createdAt : jstr;
  r_updatedAt : jstr
}.

(** A thrown value: [name] and [message] of the error object. *)
Record JsError : Type := mkJsError {
  err_name : string;
  err_message : string
}.

#[global] Instance JsError_eq_dec : EqDecision JsError.
Proof. solve_decision. Defined.

(** [new Error(message)]. *)
Definition Error (message : string) : JsError := mkJsError "Error" message.

Inductive outcome (A : Type) : Type :=
| Ok (a : A)
| Throw (e : JsError).
Arguments Ok {A} a.
Arguments Throw {A} e.

(** ** Document data preparation ([prepareDataForWord] of [js/word.js])

    The field data, the table data and the rows are ordinary objects:
    their own properties are the entries of the map, their prototype is
    [Object.prototype].  A property read [obj[key]] that finds no own
    property finds the member of [Object.prototype] of that name, if there
    is one. *)

(** The value of a cell of a prepared row: a scalar, or the member of
    [Object.prototype] that the read of the input row has found (a
    function; for [__proto__] the prototype object itself). *)
Inductive cell : Type :=
| CScalar (v : scalar)
| CInherited (member : string).

#[global] Instance cell_eq_dec : EqDecision cell.
Proof. solve_decision. Defined.

(** An own property of the object handed to the document library: a scalar
    or the array of rows of a detail table. *)
Inductive wordval : Type :=
| WScalar (v : scalar)
| WRows (rows : list (gmap string cell)).

(** The object handed to the document library: its own properties, and the
    array that has become its prototype, if any ([None]: the prototype is
    [Object.prototype]). *)
Record WordData : Type := mkWordData {
  wd_own : gmap string wordval;
  wd_proto : option (list (gmap string cell))
}.

(** The names of the members of [Array.prototype] in the browser. *)
Class JsRealm : Type := {
  Array_prototype_has : string -> bool
}.

Module WordJs.

(** The members of [Object.prototype] in a browser. *)
Definition object_prototype_members : list string :=
  ["constructor"; "__defineGetter__"; "__defineSetter__"; "hasOwnProperty";
   "__lookupGetter__"; "__lookupSetter__"; "isPrototypeOf"; "propertyIsEnumerable";
   "toString"; "valueOf"; "__proto__"; "toLocaleString"].

Definition object_prototype_has (key : string) : bool :=
  existsb (String.eqb key) object_prototype_members.

(** The error of a call of [rows.map] when [rows] has no such method; the
    message is the one of V8. *)
Definition not_a_function : JsError := mkJsError "TypeError" "rows.map is not a function".

(** [row[col.key]]. *)
Definition row_get (row : gmap string scalar) (key : string) : cell :=
  match row !! key with
  | Some value => CScalar value
  | None => if object_prototype_has key then CInherited key else CScalar SUndefined
  end.

(** [if (value === undefined || value === null || value === '') value = ''].
    Both branches of [col.type === 'number' ? '' : ''] give the empty
    string. *)
Definition blank_if_empty (value : cell) : cell :=
  match value with
  | CScalar SUndefined | CScalar SNull | CScalar (SStr EmptyString) =>
      CScalar (SStr EmptyString)
  | value => value
  end.

(** [processedRow[col.key] = value].  For the key [__proto__] the
    assignment calls the setter of [Object.prototype], which ignores a
    value that is no object; the only object that [value] can be is the
    inherited one, which is the prototype that [processedRow] has already:
    no property is created. *)
Definition row_set (processedRow : gmap string cell) (key : string) (value : cell)
  : gmap string cell :=
  if String.eqb key "__proto__" then processedRow else <[key := value]> processedRow.

(** The callback of [rows.map]: [processedRow] starts empty and receives
    every configured column key in turn. *)
Definition process_row (columns : list Column) (row : gmap string scalar)
  : gmap string cell :=
  foldl (fun processedRow col =>
           row_set processedRow (c_key col) (blank_if_empty (row_get row (c_key col))))
        ∅ columns.

(** [tableData[tableName] || []], as the receiver of [.map]: an own entry
    is an array; an inherited member is truthy and has no method [map]. *)
Definition table_rows (tableData : gmap string (list (gmap string scalar)))
    (tableName : string) : outcome (list (gmap string scalar)) :=
  match tableData !! tableName with
  | Some rows => Ok rows
  | None => if object_prototype_has tableName then Throw not_a_function else Ok []
  end.

(** [data[tableName] = rows].  For the name [__proto__], unless [data] has
    an own property of that name, the assignment calls the setter of
    [Object.prototype] and the array becomes the prototype of [data]. *)
Definition data_set_rows (data : WordData) (tableName : string)
    (rows : list (gmap string cell)) : WordData :=
  if String.eqb tableName "__proto__"
     && negb (bool_decide (is_Some (wd_own data !! "__proto__")))
  then mkWordData (wd_own data) (Some rows)
  else mkWordData (<[tableName := WRows rows]> (wd_own data)) (wd_proto data).

(** The callback of [template.detailTables.forEach]. *)
Definition put_table (tableData : gmap string (list (gmap string scalar)))
    (data : WordData) (tableConfig : Table) : outcome WordData :=
  let tableName := tb_name tableConfig in
  match table_rows tableData tableName with
  | Ok rows =>
      Ok (data_set_rows data tableName (map (process_row (tb_columns tableConfig)) rows))
  | Throw error => Throw error
  end.

(** [template.detailTables.forEach(...)]: an exception ends the loop. *)
Fixpoint put_tables (tableData : gmap string (list (gmap string scalar)))
    (tables : list Table) (data : WordData) : outcome WordData :=
  match tables with
  | [] => Ok data
  | tableConfig :: rest =>
      match put_table tableData data tableConfig with
      | Ok data' => put_tables tableData rest data'
      | Throw error => Throw error
      end
  end.

Section WithRealm.
Context `{JsRealm}.

(** An array has the own properties [length] and its indices, and
    inherits the members of [Array.prototype]. *)
Definition array_has (rows : list (gmap string cell)) (key : string) : bool :=
  String.eqb key "length"
  || existsb (fun i => String.eqb key (nat_to_string i)) (seq 0 (length rows))
  || Array_prototype_has key.

(** [data[field.key] === undefined || data[field.key] === null]: an own
    property decides by its value; a property found on the prototype
    chain is a function, a number or an object. *)
Definition reads_empty (data : WordData) (key : string) : bool :=
  match wd_own data !! key with
  | Some (WScalar SUndefined) | Some (WScalar SNull) => true
  | Some _ => false
  | None =>
      match wd_proto data with
      | Some rows => negb (array_has rows key) && negb (object_prototype_has key)
      | None => negb (object_prototype_has key)
      end
  end.

(** The callback of [template.fields.forEach]. *)
Definition fill_field (data : WordData) (field : Field) : WordData :=
  if reads_empty data (f_key field)
  then mkWordData (<[f_key field := WScalar (SStr EmptyString)]> (wd_own data))
         (wd_proto data)
  else data.

(** [prepareDataForWord(fieldData, tableData, template)].  [tableData] is
    [None] for [null]/[undefined], which the guard
    [template.detailTables && tableData] tests. *)
Definition prepareDataForWord (fieldData : gmap string scalar)
    (tableData : option (gmap string (list (gmap string scalar))))
    (template : Template) : outcome WordData :=
  let data := mkWordData (WScalar <$> fieldData) None in
  let prepared :=
    match t_detailTables template, tableData with
    | Some tables, Some td => put_tables td tables data
    | _, _ => Ok data
    end in
  match prepared with
  | Ok data => Ok (foldl fill_field data (t_fields template))
  | Throw error => Throw error
  end.

End WithRealm.
End WordJs.

(** The clock, the random source, the date parser and the key order of
    the browser.  [time_at n] is the text [new Date().toISOString()] of the
    [n]-th reading of the clock (never empty), [stamp_at n] is
    [Word.formatDate(new Date(), 'MMDDHHmm')] at that reading,
    [id_suffix_at n] is the text
    [Date.now().toString(36) + '_' + Math.random().toString(36).substr(2, 9)]
    of the [n]-th call of [generateId] (digits, lower-case letters and an
    underscore, so no path separator), [Date_parse s] is the time
    value of [new Date(s)], [None] for an invalid date (NaN), and
    [key_le] is the order in which the database compares two string keys
    (by their UTF-16 code units), a total order. *)
Class BrowserHost : Type := {
  time_at : nat -> string;
  time_at_nonempty : forall n, time_at n <> EmptyString;
  stamp_at : nat -> string;
  id_suffix_at : nat -> string;
  id_suffix_no_slash : forall n, has_slash (id_suffix_at n) = false;
  Date_parse : string -> option Z;
  key_le : string -> string -> bool;
  key_le_total : forall a b, key_le a b = true \/ key_le b a = true;
  key_le_trans : forall a b c, key_le a b = true -> key_le b c = true -> key_le a c = true;
  key_le_antisym : forall a b, key_le a b = true -> key_le b a = true -> a = b
}.

(** Writes to the two backends, in the order in which they happen. *)
Inductive Event : Type :=
| IdbPutTemplate (id : string)
| IdbDeleteTemplate (id : string)
| IdbPutRecord (id : string)
| IdbDeleteRecord (id : string)
| FsWriteTemplate (file : string)
| FsRemoveTemplate (file : string)
| FsWriteRecord (dir file : string)
| FsRemoveRecord (dir file : string)
| FsRemoveRecordDir (dir : string).

#[global] Instance Event_eq_dec : EqDecision Event.
Proof. solve_decision. Defined.

(** [storageMode] of [js/storage-adapter.js]. *)
Inductive Mode : Type := FileMode | BrowserMode.

#[global] Instance Mode_eq_dec : EqDecision Mode.
Proof. solve_decision. Defined.

(** A folder of the workspace maps entry names to contents.  The content
    of a JSON file is the parsed value, or [None] when [JSON.parse] fails on
    it; [JSON.parse (JSON.stringify v)] is taken to give [v] back. *)
Abbreviation Dir A := (gmap string A).

(** The state: the adapter's mode, the readings of the clock and of the id
    generator taken so far, the two object stores of the database keyed by
    [id], the module variable [workspaceHandle] (set or not), whether the
    workspace database holds a handle saved by an earlier session, whether
    the browser has the file-system capability, whether the user picks a
    folder when asked, whether [indexedDB.open] succeeds, the
    [templates/] folder and the [records/] folder with one subfolder per
    template, and the log of writes.  The order in which a folder lists its
    entries is left to the map (the file system API does not fix it);
    entries that the sources skip (not of kind ['file'], resp.
    ['directory']) are left out. *)
Record World : Type := mkWorld {
  storageMode : Mode;
  ticks : nat;
  draws : nat;
  idb_templates : gmap string Template;
  idb_records : gmap string Rec;
  workspaceHandle : bool;
  savedHandle : bool;
  supportsFileSystem : bool;
  userPicksFolder : bool;
  databaseOpens : bool;
  fs_templates : Dir (option Template);
  fs_records : Dir (Dir (option Rec));
  log : list Event
}.

Definition set_storageMode (m : Mode) (w : World) : World :=
  mkWorld m (ticks w) (draws w) (idb_templates w) (idb_records w)
    (workspaceHandle w) (savedHandle w) (supportsFileSystem w) (userPicksFolder w)
    (databaseOpens w) (fs_templates w) (fs_records w) (log w).

Definition set_ticks (n : nat) (w : World) : World :=
  mkWorld (storageMode w) n (draws w) (idb_templates w) (idb_records w)
    (workspaceHandle w) (savedHandle w) (supportsFileSystem w) (userPicksFolder w)
    (databaseOpens w) (fs_templates w) (fs_records w) (log w).

Definition set_draws (n : nat) (w : World) : World :=
  mkWorld (storageMode w) (ticks w) n (idb_templates w) (idb_records w)
    (workspaceHandle w) (savedHandle w) (supportsFileSystem w) (userPicksFolder w)
    (databaseOpens w) (fs_templates w) (fs_records w) (log w).

Definition set_idb_templates (m : gmap string Template) (w : World) : World :=
  mkWorld (storageMode w) (ticks w) (draws w) m (idb_records w)
    (workspaceHandle w) (savedHandle w) (supportsFileSystem w) (userPicksFolder w)
    (databaseOpens w) (fs_templates w) (fs_records w) (log w).

Definition set_idb_records (m : gmap string Rec) (w : World) : World :=
  mkWorld (storageMode w) (ticks w) (draws w) (idb_templates w) m
    (workspaceHandle w) (savedHandle w) (supportsFileSystem w) (userPicksFolder w)
    (databaseOpens w) (fs_templates w) (fs_records w) (log w).

Definition set_workspaceHandle (b : bool) (w : World) : World :=
  mkWorld (storageMode w) (ticks w) (draws w) (idb_templates w) (idb_records w)
    b (savedHandle w) (supportsFileSystem w) (userPicksFolder w)
    (databaseOpens w) (fs_templates w) (fs_records w) (log w).

Definition set_savedHandle (b : bool) (w : World) : World :=
  mkWorld (storageMode w) (ticks w) (draws w) (idb_templates w) (idb_records w)
    (workspaceHandle w) b (supportsFileSystem w) (userPicksFolder w)
    (databaseOpens w) (fs_templates w) (fs_records w) (log w).

Definition set_fs_templates (d : Dir (option Template)) (w : World) : World :=
  mkWorld (storageMode w) (ticks w) (draws w) (idb_templates w) (idb_records w)
    (workspaceHandle w) (savedHandle w) (supportsFileSystem w) (userPicksFolder w)
    (databaseOpens w) d (fs_records w) (log w).

Definition set_fs_records (d : Dir (Dir (option Rec))) (w : World) : World :=
  mkWorld (storageMode w) (ticks w) (draws w) (idb_templates w) (idb_records w)
    (workspaceHandle w) (savedHandle w) (supportsFileSystem w) (userPicksFolder w)
    (databaseOpens w) (fs_templates w) d (log w).

Definition add_event (e : Event) (w : World) : World :=
  mkWorld (storageMode w) (ticks w) (draws w) (idb_templates w) (idb_records w)
    (workspaceHandle w) (savedHandle w) (supportsFileSystem w) (userPicksFolder w)
    (databaseOpens w) (fs_templates w) (fs_records w) (log w ++ [e]).

(** ** The monad of asynchronous computations *)

Definition M (A : Type) : Type := World -> outcome A * World.

Definition ret {A : Type} (a : A) : M A := fun w => (Ok a, w).

Definition bind {A B : Type} (m : M A) (k : A -> M B) : M B :=
  fun w =>
    match m w with
    | (Ok a, w') => k a w'
    | (Throw e, w') => (Throw e, w')
    end.

Definition throw {A : Type} (e : JsError) : M A := fun w => (Throw e, w).

(** [try { m } catch (error) { handler error }]. *)
Definition try_catch {A : Type} (m : M A) (handler : JsError -> M A) : M A :=
  fun w =>
    match m w with
    | (Throw e, w') => handler e w'
    | r => r
    end.

Definition modify (f : World -> World) : M unit := fun w => (Ok tt, f w).

Definition gets {A : Type} (f : World -> A) : M A := fun w => (Ok (f w), w).

#[global] Instance M_ret : MRet M := @ret.
#[global] Instance M_bind : MBind M := fun A B k m => bind m k.

(** [for (const x of xs) { await body x }]. *)
Fixpoint for_each {A : Type} (xs : list A) (body : A -> M unit) : M unit :=
  match xs with
  | [] => ret tt
  | x :: xs' => body x;; for_each xs' body
  end.

(** ** [Array.prototype.sort] and dates *)

(** The time value of [new Date(v)]: [new Date(null)] is the epoch and
    [new Date(undefined)] is an invalid date. *)
Definition date_value `{BrowserHost} (v : jstr) : option Z :=
  match v with
  | JStr s => Date_parse s
  | JNull => Some 0%Z
  | JUndefined => None
  end.

(** The comparator [(a, b) => new Date(key b) - new Date(key a)]; [None] is
    NaN. *)
Definition newest_first `{BrowserHost} {A : Type} (key : A -> jstr) (a b : A) : option Z :=
  match date_value (key b), date_value (key a) with
  | Some x, Some y => Some (x - y)%Z
  | _, _ => None
  end.

(** [x] goes before [y] when the comparator is negative or zero; a NaN
    result counts as zero. *)
Definition goes_first {A : Type} (cmp : A -> A -> option Z) (x y : A) : bool :=
  match cmp x y with
  | Some v => bool_decide (v ≤ 0)%Z
  | None => true
  end.

Fixpoint sort_insert {A : Type} (cmp : A -> A -> option Z) (x : A) (l : list A) : list A :=
  match l with
  | [] => [x]
  | y :: l' => if goes_first cmp x y then x :: y :: l' else y :: sort_insert cmp x l'
  end.

(** [l.sort(cmp)] as a stable insertion sort.  For a consistent comparator
    every stable sort gives this result; for an inconsistent one (NaN among
    the results) the order is implementation-defined and this is one
    admissible result. *)
Definition js_sort {A : Type} (cmp : A -> A -> option Z) (l : list A) : list A :=
  foldr (sort_insert cmp) [] l.

(** ** Object spread with overridden properties *)

Definition set_t_id (v : jstr) (t : Template) : Template :=
  mkTemplate v (t_name t) (t_description t) (t_titleFieldKey t) (t_wordFile t)
    (t_fields t) (t_detailTables t) (t_createdAt t) (t_updatedAt t).

Definition set_t_name (v : jstr) (t : Template) : Template :=
  mkTemplate (t_id t) v (t_description t) (t_titleFieldKey t) (t_wordFile t)
    (t_fields t) (t_detailTables t) (t_createdAt t) (t_updatedAt t).

Definition set_t_createdAt (v : jstr) (t : Template) : Template :=
  mkTemplate (t_id t) (t_name t) (t_description t) (t_titleFieldKey t) (t_wordFile t)
    (t_fields t) (t_detailTables t) v (t_updatedAt t).

Definition set_t_updatedAt (v : jstr) (t : Template) : Template :=
  mkTemplate (t_id t) (t_name t) (t_description t) (t_titleFieldKey t) (t_wordFile t)
    (t_fields t) (t_detailTables t) (t_createdAt t) v.

Definition set_r_id (v : jstr) (r : Rec) : Rec :=
  mkRec v (r_templateId r) (r_fileName r) (r_data r) (r_tables r)
    (r_createdAt r) (r_updatedAt r).

Definition set_r_templateId (v : jstr) (r : Rec) : Rec :=
  mkRec (r_id r) v (r_fileName r) (r_data r) (r_tables r)
    (r_createdAt r) (r_updatedAt r).

Definition set_r_createdAt (v : jstr) (r : Rec) : Rec :=
  mkRec (r_id r) (r_templateId r) (r_fileName r) (r_data r) (r_tables r)
    v (r_updatedAt r).

Definition set_r_updatedAt (v : jstr) (r : Rec) : Rec :=
  mkRec (r_id r) (r_templateId r) (r_fileName r) (r_data r) (r_tables r)
    (r_createdAt r) v.

(** ** The transactional store ([js/storage.js]) *)

Module StorageJs.
Section WithHost.
Context `{BrowserHost}.

(** ['id_' + Date.now().toString(36) + '_' + Math.random()...]. *)
Definition generated_id (n : nat) : string := "id_" +:+ id_suffix_at n.

(** [initDB] opens the database, or fails.  The application binds its
    handlers only after [initStorage] has succeeded, and [initDB] resolves
    with the opened database from then on: the operations of the store
    below run with the database open. *)
Definition initDB : M unit :=
  opens ← gets databaseOpens;
  if (opens : bool) then mret tt else throw (Error "无法打开数据库").

Definition generateId : M string :=
  fun w => (Ok (generated_id (draws w)), set_draws (S (draws w)) w).

Definition getTimestamp : M string :=
  fun w => (Ok (time_at (ticks w)), set_ticks (S (ticks w)) w).

(** [store.get], [store.delete] and [store.put] throw a [DataError] when
    the key is not a valid key; of the values of the model the strings are
    valid keys. *)
Definition DataError : JsError :=
  mkJsError "DataError" "The parameter is not a valid key.".

Definition idb_key (key : jstr) : M string :=
  match key with
  | JStr k => mret k
  | _ => throw DataError
  end.

Definition saveTemplate (template : Template) : M Template :=
  now ← getTimestamp;
  id ← (if truthy (t_id template) then mret (t_id template)
        else i ← generateId; mret (JStr i));
  let templateData :=
    set_t_updatedAt (JStr now)
      (set_t_createdAt (or_else (t_createdAt template) (JStr now))
         (set_t_id id template)) in
  key ← idb_key id;
  modify (fun w => add_event (IdbPutTemplate key)
                     (set_idb_templates (<[key := templateData]> (idb_templates w)) w));;
  mret templateData.

(** [store.getAll()] lists the values of the store in the ascending order
    of their keys. *)
Definition by_key {A : Type} (e1 e2 : string * A) : Prop := key_le e1.1 e2.1 = true.

#[global] Instance by_key_dec {A : Type} (e1 e2 : string * A) : Decision (by_key e1 e2).
Proof. unfold by_key. apply _. Defined.

Definition getAll {A : Type} (store : gmap string A) : list A :=
  (merge_sort by_key (map_to_list store)).*2.

(** The sort follows. *)
Definition getAllTemplates : M (list Template) :=
  gets (fun w => js_sort (newest_first t_updatedAt) (getAll (idb_templates w))).

(** [request.result || null]. *)
Definition getTemplateById (id : jstr) : M (option Template) :=
  key ← idb_key id;
  gets (fun w => idb_templates w !! key).

Definition deleteTemplate (id : jstr) : M unit :=
  key ← idb_key id;
  modify (fun w => add_event (IdbDeleteTemplate key)
                     (set_idb_templates (delete key (idb_templates w)) w)).

Definition saveRecord (record : Rec) : M Rec :=
  now ← getTimestamp;
  id ← (if truthy (r_id record) then mret (r_id record)
        else i ← generateId; mret (JStr i));
  let recordData :=
    set_r_updatedAt (JStr now)
      (set_r_createdAt (or_else (r_createdAt record) (JStr now))
         (set_r_id id record)) in
  key ← idb_key id;
  modify (fun w => add_event (IdbPutRecord key)
                     (set_idb_records (<[key := recordData]> (idb_records w)) w));;
  mret recordData.

Definition getAllRecords : M (list Rec) :=
  gets (fun w => js_sort (newest_first r_createdAt) (getAll (idb_records w))).

(** [index.getAll(templateId)] on the index ['templateId']: the index holds
    the records whose [templateId] is a valid key; a query that is [null]
    or [undefined] selects all of them.  The result is in the order of the
    index: ascending by [templateId], and by the key of the store among the
    records of one template. *)
Definition in_templateId_index (templateId : jstr) (r : Rec) : bool :=
  match templateId, r_templateId r with
  | JStr t, JStr t' => String.eqb t t'
  | JStr _, _ => false
  | _, JStr _ => true
  | _, _ => false
  end.

Definition by_templateId (e1 e2 : string * Rec) : Prop :=
  (if bool_decide (r_templateId e1.2 = r_templateId e2.2) then key_le e1.1 e2.1
   else key_le (to_string (r_templateId e1.2)) (to_string (r_templateId e2.2))) = true.

#[global] Instance by_templateId_dec (e1 e2 : string * Rec) : Decision (by_templateId e1 e2).
Proof. unfold by_templateId. apply _. Defined.

Definition index_getAll (templateId : jstr) (store : gmap string Rec) : list Rec :=
  (merge_sort by_templateId
     (filter (fun e => in_templateId_index templateId e.2 = true) (map_to_list store))).*2.

Definition getRecordsByTemplateId (templateId : jstr) : M (list Rec) :=
  gets (fun w =>
          js_sort (newest_first r_createdAt) (index_getAll templateId (idb_records w))).

Definition getRecordById (id : jstr) : M (option Rec) :=
  key ← idb_key id;
  gets (fun w => idb_records w !! key).

Definition deleteRecord (id : jstr) : M unit :=
  key ← idb_key id;
  modify (fun w => add_event (IdbDeleteRecord key)
                     (set_idb_records (delete key (idb_records w)) w)).

End WithHost.
End StorageJs.

(** ** The file store ([js/storage-file.js]) *)

Module FileStorageJs.

(** A valid entry name is not empty, is not ["."] or [".."] and contains no
    path separator; [getFileHandle], [getDirectoryHandle] and [removeEntry]
    throw a [TypeError] for any other name. *)
Definition valid_name (name : string) : bool :=
  negb (String.eqb name EmptyString) && negb (String.eqb name ".")
  && negb (String.eqb name "..") && negb (has_slash name).

Definition TypeError : JsError := mkJsError "TypeError" "Name is not allowed.".

Definition NotFoundError : JsError :=
  mkJsError "NotFoundError"
    "A requested file or directory could not be found at the time an operation was processed.".

Definition SyntaxError : JsError := mkJsError "SyntaxError" "Unexpected token in JSON".

Definition check_name (name : string) : M unit :=
  if valid_name name then mret tt else throw TypeError.

(** [loadWorkspaceHandle] awaits [store.get('current')], which is a request
    object and no promise: [result] is that request, [result.handle] is
    [undefined], and the function returns [null] whether or not a handle
    has been saved; so it does when the workspace database cannot be
    opened. *)
Definition loadWorkspaceHandle : M bool := mret false.

Definition getWorkspace : M unit :=
  handle ← gets workspaceHandle;
  if (handle : bool) then mret tt
  else
    loaded ← loadWorkspaceHandle;
    if (loaded : bool) then mret tt
    else throw (Error "未设置工作区，请先选择工作区文件夹").

Definition hasWorkspace : M bool :=
  handle ← gets workspaceHandle;
  if (handle : bool) then mret true else loadWorkspaceHandle.

(** [selectWorkspace].  The folder picker rejects with an [AbortError] when
    the user cancels.  Storing the handle for later sessions and creating
    the two folders cannot fail (their errors are caught and logged); within
    the session [workspaceHandle] stays set. *)
Definition selectWorkspace : M unit :=
  try_catch
    (supported ← gets supportsFileSystem;
     if (supported : bool) then
       picked ← gets userPicksFolder;
       if (picked : bool) then modify (set_workspaceHandle true)
       else throw (mkJsError "AbortError" "The user aborted a request.")
     else throw (Error "您的浏览器不支持本地文件系统访问，请使用 Chrome 86+ 或 Edge 86+"))
    (fun error =>
       if String.eqb (err_name error) "AbortError" then throw (Error "用户取消选择")
       else throw error).

(** The [.json] files of a folder that parse, in the order of the folder. *)
Definition json_files {A : Type} (d : Dir (option A)) : list A :=
  omap (fun entry => if ends_with ".json" entry.1 then entry.2 else None) (map_to_list d).

Section WithHost.
Context `{BrowserHost}.

Definition saveTemplateToFile (template : Template) : M Template :=
  try_catch
    (getWorkspace;;
     let fileName := to_string (t_id template) +:+ ".json" in
     check_name fileName;;
     modify (fun w => add_event (FsWriteTemplate fileName)
                        (set_fs_templates (<[fileName := Some template]> (fs_templates w)) w));;
     mret template)
    (fun error => throw (Error ("保存模板失败: " +:+ err_message error))).

Definition loadTemplatesFromFiles : M (list Template) :=
  try_catch
    (getWorkspace;;
     entries ← gets fs_templates;
     mret (js_sort (newest_first t_updatedAt) (json_files entries)))
    (fun _ => mret []).

Definition loadTemplateFromFile (templateId : jstr) : M Template :=
  try_catch
    (getWorkspace;;
     let fileName := to_string templateId +:+ ".json" in
     check_name fileName;;
     entries ← gets fs_templates;
     match entries !! fileName with
     | Some (Some template) => mret template
     | Some None => throw SyntaxError
     | None => throw NotFoundError
     end)
    (fun _ => throw (Error "模板不存在")).

Definition deleteTemplateFile (templateId : jstr) : M bool :=
  try_catch
    (getWorkspace;;
     let fileName := to_string templateId +:+ ".json" in
     check_name fileName;;
     entries ← gets fs_templates;
     match entries !! fileName with
     | Some _ =>
         modify (fun w => add_event (FsRemoveTemplate fileName)
                            (set_fs_templates (delete fileName (fs_templates w)) w));;
         mret true
     | None => throw NotFoundError
     end)
    (fun _ => throw (Error "删除模板失败")).

(** [recordsDir.getDirectoryHandle(name, { create: true })]. *)
Definition open_or_create_dir (name : string) (d : Dir (Dir (option Rec)))
  : Dir (Dir (option Rec)) :=
  match d !! name with
  | Some _ => d
  | None => <[name := ∅]> d
  end.

Definition saveRecordToFile (record : Rec) : M Rec :=
  try_catch
    (getWorkspace;;
     let dirName := to_string (r_templateId record) in
     check_name dirName;;
     modify (fun w => set_fs_records (open_or_create_dir dirName (fs_records w)) w);;
     let fileName := to_string (r_id record) +:+ ".json" in
     check_name fileName;;
     modify (fun w =>
               add_event (FsWriteRecord dirName fileName)
                 (set_fs_records
                    (<[dirName := <[fileName := Some record]>
                                    (default ∅ (fs_records w !! dirName))]>
                       (fs_records w)) w));;
     mret record)
    (fun error => throw (Error ("保存记录失败: " +:+ err_message error))).

(** [loadRecordsFromFiles(templateId = null)].  With a template id the
    inner [try] turns a missing (or unnameable) folder into no records. *)
Definition loadRecordsFromFiles (templateId : jstr) : M (list Rec) :=
  try_catch
    (getWorkspace;;
     dirs ← gets fs_records;
     if truthy templateId then
       if valid_name (to_string templateId) then
         match dirs !! to_string templateId with
         | Some files => mret (json_files files)
         | None => mret []
         end
       else mret []
     else mret (concat (map (fun entry => json_files entry.2) (map_to_list dirs))))
    (fun _ => mret []).

Definition deleteRecordFile (record : Rec) : M bool :=
  try_catch
    (getWorkspace;;
     let dirName := to_string (r_templateId record) in
     check_name dirName;;
     dirs ← gets fs_records;
     match dirs !! dirName with
     | None => throw NotFoundError
     | Some files =>
         let fileName := to_string (r_id record) +:+ ".json" in
         check_name fileName;;
         match files !! fileName with
         | None => throw NotFoundError
         | Some _ =>
             modify (fun w =>
                       add_event (FsRemoveRecord dirName fileName)
                         (set_fs_records
                            (<[dirName := delete fileName files]> (fs_records w)) w));;
             mret true
         end
     end)
    (fun _ => throw (Error "删除记录失败")).

Definition deleteRecordsByTemplateId (templateId : jstr) : M bool :=
  try_catch
    (getWorkspace;;
     let dirName := to_string templateId in
     check_name dirName;;
     dirs ← gets fs_records;
     match dirs !! dirName with
     | Some _ =>
         modify (fun w => add_event (FsRemoveRecordDir dirName)
                            (set_fs_records (delete dirName (fs_records w)) w));;
         mret true
     | None => throw NotFoundError
     end)
    (fun error =>
       if String.eqb (err_name error) "NotFoundError" then mret true
       else throw (Error "删除记录失败")).

End WithHost.
End FileStorageJs.

(** ** The storage adapter ([js/storage-adapter.js]) *)

Module StorageAdapterJs.
Section WithHost.
Context `{BrowserHost}.

(** [storageMode = 'browser'; await Storage.init()] ends [initStorage] when
    the file store is not selected: the rejection of [Storage.init] is not
    caught here. *)
Definition initStorage : M unit :=
  supported ← gets supportsFileSystem;
  hasWorkspace ← (if (supported : bool) then FileStorageJs.hasWorkspace else mret false);
  if (hasWorkspace : bool) then modify (set_storageMode FileMode)
  else
    modify (set_storageMode BrowserMode);;
    StorageJs.initDB.

Definition switchToFileStorage : M bool :=
  FileStorageJs.selectWorkspace;;
  modify (set_storageMode FileMode);;
  mret true.

(** The assignments made to the caller's object before the backend is
    called: [if (!template.id) ...], [if (!template.createdAt) ...],
    [template.updatedAt = ...]. *)
Definition stampTemplate (template : Template) : M Template :=
  id ← (if truthy (t_id template) then mret (t_id template)
        else i ← StorageJs.generateId; mret (JStr i));
  createdAt ← (if truthy (t_createdAt template) then mret (t_createdAt template)
               else now ← StorageJs.getTimestamp; mret (JStr now));
  now ← StorageJs.getTimestamp;
  mret (set_t_updatedAt (JStr now) (set_t_createdAt createdAt (set_t_id id template))).

Definition saveTemplate (template : Template) : M Template :=
  template ← stampTemplate template;
  mode ← gets storageMode;
  match mode with
  | FileMode => FileStorageJs.saveTemplateToFile template
  | BrowserMode => StorageJs.saveTemplate template
  end.

Definition getAllTemplates : M (list Template) :=
  mode ← gets storageMode;
  match mode with
  | FileMode => FileStorageJs.loadTemplatesFromFiles
  | BrowserMode => StorageJs.getAllTemplates
  end.

Definition getTemplateById (id : jstr) : M (option Template) :=
  mode ← gets storageMode;
  match mode with
  | FileMode => template ← FileStorageJs.loadTemplateFromFile id; mret (Some template)
  | BrowserMode => StorageJs.getTemplateById id
  end.

Definition deleteTemplate (id : jstr) : M unit :=
  mode ← gets storageMode;
  match mode with
  | FileMode =>
      FileStorageJs.deleteTemplateFile id;;
      FileStorageJs.deleteRecordsByTemplateId id;;
      mret tt
  | BrowserMode => StorageJs.deleteTemplate id
  end.

Definition stampRecord (record : Rec) : M Rec :=
  id ← (if truthy (r_id record) then mret (r_id record)
        else i ← StorageJs.generateId; mret (JStr i));
  createdAt ← (if truthy (r_createdAt record) then mret (r_createdAt record)
               else now ← StorageJs.getTimestamp; mret (JStr now));
  now ← StorageJs.getTimestamp;
  mret (set_r_updatedAt (JStr now) (set_r_createdAt createdAt (set_r_id id record))).

Definition saveRecord (record : Rec) : M Rec :=
  record ← stampRecord record;
  mode ← gets storageMode;
  match mode with
  | FileMode => FileStorageJs.saveRecordToFile record
  | BrowserMode => StorageJs.saveRecord record
  end.

Definition getAllRecords : M (list Rec) :=
  mode ← gets storageMode;
  match mode with
  | FileMode => FileStorageJs.loadRecordsFromFiles JNull
  | BrowserMode => StorageJs.getAllRecords
  end.

Definition getRecordsByTemplateId (templateId : jstr) : M (list Rec) :=
  mode ← gets storageMode;
  match mode with
  | FileMode => FileStorageJs.loadRecordsFromFiles templateId
  | BrowserMode => StorageJs.getRecordsByTemplateId templateId
  end.

(** In file mode: [allRecords.find(r => r.id === id)]. *)
Definition getRecordById (id : jstr) : M (option Rec) :=
  mode ← gets storageMode;
  match mode with
  | FileMode =>
      allRecords ← FileStorageJs.loadRecordsFromFiles JNull;
      mret (List.find (fun r => bool_decide (r_id r = id)) allRecords)
  | BrowserMode => StorageJs.getRecordById id
  end.

Definition deleteRecord (id : jstr) : M unit :=
  mode ← gets storageMode;
  match mode with
  | FileMode =>
      record ← getRecordById id;
      match record with
      | Some record => FileStorageJs.deleteRecordFile record;; mret tt
      | None => mret tt
      end
  | BrowserMode => StorageJs.deleteRecord id
  end.

(** [deleteRecordsByTemplateId] of [js/storage.js], exported as
    [Storage.deleteRecordsByTemplateId].  The sources are classic scripts
    that share the global scope, and [js/storage-adapter.js], which is
    loaded after [js/storage.js] (it reads [Storage.generateId] while
    loading), declares [getRecordsByTemplateId] and [deleteRecord] again:
    when the function runs, the two names in its body denote the functions
    of the adapter. *)
Definition Storage_deleteRecordsByTemplateId (templateId : jstr) : M unit :=
  records ← getRecordsByTemplateId templateId;
  for_each records (fun record => deleteRecord (r_id record)).

Definition deleteRecordsByTemplateId (templateId : jstr) : M unit :=
  mode ← gets storageMode;
  match mode with
  | FileMode => FileStorageJs.deleteRecordsByTemplateId templateId;; mret tt
  | BrowserMode => Storage_deleteRecordsByTemplateId templateId
  end.

End WithHost.
End StorageAdapterJs.

(** ** Pack import ([js/export.js]) *)

(** What [FileReader.readAsText] and [JSON.parse] make of the chosen file:
    the read fails, the text is not JSON (with the parser's message), or a
    value of the expected shape is obtained. *)
Inductive FileInput (P : Type) : Type :=
| ReadError
| ParseError (message : string)
| Parsed (pack : P).
Arguments ReadError {P}.
Arguments ParseError {P} message.
Arguments Parsed {P} pack.

Record TemplatePack : Type := mkTemplatePack {
  tp_type : jstr;
  tp_template : option Template
}.

Record TemplateInfo : Type := mkTemplateInfo {
  ti_id : jstr;
  ti_name : jstr
}.

Record RecordsPack : Type := mkRecordsPack {
  rp_type : jstr;
  rp_templateInfo : option TemplateInfo;
  rp_records : option (list Rec)
}.

Record Backup : Type := mkBackup {
  b_type : jstr;
  b_templates : option (list Template);
  b_records : option (list Rec)
}.

Record TemplateImportResult : Type := mkTemplateImportResult {
  tir_action : string;
  tir_template : option Template;
  tir_message : string
}.

Record RecordsImportResult : Type := mkRecordsImportResult {
  rir_imported : nat;
  rir_skipped : nat;
  rir_total : nat
}.

Record BackupImportResult : Type := mkBackupImportResult {
  templatesImported : nat;
  recordsImported : nat
}.

Module ExportJs.
Section WithHost.
Context `{BrowserHost}.

(** [Word.formatDate(new Date(), 'MMDDHHmm')]: one more reading of the
    clock. *)
Definition importStamp : M string :=
  fun w => (Ok (stamp_at (ticks w)), set_ticks (S (ticks w)) w).

(** [existingById?.id || existingByName?.id]. *)
Definition id_of (t : option Template) : jstr :=
  match t with
  | Some t => t_id t
  | None => JUndefined
  end.

(** The body of [reader.onload] of [importTemplatePack], after
    [JSON.parse].  [None] is the result of the branch ['skip'], which
    resolves without saving. *)
Definition importTemplatePack_onload (pack : TemplatePack) (conflictStrategy : string)
  : M TemplateImportResult :=
  match tp_template pack with
  | Some template =>
      if negb (truthy (tp_type pack)) || negb (bool_decide (tp_type pack = JStr "template"))
      then throw (Error "无效的模板包格式")
      else
        existingTemplates ← StorageAdapterJs.getAllTemplates;
        let existingByName :=
          List.find (fun t => bool_decide (t_name t = t_name template)) existingTemplates in
        let existingById :=
          List.find (fun t => bool_decide (t_id t = t_id template)) existingTemplates in
        let save (finalTemplate : Template) (action : string) : M TemplateImportResult :=
          saved ← StorageAdapterJs.saveTemplate finalTemplate;
          mret (mkTemplateImportResult action (Some saved)
                  ("模板 " +:+ dquote +:+ to_string (t_name saved) +:+ dquote +:+ " 导入成功")) in
        if bool_decide (is_Some existingById) || bool_decide (is_Some existingByName) then
          if String.eqb conflictStrategy "overwrite" then
            save (set_t_id (or_else (id_of existingById) (id_of existingByName)) template)
                 "overwritten"
          else if String.eqb conflictStrategy "rename" then
            id ← StorageJs.generateId;
            stamp ← importStamp;
            save (set_t_createdAt JNull
                    (set_t_name (JStr (to_string (t_name template) +:+ " (导入-" +:+ stamp +:+ ")"))
                       (set_t_id (JStr id) template)))
                 "renamed"
          else if String.eqb conflictStrategy "skip" then
            mret (mkTemplateImportResult "skipped" None
                    ("模板 " +:+ dquote +:+ to_string (t_name template) +:+ dquote +:+ " 已存在，跳过导入"))
          else save template "created"
        else
          id ← StorageJs.generateId;
          save (set_t_createdAt JNull (set_t_id (JStr id) template)) "created"
  | None => throw (Error "无效的模板包格式")
  end.

Definition importTemplatePack (file : FileInput TemplatePack) (conflictStrategy : string)
  : M TemplateImportResult :=
  match file with
  | ReadError => throw (Error "读取文件失败")
  | ParseError message => throw (Error ("导入模板包失败: " +:+ message))
  | Parsed pack =>
      try_catch (importTemplatePack_onload pack conflictStrategy)
        (fun error => throw (Error ("导入模板包失败: " +:+ err_message error)))
  end.

(** [pack.templateInfo?.id] and [pack.templateInfo?.name]. *)
Definition info_id (pack : RecordsPack) : jstr :=
  match rp_templateInfo pack with
  | Some info => ti_id info
  | None => JUndefined
  end.

Definition info_name (pack : RecordsPack) : jstr :=
  match rp_templateInfo pack with
  | Some info => ti_name info
  | None => JUndefined
  end.

(** The resolution of the target template id of [importRecordsPack]. *)
Definition resolveTargetTemplateId (pack : RecordsPack) : M jstr :=
  let templateId := info_id pack in
  if truthy templateId then
    template ← StorageAdapterJs.getTemplateById templateId;
    match template with
    | Some _ => mret templateId
    | None =>
        templates ← StorageAdapterJs.getAllTemplates;
        match List.find (fun t => bool_decide (t_name t = info_name pack)) templates with
        | Some templateByName => mret (t_id templateByName)
        | None =>
            throw (Error ("找不到对应的模板 " +:+ dquote
                          +:+ to_string (or_else (info_name pack) templateId)
                          +:+ dquote +:+ "，请先导入模板"))
        end
    end
  else mret templateId.

(** The loop [for (const record of pack.records)] with its two counters
    [(imported, skipped)]. *)
Fixpoint importRecords_loop (targetTemplateId : jstr) (records : list Rec)
    (counts : nat * nat) : M (nat * nat) :=
  match records with
  | [] => mret counts
  | record :: rest =>
      existing ← StorageAdapterJs.getRecordById (r_id record);
      match existing with
      | Some _ => importRecords_loop targetTemplateId rest (counts.1, S counts.2)
      | None =>
          id ← StorageJs.generateId;
          StorageAdapterJs.saveRecord
            (set_r_id (JStr id) (set_r_templateId targetTemplateId record));;
          importRecords_loop targetTemplateId rest (S counts.1, counts.2)
      end
  end.

Definition importRecordsPack_onload (pack : RecordsPack) : M RecordsImportResult :=
  match rp_records pack with
  | Some records =>
      if negb (truthy (rp_type pack)) || negb (bool_decide (rp_type pack = JStr "records"))
      then throw (Error "无效的数据包格式")
      else
        targetTemplateId ← resolveTargetTemplateId pack;
        counts ← importRecords_loop targetTemplateId records (0, 0);
        mret (mkRecordsImportResult counts.1 counts.2 (length records))
  | None => throw (Error "无效的数据包格式")
  end.

Definition importRecordsPack (file : FileInput RecordsPack) : M RecordsImportResult :=
  match file with
  | ReadError => throw (Error "读取文件失败")
  | ParseError message => throw (Error ("导入数据包失败: " +:+ message))
  | Parsed pack =>
      try_catch (importRecordsPack_onload pack)
        (fun error => throw (Error ("导入数据包失败: " +:+ err_message error)))
  end.

(** The two loops of [importFullBackup], each with its counter. *)
Fixpoint importTemplates_loop (templates : list Template) (count : nat) : M nat :=
  match templates with
  | [] => mret count
  | template :: rest =>
      existing ← StorageAdapterJs.getTemplateById (t_id template);
      match existing with
      | Some _ => importTemplates_loop rest count
      | None =>
          StorageAdapterJs.saveTemplate template;;
          importTemplates_loop rest (S count)
      end
  end.

Fixpoint importBackupRecords_loop (records : list Rec) (count : nat) : M nat :=
  match records with
  | [] => mret count
  | record :: rest =>
      existing ← StorageAdapterJs.getRecordById (r_id record);
      match existing with
      | Some _ => importBackupRecords_loop rest count
      | None =>
          StorageAdapterJs.saveRecord record;;
          importBackupRecords_loop rest (S count)
      end
  end.

Definition importFullBackup_onload (backup : Backup) : M BackupImportResult :=
  if negb (truthy (b_type backup)) || negb (bool_decide (b_type backup = JStr "full_backup"))
  then throw (Error "无效的备份文件格式")
  else
    templatesImported ← importTemplates_loop (default [] (b_templates backup)) 0;
    recordsImported ← importBackupRecords_loop (default [] (b_records backup)) 0;
    mret (mkBackupImportResult templatesImported recordsImported).

Definition importFullBackup (file : FileInput Backup) : M BackupImportResult :=
  match file with
  | ReadError => throw (Error "读取文件失败")
  | ParseError message => throw (Error ("导入备份失败: " +:+ message))
  | Parsed backup =>
      try_catch (importFullBackup_onload backup)
        (fun error => throw (Error ("导入备份失败: " +:+ err_message error)))
  end.

End WithHost.
End ExportJs.

(** ** The delete-template action of the application script *)

Module AppJs.
Section WithHost.
Context `{BrowserHost}.

(** The [onClick] handler of the confirmation dialog: the result is the
    text of the toast that is shown. *)
Definition deleteTemplate_onClick (templateId : string) : M string :=
  try_catch
    (StorageAdapterJs.Storage_deleteRecordsByTemplateId (JStr templateId);;
     StorageAdapterJs.deleteTemplate (JStr templateId);;
     mret "模板已删除")
    (fun error => mret ("删除失败: " +:+ err_message error)).

End WithHost.
End AppJs.

(** * Specification-level definitions and sample data *)

(** Unfolds the monad of asynchronous computations. *)
Ltac run_async :=
  unfold mbind, M_bind, mret, M_ret, bind, ret, gets, modify, throw, try_catch,
    FileStorageJs.check_name in *.

Module Spec.
Import TemplateJs WordJs ExportJs.


(** The configured key set in the words of the specification: all field
    keys plus all detail-table column keys. *)
Definition spec_configured_keys (template : Template) : list string :=
  (f_key <$> t_fields template)
  ++ concat ((λ table, c_key <$> tb_columns table) <$> default [] (t_detailTables template)).

(** What the specification promises for a value: the value, or the empty
    string when it is absent or null. *)
Definition filled_value (v : option scalar) : scalar :=
  match v with
  | None | Some SUndefined | Some SNull => SStr EmptyString
  | Some v => v
  end.

(** What the specification promises for a field. *)
Definition field_filled (fieldData : gmap string scalar) (data : WordData)
    (key : string) : Prop :=
  wd_own data !! key = Some (WScalar (filled_value (fieldData !! key))).

(** A name that no member of [Object.prototype] has. *)
Definition plain_name (name : string) : Prop := object_prototype_has name = false.

(** The field keys, the table names and the column keys of the template
    are plain names. *)
Definition plain_names (template : Template) : Prop :=
  Forall (λ field, plain_name (f_key field)) (t_fields template)
  ∧ Forall (λ table, plain_name (tb_name table)
                     ∧ Forall (λ col, plain_name (c_key col)) (tb_columns table))
      (default [] (t_detailTables template)).

(** The table configured last under a name. *)
Fixpoint last_table (name : string) (tables : list Table) : option Table :=
  match tables with
  | [] => None
  | table :: tables' =>
      match last_table name tables' with
      | Some later => Some later
      | None => if decide (tb_name table = name) then Some table else None
      end
  end.

Definition filled (v : option wordval) : wordval :=
  match v with
  | None | Some (WScalar SUndefined) | Some (WScalar SNull) => WScalar (SStr EmptyString)
  | Some v => v
  end.

(** The names bound to rows before the fields are filled in. *)
Definition bound_table_names (template : Template)
    (tableData : option (gmap string (list (gmap string scalar)))) : list string :=
  match t_detailTables template, tableData with
  | Some tables, Some _ => tb_name <$> tables
  | _, _ => []
  end.

(** The read [tableData[name]] gives rows: an own entry, or nothing at all
    (no inherited member either). *)
Definition rows_readable (tableData : option (gmap string (list (gmap string scalar))))
    (name : string) : Prop :=
  match tableData with
  | Some td => is_Some (td !! name) ∨ plain_name name
  | None => True
  end.

Definition no_workspace_message : string := "未设置工作区，请先选择工作区文件夹".

Definition unsupported_message : string :=
  "您的浏览器不支持本地文件系统访问，请使用 Chrome 86+ 或 Edge 86+".



Section WithHost.
Context `{BrowserHost}.

(** [a] is listed before [b]: both dates are valid and [a] is not older. *)
Definition not_older {A : Type} (key : A → jstr) (a b : A) : Prop :=
  ∃ x y, date_value (key a) = Some x ∧ date_value (key b) = Some y ∧ (y ≤ x)%Z.













(** The stored templates by slot: the key of the object store, or the name
    of the JSON file that parses. *)
Definition template_table (w : World) : gmap string Template :=
  match storageMode w with
  | BrowserMode => idb_templates w
  | FileMode => omap id (filter (λ entry, ends_with ".json" entry.1 = true) (fs_templates w))
  end.


(** On the file backend the workspace has been granted in this session. *)
Definition store_ready (w : World) : Prop :=
  storageMode w = FileMode → workspaceHandle w = true.


(** What [getAllTemplates] lists. *)
Definition existing_templates (w : World) : list Template :=
  match storageMode w with
  | BrowserMode => js_sort (newest_first t_updatedAt) (StorageJs.getAll (idb_templates w))
  | FileMode => js_sort (newest_first t_updatedAt) (FileStorageJs.json_files (fs_templates w))
  end.

Definition existingByName (t : Template) (w : World) : option Template :=
  List.find (λ e, bool_decide (t_name e = t_name t)) (existing_templates w).

Definition existingById (t : Template) (w : World) : option Template :=
  List.find (λ e, bool_decide (t_id e = t_id t)) (existing_templates w).


(** The id of the template matched by id, else of the one matched by
    name. *)
Definition matching_id (t : Template) (w : World) : jstr :=
  match existingById t w with
  | Some e => t_id e
  | None => id_of (existingByName t w)
  end.


End WithHost.
End Spec.

(** Sample data for the examples. *)
Module Samples.
Import Spec.


(** A document library that reads the payload as its own text, and one
    that fails on every payload. *)
Definition plain_atob (s : string) : option string :=
  if String.eqb s "undefined" then None else Some s.

Definition plain_host : DocxHost :=
  {| atob := plain_atob; atob_undefined := eq_refl; docx_getFullText := Some |}.
Definition failing_host : DocxHost :=
  {| atob := plain_atob; atob_undefined := eq_refl; docx_getFullText := λ _, None |}.

Definition sample_template : Template :=
  mkTemplate JNull (JStr "Invoice") EmptyString EmptyString
    (Some (mkWordFile "invoice.docx" "data:application/octet-stream;base64,{b} and {c}"))
    [mkField "a" "A" "text" false; mkField "b" "B" "text" false] None JNull JNull.

(** The same template with the document stored without the data URL
    header. *)
Definition bare_template : Template :=
  mkTemplate JNull (JStr "Invoice") EmptyString EmptyString
    (Some (mkWordFile "invoice.docx" "{b} and {c}"))
    [mkField "a" "A" "text" false; mkField "b" "B" "text" false] None JNull JNull.

(** The members of [Array.prototype] of a current browser. *)
Definition sample_realm : JsRealm :=
  {| Array_prototype_has key :=
       existsb (String.eqb key)
         ["constructor"; "at"; "concat"; "copyWithin"; "fill"; "find"; "findIndex";
          "findLast"; "findLastIndex"; "lastIndexOf"; "pop"; "push"; "reverse"; "shift";
          "unshift"; "slice"; "sort"; "splice"; "includes"; "indexOf"; "join"; "keys";
          "entries"; "values"; "forEach"; "filter"; "flat"; "flatMap"; "map"; "every";
          "some"; "reduce"; "reduceRight"; "toReversed"; "toSorted"; "toSpliced"; "with";
          "toLocaleString"; "toString"] |}.

(** A template with the one field [name]. *)
Definition name_template : Template :=
  mkTemplate JNull JNull EmptyString EmptyString None
    [mkField "name" "Name" "text" false] None JNull JNull.

(** A template with one table of the given name and column keys. *)
Definition table_template (name : string) (keys : list string) : Template :=
  mkTemplate JNull JNull EmptyString EmptyString None []
    (Some [mkTable name ((λ key, mkColumn key key "text") <$> keys)]) JNull JNull.

(** A template with one field of the given key. *)
Definition field_template (key : string) : Template :=
  mkTemplate JNull JNull EmptyString EmptyString None
    [mkField key key "text" false] None JNull JNull.

(** A template whose field key is also the name of a detail table. *)
Definition shadowing_template : Template :=
  mkTemplate JNull (JStr "Order") EmptyString EmptyString None
    [mkField "items" "Items" "text" false]
    (Some [mkTable "items" [mkColumn "sku" "SKU" "text"]]) JNull JNull.

(** A browser for the examples: the [n]-th reading of the clock is the
    text of [n+1] letters [t], a date text is worth its length, the [n]-th
    id is [id_] followed by [n] letters [i]. *)
Definition letters (c : ascii) (n : nat) : string :=
  String.string_of_list_ascii (replicate n c).

(** The keys of the examples are compared byte by byte. *)
Definition bytes_le (a b : string) : bool :=
  match OrdersEx.String_as_OT.compare a b with
  | Gt => false
  | _ => true
  end.

Definition sample_host : BrowserHost.
Proof.
  refine {| time_at n := letters "t" (S n);
            stamp_at n := letters "s" n;
            id_suffix_at n := letters "i" n;
            Date_parse s := Some (Z.of_nat (String.length s));
            key_le := bytes_le |}.
  - intros n. discriminate.
  - intros n. induction n as [| n IH]; [reflexivity | exact IH].
  - intros a b. unfold bytes_le.
    destruct (OrdersEx.String_as_OT.compare_spec a b) as [Heq | Hlt | Hgt]; [by left | by left |].
    right. unfold OrdersEx.String_as_OT.lt in Hgt. by rewrite Hgt.
  - intros a b c. unfold bytes_le.
    destruct (OrdersEx.String_as_OT.compare_spec a b) as [Hab | Hab | Hab]; [| | done].
    + unfold OrdersEx.String_as_OT.eq in Hab. by subst.
    + destruct (OrdersEx.String_as_OT.compare_spec b c) as [Hbc | Hbc | Hbc]; [| | done].
      * unfold OrdersEx.String_as_OT.eq in Hbc. subst.
        unfold OrdersEx.String_as_OT.lt in Hab. by rewrite Hab.
      * intros _ _.
        assert (Hac : OrdersEx.String_as_OT.lt a c)
          by exact (StrictOrder_Transitive a b c Hab Hbc).
        unfold OrdersEx.String_as_OT.lt in Hac. by rewrite Hac.
  - intros a b. unfold bytes_le.
    destruct (OrdersEx.String_as_OT.compare_spec a b) as [Hab | Hab | Hab]; [done | | done].
    destruct (OrdersEx.String_as_OT.compare_spec b a) as [Hba | Hba | Hba];
      [by symmetry | | done].
    intros _ _. exfalso.
    exact (StrictOrder_Irreflexive a (StrictOrder_Transitive a b a Hab Hba)).
Defined.



Definition template_named (id name updatedAt : string) : Template :=
  mkTemplate (JStr id) (JStr name) EmptyString EmptyString None [] None
    (JStr updatedAt) (JStr updatedAt).

Definition record_of (id templateId createdAt : string) : Rec :=
  mkRec (JStr id) (JStr templateId) JUndefined ∅ ∅ (JStr createdAt) (JStr createdAt).

Definition empty_world (mode : Mode) : World :=
  mkWorld mode 0 0 ∅ ∅ false false true true true ∅ ∅ [].

(** A database with two templates and three records. *)
Definition browser_world : World :=
  set_idb_records
    {[ "r1" := record_of "r1" "t1" "tt";
       "r2" := record_of "r2" "t1" "tttt";
       "r3" := record_of "r3" "t2" "ttt" ]}
    (set_idb_templates
       {[ "t1" := template_named "t1" "Invoice" "t";
          "t2" := template_named "t2" "Letter" "ttt" ]}
       (empty_world BrowserMode)).




(** A workspace with the template [t1] and one record of it. *)
Definition workspace_t1 : World :=
  set_fs_records {[ "t1" := {[ "r1.json" := Some (record_of "r1" "t1" "t") ]} ]}
    (set_fs_templates {[ "t1.json" := Some (template_named "t1" "Invoice" "t") ]}
       (set_workspaceHandle true (empty_world FileMode))).


(** A backup with one stored and one new template, and one stored and one
    new record. *)
Definition sample_backup : Backup :=
  mkBackup (JStr "full_backup")
    (Some [template_named "t1" "Invoice" "t";
           template_named "t3" "Memo" "tt"])
    (Some [record_of "r1" "t1" "tt"; record_of "r9" "t3" "t"]).


(** A pack for the stored template [t1] with one stored and one new
    record. *)
Definition sample_pack : RecordsPack :=
  mkRecordsPack (JStr "records") (Some (mkTemplateInfo (JStr "t1") (JStr "Invoice")))
    (Some [record_of "r1" "t1" "tt"; record_of "r7" "t1" "t"]).



(** A pack whose template has the name of the stored template [t1]. *)
Definition invoice_pack : TemplatePack :=
  mkTemplatePack (JStr "template") (Some (template_named "zz" "Invoice" "tt")).



End Samples.
(** ** Template validation ([validateTemplate] of [js/template.js]) *)

Module ValidateJs.

(** [!s || !s.trim()] for a string. *)
Definition is_blank (s : string) : bool := String.eqb (trim s) EmptyString.

(** The same test on a property that may be [null] or [undefined]. *)
Definition is_blank_value (v : jstr) : bool :=
  match v with
  | JStr s => is_blank s
  | _ => true
  end.

(** The character classes [[a-zA-Z_]] and [[a-zA-Z0-9_]]. *)
Definition is_letter_or_underscore (c : ascii) : bool :=
  let n := nat_of_ascii c in
  (Nat.leb 97 n && Nat.leb n 122) || (Nat.leb 65 n && Nat.leb n 90) || Nat.eqb n 95.

Definition is_word_char (c : ascii) : bool :=
  let n := nat_of_ascii c in
  is_letter_or_underscore c || (Nat.leb 48 n && Nat.leb n 57).

Fixpoint all_word_chars (s : string) : bool :=
  match s with
  | EmptyString => true
  | String c s' => is_word_char c && all_word_chars s'
  end.

(** [/^[a-zA-Z_][a-zA-Z0-9_]*$/.test(s)]. *)
Definition is_identifier (s : string) : bool :=
  match s with
  | EmptyString => false
  | String c s' => is_letter_or_underscore c && all_word_chars s'
  end.

Record ValidationResult : Type := mkValidationResult {
  vr_valid : bool;
  vr_errors : list string
}.

(** The callback of [template.fields.forEach((field, index) => ...)]: the
    state is the array [errors] and the set [fieldKeys]. *)
Definition check_field (state : list string * list string) (index : nat) (field : Field)
  : list string * list string :=
  let '(errors, fieldKeys) := state in
  let '(errors, fieldKeys) :=
    if is_blank (f_key field) then
      (errors ++ ["字段 " +:+ nat_to_string (index + 1) +:+ " 的占位符 key 不能为空"], fieldKeys)
    else if negb (is_identifier (f_key field)) then
      (errors ++ ["字段 " +:+ dquote +:+ f_key field +:+ dquote
                  +:+ " 的占位符格式不正确（只能包含字母、数字和下划线，且不能以数字开头）"],
       fieldKeys)
    else if set_has (f_key field) fieldKeys then
      (errors ++ ["字段占位符 " +:+ dquote +:+ f_key field +:+ dquote +:+ " 重复"], fieldKeys)
    else (errors, set_add (f_key field) fieldKeys) in
  let errors :=
    if is_blank (f_label field) then
      errors ++ ["字段 " +:+ nat_to_string (index + 1) +:+ " 的显示名称不能为空"]
    else errors in
  (errors, fieldKeys).

(** The callback of [table.columns.forEach((col, colIndex) => ...)]. *)
Definition check_column (tableName : string) (state : list string * list string)
    (colIndex : nat) (col : Column) : list string * list string :=
  let '(errors, columnKeys) := state in
  let '(errors, columnKeys) :=
    if is_blank (c_key col) then
      (errors ++ ["明细表 " +:+ dquote +:+ tableName +:+ dquote +:+ " 的列 "
                  +:+ nat_to_string (colIndex + 1) +:+ " 占位符不能为空"], columnKeys)
    else if set_has (c_key col) columnKeys then
      (errors ++ ["明细表 " +:+ dquote +:+ tableName +:+ dquote +:+ " 的列占位符 "
                  +:+ dquote +:+ c_key col +:+ dquote +:+ " 重复"], columnKeys)
    else (errors, set_add (c_key col) columnKeys) in
  let errors :=
    if is_blank (c_label col) then
      errors ++ ["明细表 " +:+ dquote +:+ tableName +:+ dquote +:+ " 的列 "
                 +:+ nat_to_string (colIndex + 1) +:+ " 显示名称不能为空"]
    else errors in
  (errors, columnKeys).

(** [xs.forEach((x, index) => ...)] on a state, from the index [start]. *)
Fixpoint for_each_indexed {St A : Type} (body : St → nat → A → St) (start : nat)
    (xs : list A) (state : St) : St :=
  match xs with
  | [] => state
  | x :: xs' => for_each_indexed body (S start) xs' (body state start x)
  end.

(** The callback of [template.detailTables.forEach((table, tableIndex) =>
    ...)]: the state is [errors] and the set [tableNames]. *)
Definition check_table (state : list string * list string) (tableIndex : nat) (table : Table)
  : list string * list string :=
  let '(errors, tableNames) := state in
  let '(errors, tableNames) :=
    if is_blank (tb_name table) then
      (errors ++ ["明细表 " +:+ nat_to_string (tableIndex + 1) +:+ " 的名称不能为空"], tableNames)
    else if negb (is_identifier (tb_name table)) then
      (errors ++ ["明细表 " +:+ dquote +:+ tb_name table +:+ dquote +:+ " 的名称格式不正确"],
       tableNames)
    else if set_has (tb_name table) tableNames then
      (errors ++ ["明细表名称 " +:+ dquote +:+ tb_name table +:+ dquote +:+ " 重复"], tableNames)
    else (errors, set_add (tb_name table) tableNames) in
  let errors :=
    match tb_columns table with
    | [] =>
        errors ++ ["明细表 " +:+ dquote
                   +:+ (if String.eqb (tb_name table) EmptyString
                        then nat_to_string (tableIndex + 1) else tb_name table)
                   +:+ dquote +:+ " 请至少添加一列"]
    | columns => (for_each_indexed (check_column (tb_name table)) 0 columns (errors, [])).1
    end in
  (errors, tableNames).

Definition validateTemplate (template : Template) : ValidationResult :=
  let errors := [] in
  let errors :=
    if is_blank_value (t_name template) then errors ++ ["模板名称不能为空"] else errors in
  let errors :=
    match t_wordFile template with
    | Some wf =>
        if String.eqb (wf_data wf) EmptyString then errors ++ ["请上传 Word 模板文件"]
        else errors
    | None => errors ++ ["请上传 Word 模板文件"]
    end in
  let hasFields := negb (bool_decide (t_fields template = [])) in
  let errors :=
    if hasFields then (for_each_indexed check_field 0 (t_fields template) (errors, [])).1
    else errors in
  let tables := default [] (t_detailTables template) in
  let hasDetailTables := negb (bool_decide (tables = [])) in
  let errors :=
    if hasDetailTables then
      let errors :=
        if bool_decide (3 < length tables) then errors ++ ["明细表最多只能添加 3 张"]
        else errors in
      (for_each_indexed check_table 0 tables (errors, [])).1
    else errors in
  let errors :=
    if negb hasFields && negb hasDetailTables then errors ++ ["请至少添加一个字段或明细表"]
    else errors in
  mkValidationResult (bool_decide (errors = [])) errors.

End ValidateJs.

(** What a template that passes the validation is like. *)
Module ValidateSpec.
Import ValidateJs.

Definition field_ok (f : Field) : Prop :=
  is_identifier (f_key f) = true ∧ is_blank (f_label f) = false.

Definition column_ok (c : Column) : Prop :=
  is_blank (c_key c) = false ∧ is_blank (c_label c) = false.

Definition table_ok (table : Table) : Prop :=
  is_identifier (tb_name table) = true
  ∧ tb_columns table ≠ []
  ∧ Forall column_ok (tb_columns table)
  ∧ NoDup (c_key <$> tb_columns table).

Definition well_formed (t : Template) : Prop :=
  is_blank_value (t_name t) = false
  ∧ (∃ wf, t_wordFile t = Some wf ∧ wf_data wf ≠ EmptyString)
  ∧ Forall field_ok (t_fields t)
  ∧ NoDup (f_key <$> t_fields t)
  ∧ length (default [] (t_detailTables t)) ≤ 3
  ∧ Forall table_ok (default [] (t_detailTables t))
  ∧ NoDup (tb_name <$> default [] (t_detailTables t))
  ∧ (t_fields t ≠ [] ∨ default [] (t_detailTables t) ≠ []).

End ValidateSpec.

(** ** Shape of the extracted placeholders *)

Module PlaceholderSpec.

Definition is_brace (c : ascii) : bool := Ascii.eqb c "{"%char || Ascii.eqb c "}"%char.

(** The text contains an opening or a closing brace. *)
Fixpoint has_brace (s : string) : bool :=
  match s with
  | EmptyString => false
  | String c s' => is_brace c || has_brace s'
  end.

(** A tag that the extraction keeps: trimmed, and not a loop marker. *)
Definition kept_tag (tag : string) : Prop :=
  has_brace tag = false ∧ trim tag = tag
  ∧ starts_with_char "#"%char tag = false ∧ starts_with_char "/"%char tag = false.

End PlaceholderSpec.

(** ** The object stores as the database keeps them *)

Module StoreSpec.



(** The records of the store that belong to a template. *)
Definition of_template (tid : string) (r : Rec) : Prop := r_templateId r = JStr tid.

#[global] Instance of_template_dec (tid : string) (r : Rec) : Decision (of_template tid r).
Proof. unfold of_template. apply _. Defined.

End StoreSpec.

(** ** Queries of the adapter ([js/storage-adapter.js]) *)

Module QueriesJs.
Section WithHost.
Context `{BrowserHost}.

(** [a < b] on two dates: false when either is invalid. *)
Definition date_lt (a b : option Z) : bool :=
  match a, b with
  | Some x, Some y => bool_decide (x < y)%Z
  | _, _ => false
  end.

(** The callback of [records.filter] in [getRecordsByDateRange]: [start]
    and [end] are [null] or a date, which may be invalid. *)
Definition in_date_range (startDate endDate : jstr) (record : Rec) : bool :=
  let recordDate := date_value (r_createdAt record) in
  let start := if truthy startDate then Some (date_value startDate) else None in
  let end_ :=
    if truthy endDate then Some (Date_parse (to_string endDate +:+ "T23:59:59")) else None in
  if match start with Some s => date_lt recordDate s | None => false end then false
  else if match end_ with Some e => date_lt e recordDate | None => false end then false
  else true.

Definition getRecordsByDateRange (templateId startDate endDate : jstr) : M (list Rec) :=
  records ← (if truthy templateId then StorageAdapterJs.getRecordsByTemplateId templateId
             else StorageAdapterJs.getAllRecords);
  mret (List.filter (in_date_range startDate endDate) records).


End WithHost.
End QueriesJs.

(** ** Template statistics ([getTemplateStats] of [js/template.js]) *)

(** [Date.prototype.toISOString] on a valid time value. *)
Class IsoHost : Type := {
  Date_toISOString : Z -> string
}.

Record TemplateStats : Type := mkTemplateStats {
  recordCount : nat;
  lastUsedAt : jstr
}.

Module StatsJs.
Section WithHost.
Context `{BrowserHost} `{IsoHost}.

(** The callback of [records.reduce]: [latest] is [null] ([None]) or a
    date, which may be invalid; [!latest || recordDate > latest]. *)
Definition later_of (latest : option (option Z)) (record : Rec) : option (option Z) :=
  let recordDate := date_value (r_updatedAt record) in
  match latest with
  | None => Some recordDate
  | Some l => if QueriesJs.date_lt l recordDate then Some recordDate else Some l
  end.

(** [toISOString] throws a [RangeError] on an invalid date. *)
Definition RangeError : JsError := mkJsError "RangeError" "Invalid time value".

Definition getTemplateStats (templateId : jstr) : M TemplateStats :=
  records ← StorageAdapterJs.getRecordsByTemplateId templateId;
  let lastUsedAt :=
    if bool_decide (0 < length records) then foldl later_of None records else None in
  match lastUsedAt with
  | None => mret (mkTemplateStats (length records) JNull)
  | Some (Some z) => mret (mkTemplateStats (length records) (JStr (Date_toISOString z)))
  | Some None => throw RangeError
  end.

End WithHost.
End StatsJs.

Module QueriesSpec.
Section WithHost.
Context `{BrowserHost}.






End WithHost.
End QueriesSpec.

Module MoreSamples.
Import Samples.

(** An ISO text for the sample browser, where a date text is worth its
    length. *)
Definition sample_iso : IsoHost := {| Date_toISOString z := letters "t" (Z.to_nat z) |}.

End MoreSamples.

(** ** Date formatting ([formatDate] of [js/word.js]) *)

(** The fields that [formatDate] reads from a [Date] in local time:
    [getFullYear()], [getMonth()] (from 0), [getDate()], [getHours()],
    [getMinutes()], [getSeconds()]; on an invalid date each of them is
    NaN. *)
Inductive DateParts : Type :=
| ValidDate (year : Z) (month day hours minutes seconds : nat)
| InvalidDate.

Module FormatJs.

(** [String(z)] for an integer. *)
Definition Z_to_string (z : Z) : string :=
  if bool_decide (z < 0)%Z then "-" +:+ nat_to_string (Z.abs_nat z)
  else nat_to_string (Z.to_nat z).

(** [s.padStart(2, '0')]. *)
Definition padStart2 (s : string) : string :=
  match String.length s with
  | 0 => "00"
  | 1 => "0" +:+ s
  | _ => s
  end.

(** [s] without the prefix [p], when it has it. *)
Fixpoint strip_prefix (p s : string) : option string :=
  match p, s with
  | EmptyString, _ => Some s
  | String a p', String b s' => if Ascii.eqb a b then strip_prefix p' s' else None
  | String _ _, EmptyString => None
  end.

(** [s.replace(p, r)] for a pattern text [p]: the first occurrence of [p]
    is replaced.  (The replacement texts of [formatDate] hold no [$].) *)
Fixpoint replace_first (p r s : string) : string :=
  match strip_prefix p s with
  | Some rest => r +:+ rest
  | None =>
      match s with
      | String c s' => String c (replace_first p r s')
      | EmptyString => EmptyString
      end
  end.

(** The six replacement texts. *)
Definition year_text (date : DateParts) : string :=
  match date with ValidDate y _ _ _ _ _ => Z_to_string y | InvalidDate => "NaN" end.

Definition month_text (date : DateParts) : string :=
  match date with
  | ValidDate _ m _ _ _ _ => padStart2 (nat_to_string (m + 1))
  | InvalidDate => padStart2 "NaN"
  end.

Definition day_text (date : DateParts) : string :=
  match date with
  | ValidDate _ _ d _ _ _ => padStart2 (nat_to_string d)
  | InvalidDate => padStart2 "NaN"
  end.

Definition hours_text (date : DateParts) : string :=
  match date with
  | ValidDate _ _ _ h _ _ => padStart2 (nat_to_string h)
  | InvalidDate => padStart2 "NaN"
  end.

Definition minutes_text (date : DateParts) : string :=
  match date with
  | ValidDate _ _ _ _ m _ => padStart2 (nat_to_string m)
  | InvalidDate => padStart2 "NaN"
  end.

Definition seconds_text (date : DateParts) : string :=
  match date with
  | ValidDate _ _ _ _ _ s => padStart2 (nat_to_string s)
  | InvalidDate => padStart2 "NaN"
  end.

(** [formatDate(date, format)]; the default of [format] is
    ['YYYY-MM-DD']. *)
Definition formatDate (date : DateParts) (format : string) : string :=
  replace_first "ss" (seconds_text date)
    (replace_first "mm" (minutes_text date)
       (replace_first "HH" (hours_text date)
          (replace_first "DD" (day_text date)
             (replace_first "MM" (month_text date)
                (replace_first "YYYY" (year_text date) format))))).

End FormatJs.

Module FormatSpec.

Definition is_digit (c : ascii) : bool :=
  let n := nat_of_ascii c in Nat.leb 48 n && Nat.leb n 57.

Fixpoint all_digits (s : string) : bool :=
  match s with
  | EmptyString => true
  | String c s' => is_digit c && all_digits s'
  end.

(** A date of the calendar and the clock. *)
Definition in_calendar (date : DateParts) : Prop :=
  match date with
  | ValidDate y m d h mi s =>
      (0 ≤ y ≤ 9999)%Z ∧ m < 12 ∧ 1 ≤ d ≤ 31 ∧ h < 24 ∧ mi < 60 ∧ s < 60
  | InvalidDate => False
  end.

End FormatSpec.

Module FormatAvoid.

(** The character [c] does not occur in [s]. *)
Fixpoint avoids (c : ascii) (s : string) : bool :=
  match s with
  | EmptyString => true
  | String x s' => negb (Ascii.eqb c x) && avoids c s'
  end.

(** The first characters of the six tokens. *)
Definition token_head (c : ascii) : Prop :=
  c = "Y"%char ∨ c = "M"%char ∨ c = "D"%char ∨ c = "H"%char ∨ c = "m"%char ∨ c = "s"%char.

End FormatAvoid.

(** ** Validation of an uploaded document ([validateWordTemplate] of
       [js/word.js]) *)

(** The errors thrown by the document library and by [atob], as far as the
    sources read them: [error.message], and [error.properties.errors] with,
    for each entry, [properties] ([id], [xtag], [offset], [openingtag],
    [closingtag]) and [message]. *)
Record TagErrorProps : Type := mkTagErrorProps {
  ep_id : jstr;
  ep_xtag : jstr;
  ep_offset : option nat;
  ep_openingtag : jstr;
  ep_closingtag : jstr
}.

Record TagError : Type := mkTagError {
  te_properties : option TagErrorProps;
  te_message : jstr
}.

Record LibError : Type := mkLibError {
  le_message : jstr;
  le_errors : option (list TagError)
}.

(** What is thrown when [atob] rejects its argument and when the document
    library fails on the decoded bytes. *)
Class DocxErrorHost : Type := {
  atob_error : string -> LibError;
  docx_error : string -> LibError
}.

Record WordValidation : Type := mkWordValidation {
  wv_valid : bool;
  wv_error : option string;
  wv_placeholders : option (list string);
  wv_errors : option (list string)
}.

Module WordCheckJs.
Section WithHost.
Context `{DocxHost} `{DocxErrorHost}.

(** [s.includes(',')]. *)
Fixpoint has_comma (s : string) : bool :=
  match s with
  | EmptyString => false
  | String c s' => Ascii.eqb c ","%char || has_comma s'
  end.

(** The text that [base64ToArrayBuffer] hands to [atob]. *)
Definition base64_of (base64 : string) : string :=
  if has_comma base64 then TemplateJs.base64_part base64 else base64.

(** [`${props.offset}`] and the test [if (props.offset)]. *)
Definition offset_text (offset : option nat) : string :=
  match offset with
  | Some n => nat_to_string n
  | None => "undefined"
  end.

Definition offset_truthy (offset : option nat) : bool :=
  match offset with
  | Some (S _) => true
  | _ => false
  end.

(** The callback of [error.properties.errors.map]. *)
Definition describe_error (e : TagError) : string :=
  let errorMsg :=
    match te_properties e with
    | Some props =>
        let xtag := to_string (ep_xtag props) in
        let offset := offset_text (ep_offset props) in
        if bool_decide (ep_id props = JStr "unopened_tag") then
          "未开始的结束标签: " +:+ dquote +:+ "{" +:+ xtag +:+ "}" +:+ dquote
          +:+ " (位置: " +:+ offset +:+ ")"
        else if bool_decide (ep_id props = JStr "unopened_loop") then
          "循环未开始: 找到结束标签 " +:+ dquote +:+ "{/" +:+ xtag +:+ "}" +:+ dquote
          +:+ " 但缺少开始标签 " +:+ dquote +:+ "{#" +:+ xtag +:+ "}" +:+ dquote
          +:+ " (位置: " +:+ offset +:+ ")"
        else if bool_decide (ep_id props = JStr "unclosed_tag") then
          "未闭合的开始标签: " +:+ dquote +:+ "{" +:+ xtag +:+ "}" +:+ dquote
          +:+ " (位置: " +:+ offset +:+ ")"
        else if bool_decide (ep_id props = JStr "unclosed_loop") then
          "循环未闭合: 找到开始标签 " +:+ dquote +:+ "{#" +:+ xtag +:+ "}" +:+ dquote
          +:+ " 但缺少结束标签 " +:+ dquote +:+ "{/" +:+ xtag +:+ "}" +:+ dquote
          +:+ " (位置: " +:+ offset +:+ ")"
        else if bool_decide (ep_id props = JStr "closing_tag_does_not_match_opening_tag") then
          "开始标签和结束标签不匹配: 开始 " +:+ dquote +:+ "{#"
          +:+ to_string (ep_openingtag props) +:+ dquote +:+ ", 结束 " +:+ dquote +:+ "{/"
          +:+ to_string (ep_closingtag props) +:+ "}" +:+ dquote
        else if bool_decide (ep_id props = JStr "raw_xml_tag_should_be_only_text_in_paragraph")
        then "原始 XML 标签必须单独在一个段落中"
        else if truthy (ep_id props) then
          let errorMsg := "错误类型: " +:+ to_string (ep_id props) in
          let errorMsg :=
            if truthy (ep_xtag props)
            then errorMsg +:+ ", 标签: " +:+ dquote +:+ xtag +:+ dquote
            else errorMsg in
          if offset_truthy (ep_offset props) then errorMsg +:+ ", 位置: " +:+ offset
          else errorMsg
        else EmptyString
    | None => EmptyString
    end in
  if String.eqb errorMsg EmptyString then to_string (or_else (te_message e) (JStr "未知错误"))
  else errorMsg.

(** The [catch] branch of [validateWordTemplate]. *)
Definition report_failure (error : LibError) : WordValidation :=
  match le_errors error with
  | Some errors =>
      let detailedErrors := map describe_error errors in
      mkWordValidation false
        (Some ("Word 模板有 " +:+ nat_to_string (length detailedErrors) +:+ " 个错误"))
        None (Some detailedErrors)
  | None =>
      mkWordValidation false
        (Some (to_string (or_else (le_message error) (JStr "无法解析 Word 文件"))))
        None None
  end.

Definition validateWordTemplate (base64Data : string) : WordValidation :=
  match atob (base64_of base64Data) with
  | Some bytes =>
      match docx_getFullText bytes with
      | Some fullText =>
          mkWordValidation true None (Some (TemplateJs.placeholders_of_text fullText)) None
      | None => report_failure (docx_error bytes)
      end
  | None => report_failure (atob_error (base64_of base64Data))
  end.

(** [result.valid && result.placeholders], then [Array.from]. *)
Definition getWordPlaceholders (base64Data : string) : list string :=
  let result := validateWordTemplate base64Data in
  if wv_valid result then default [] (wv_placeholders result) else [].

End WithHost.
End WordCheckJs.

Module WordCheckSpec.
Section WithHost.
Context `{DocxHost} `{DocxErrorHost}.

(** What is thrown inside [validateWordTemplate]: nothing when the payload
    decodes and the library reads the document, else the error of [atob]
    or of the library. *)
Definition failure_of (base64Data : string) : option LibError :=
  match atob (WordCheckJs.base64_of base64Data) with
  | Some bytes =>
      match docx_getFullText bytes with
      | Some _ => None
      | None => Some (docx_error bytes)
      end
  | None => Some (atob_error (WordCheckJs.base64_of base64Data))
  end.

End WithHost.
End WordCheckSpec.

Module WordCheckSamples.

(** The library reports one loop that is closed but never opened. *)
Definition loop_errors : DocxErrorHost :=
  {| atob_error := λ _, mkLibError (JStr "The string to be decoded is not correctly encoded.") None;
     docx_error := λ _,
       mkLibError (JStr "Multi error")
         (Some [mkTagError
                  (Some (mkTagErrorProps (JStr "unopened_loop") (JStr "rows") (Some 12)
                           JUndefined JUndefined))
                  (JStr "Unopened loop")]) |}.

End WordCheckSamples.

(** ** Pack export ([js/export.js]) *)

(** The local-time fields of the [n]-th reading of the clock, and of
    [new Date(text)]. *)
Class LocalTimeHost : Type := {
  now_parts : nat -> DateParts;
  parts_of_text : string -> DateParts
}.

(** The file handed to [downloadFile]: its name and, of its JSON content,
    the properties [version] and [exportedAt] and the rest as the import
    functions read it. *)
Record Download (A : Type) : Type := mkDownload {
  dl_fileName : string;
  dl_version : string;
  dl_exportedAt : string;
  dl_content : A
}.
Arguments mkDownload {A} _ _ _ _.
Arguments dl_fileName {A} _.
Arguments dl_version {A} _.
Arguments dl_exportedAt {A} _.
Arguments dl_content {A} _.

Module ExportPacksJs.
Section WithHost.
Context `{BrowserHost} `{LocalTimeHost}.

Definition PACK_VERSION : string := "1.0.0".

(** [Word.formatDate(new Date(), format)]: a reading of the clock. *)
Definition formatNow (format : string) : M string :=
  fun w => (Ok (FormatJs.formatDate (now_parts (ticks w)) format), set_ticks (S (ticks w)) w).






Definition exportFullBackup : M (Download Backup) :=
  templates ← StorageAdapterJs.getAllTemplates;
  records ← StorageAdapterJs.getAllRecords;
  exportedAt ← StorageJs.getTimestamp;
  stamp ← formatNow "YYYYMMDD_HHmmss";
  mret (mkDownload ("Word模板工具_完整备份_" +:+ stamp +:+ ".backup")
          PACK_VERSION exportedAt
          (mkBackup (JStr "full_backup") (Some templates) (Some records))).

End WithHost.
End ExportPacksJs.

Module ExportSpec.





End ExportSpec.

Module ExportSamples.

(** A clock whose [n]-th reading falls on the [n+1]-th of January 2024. *)
Definition sample_local : LocalTimeHost :=
  {| now_parts n := ValidDate 2024 0 (S n) 0 0 0;
     parts_of_text _ := InvalidDate |}.

End ExportSamples.

(** ** The record files of a workspace as the application writes them *)

Module FileLayoutSpec.






End FileLayoutSpec.

(** ** Saving from the template editor ([saveTemplate] of the application
       script) and duplicating a template ([js/template.js]) *)

Definition set_t_description (v : string) (t : Template) : Template :=
  mkTemplate (t_id t) (t_name t) v (t_titleFieldKey t) (t_wordFile t)
    (t_fields t) (t_detailTables t) (t_createdAt t) (t_updatedAt t).

Definition set_t_fields (v : list Field) (t : Template) : Template :=
  mkTemplate (t_id t) (t_name t) (t_description t) (t_titleFieldKey t) (t_wordFile t)
    v (t_detailTables t) (t_createdAt t) (t_updatedAt t).

Definition set_t_detailTables (v : option (list Table)) (t : Template) : Template :=
  mkTemplate (t_id t) (t_name t) (t_description t) (t_titleFieldKey t) (t_wordFile t)
    (t_fields t) v (t_createdAt t) (t_updatedAt t).

(** What the editor shows after [saveTemplate]: the dialog with the
    validation errors, the success toast (the saved template becomes the
    edited one), or the failure toast. *)
Inductive EditorOutcome : Type :=
| ValidationDialog (errors : list string)
| SavedToast (message : string) (saved : Template)
| FailureToast (message : string).

Module EditorJs.
Section WithHost.
Context `{BrowserHost}.

(** The template after the editor has collected its inputs: the two text
    inputs trimmed, and the fields and tables of the two managers when
    they exist. *)
Definition collect (editing : Template) (nameInput descInput : string)
    (fields : option (list Field)) (tables : option (list Table)) : Template :=
  let template := set_t_description (trim descInput) (set_t_name (JStr (trim nameInput)) editing) in
  let template :=
    match fields with Some fs => set_t_fields fs template | None => template end in
  match tables with Some ts => set_t_detailTables (Some ts) template | None => template end.

Definition saveTemplate_onSubmit (editing : Template) (nameInput descInput : string)
    (fields : option (list Field)) (tables : option (list Table)) : M EditorOutcome :=
  let template := collect editing nameInput descInput fields tables in
  let validation := ValidateJs.validateTemplate template in
  if negb (ValidateJs.vr_valid validation) then
    mret (ValidationDialog (ValidateJs.vr_errors validation))
  else
    try_catch
      (saved ← StorageAdapterJs.saveTemplate template;
       mret (SavedToast "模板保存成功" saved))
      (fun error => mret (FailureToast ("保存失败: " +:+ err_message error))).

End WithHost.
End EditorJs.

Module DuplicateJs.
Section WithHost.
Context `{BrowserHost}.




End WithHost.
End DuplicateJs.

Module DuplicateSpec.


End DuplicateSpec.

(** * Properties *)

(** ** Sets in insertion order *)

Section SetFacts.

Lemma elem_of_set_add (x y : string) (s : list string) :
  y ∈ set_add x s ↔ y = x ∨ y ∈ s.
Proof.
  unfold set_add. case_decide as Hx.
  - split; [auto | intros [-> | ?]; auto].
  - rewrite elem_of_app, list_elem_of_singleton. tauto.
Qed.

Lemma NoDup_set_add (x : string) (s : list string) :
  NoDup s → NoDup (set_add x s).
Proof.
  intros Hs. unfold set_add. case_decide as Hx; [done |].
  apply NoDup_app. split_and!; [done | | apply NoDup_singleton].
  intros y Hy Hy'. apply list_elem_of_singleton in Hy'. by subst.
Qed.

Lemma elem_of_foldl_set_add {A : Type} (g : A → string) (l : list A) (s : list string) (k : string) :
  k ∈ foldl (λ s x, set_add (g x) s) s l ↔ k ∈ s ∨ k ∈ g <$> l.
Proof.
  revert s. induction l as [| x l IH]; intros s; simpl.
  - rewrite elem_of_nil. tauto.
  - rewrite IH, elem_of_set_add, elem_of_cons. tauto.
Qed.

Lemma NoDup_foldl_set_add {A : Type} (g : A → string) (l : list A) (s : list string) :
  NoDup s → NoDup (foldl (λ s x, set_add (g x) s) s l).
Proof.
  revert s. induction l as [| x l IH]; intros s Hs; simpl; [done |].
  apply IH. by apply NoDup_set_add.
Qed.

Lemma set_has_true (x : string) (s : list string) : set_has x s = true ↔ x ∈ s.
Proof. unfold set_has. by rewrite bool_decide_eq_true. Qed.

Lemma set_has_false (x : string) (s : list string) : set_has x s = false ↔ x ∉ s.
Proof. unfold set_has. by rewrite bool_decide_eq_false. Qed.

End SetFacts.


(** ** Texts *)

Module StringFacts.

Lemma append_cons (c : ascii) (a b : string) : String c a +:+ b = String c (a +:+ b).
Proof. reflexivity. Qed.

Lemma append_empty_l (s : string) : EmptyString +:+ s = s.
Proof. reflexivity. Qed.

Lemma append_empty_r (s : string) : s +:+ EmptyString = s.
Proof. induction s as [| c s IH]; [done |]. by rewrite append_cons, IH. Qed.

Lemma append_assoc (a b c : string) : (a +:+ b) +:+ c = a +:+ (b +:+ c).
Proof. induction a as [| x a IH]; [done |]. by rewrite !append_cons, IH. Qed.

Lemma length_append (a b : string) :
  String.length (a +:+ b) = String.length a + String.length b.
Proof. induction a as [| c a IH]; [done |]. rewrite append_cons. simpl. by rewrite IH. Qed.

End StringFacts.

(** ** White space ([String.prototype.trim]) *)

Module TrimFacts.
Import StringFacts.

(** The white space at the start of a text, when there is some. *)
Lemma space_width_cases (s : string) :
  (space_width s = 0 ∧ trim_start s = s)
  ∨ ∃ p s', s = p +:+ s' ∧ p ≠ EmptyString ∧ trim_start s = trim_start s'
            ∧ (∀ q, trim_start (p +:+ q) = trim_start q).
Proof.
  destruct s as [| a s1]; [by left |].
  destruct (is_space a) eqn:Ha.
  { right. exists (String a EmptyString), s1. split_and!; [done | done | |].
    - cbn [trim_start space_width]. by rewrite Ha.
    - intros q. change (String a EmptyString +:+ q) with (String a q).
      cbn [trim_start space_width]. by rewrite Ha. }
  destruct s1 as [| b s2].
  { left. cbn [trim_start space_width]. by rewrite Ha. }
  destruct (is_space2 a b) eqn:Hab.
  { right. exists (String a (String b EmptyString)), s2. split_and!; [done | done | |].
    - cbn [trim_start space_width]. by rewrite Ha, Hab.
    - intros q. change (String a (String b EmptyString) +:+ q) with (String a (String b q)).
      cbn [trim_start space_width]. by rewrite Ha, Hab. }
  destruct s2 as [| c s3].
  { left. cbn [trim_start space_width]. by rewrite Ha, Hab. }
  destruct (is_space3 a b c) eqn:Habc.
  - right. exists (String a (String b (String c EmptyString))), s3.
    split_and!; [done | done | |].
    + cbn [trim_start space_width]. by rewrite Ha, Hab, Habc.
    + intros q.
      change (String a (String b (String c EmptyString)) +:+ q)
        with (String a (String b (String c q))).
      cbn [trim_start space_width]. by rewrite Ha, Hab, Habc.
  - left. cbn [trim_start space_width]. by rewrite Ha, Hab, Habc.
Qed.

Lemma trim_start_no_space (s : string) : space_width s = 0 → trim_start s = s.
Proof.
  intros Hw. destruct s as [| a [| b [| c s3]]]; cbn [trim_start]; by rewrite Hw.
Qed.

(** Induction on a text along the white space that [trim_start] drops. *)
Lemma trim_start_ind (P : string → Prop) :
  (∀ s, space_width s = 0 → trim_start s = s → P s) →
  (∀ p s', p ≠ EmptyString → trim_start (p +:+ s') = trim_start s' →
           (∀ q, trim_start (p +:+ q) = trim_start q) → P s' → P (p +:+ s')) →
  ∀ s, P s.
Proof.
  intros Hstop Hstep s.
  remember (String.length s) as n eqn:Hn. revert s Hn.
  induction (lt_wf n) as [n _ IH]. intros s ->.
  destruct (space_width_cases s) as [[Hw Hs] | (p & s' & -> & Hp & Hs & Hq)]; [by apply Hstop |].
  apply Hstep; [done | done | done |].
  apply (IH (String.length s')); [| done].
  rewrite length_append. destruct p; [done | cbn; lia].
Qed.

Lemma trim_start_fixed (s : string) : trim_start (trim_start s) = trim_start s.
Proof.
  induction s as [s Hw Hs | p s' Hp Hs Hq IH] using trim_start_ind.
  - by rewrite Hs.
  - by rewrite Hs.
Qed.

(** Dropping white space in front of white space and a text. *)
Lemma trim_start_blank (p q : string) :
  trim_start p = EmptyString → trim_start (p +:+ q) = trim_start q.
Proof.
  induction p as [s Hw Hs | p s' Hp Hs Hq' IH] using trim_start_ind.
  - intros Hb. rewrite Hs in Hb. by subst.
  - intros Hb. rewrite Hs in Hb.
    rewrite append_assoc, Hq'. by apply IH.
Qed.

(** [trim_end] splits a text into what it keeps and white space. *)
Lemma trim_end_split (s : string) :
  ∃ v, s = trim_end s +:+ v ∧ trim_start v = EmptyString.
Proof.
  induction s as [| a s1 IH]; [by exists EmptyString |].
  cbn [trim_end]. destruct (trim_start (String a s1)) as [| b t] eqn:Hb.
  - by exists (String a s1).
  - destruct IH as (v & Hv1 & Hv2). exists v. split; [| done].
    change (String a (trim_end s1) +:+ v) with (String a (trim_end s1 +:+ v)). by rewrite <- Hv1.
Qed.

Lemma trim_end_unfold (a : ascii) (s1 : string) :
  trim_end (String a s1)
  = match trim_start (String a s1) with
    | EmptyString => EmptyString
    | String _ _ => String a (trim_end s1)
    end.
Proof. cbn [trim_end]. by destruct (trim_start (String a s1)). Qed.

(** What [trim_start] leaves does not start with white space, also after
    white space has been taken from its end. *)
Lemma trim_start_keeps (s v : string) :
  trim_start v = EmptyString → trim_start (s +:+ v) = s +:+ v →
  s = EmptyString ∨ trim_start s = s.
Proof.
  intros Hv Hs.
  destruct (space_width_cases s) as [[_ Hfix] | (p & s' & -> & Hp & _ & Hq)]; [by right |].
  exfalso.
  rewrite append_assoc, Hq in Hs.
  assert (Hlen : String.length (trim_start (s' +:+ v)) ≤ String.length (s' +:+ v)).
  { generalize (s' +:+ v). intros s.
    induction s as [s Hw Hs' | p' s'' Hp' Hs' Hq' IH] using trim_start_ind.
    - by rewrite Hs'.
    - rewrite Hs', length_append. lia. }
  rewrite Hs, length_append in Hlen. destruct p; [done | cbn in Hlen; lia].
Qed.

Lemma trim_end_fixed (s : string) : trim_end (trim_end s) = trim_end s.
Proof.
  induction s as [| a s1 IH]; [done |].
  rewrite trim_end_unfold. destruct (trim_start (String a s1)) as [| b t] eqn:Hb; [done |].
  rewrite trim_end_unfold, IH.
  destruct (trim_start (String a (trim_end s1))) as [| b' t'] eqn:Hb'; [| done].
  exfalso. destruct (trim_end_split s1) as (v & Hv1 & Hv2).
  assert (Hall : trim_start (String a s1) = EmptyString).
  { rewrite Hv1 at 1. change (String a (trim_end s1 +:+ v)) with (String a (trim_end s1) +:+ v).
    rewrite trim_start_blank by done. done. }
  congruence.
Qed.

Lemma trim_idemp (s : string) : trim (trim s) = trim s.
Proof.
  unfold trim. set (t := trim_start s).
  assert (Ht : trim_start t = t) by apply trim_start_fixed.
  destruct (trim_end_split t) as (v & Hv1 & Hv2).
  destruct (trim_start_keeps (trim_end t) v Hv2) as [He | He].
  - by rewrite <- Hv1.
  - by rewrite He.
  - rewrite He. apply trim_end_fixed.
Qed.

(** The ideographic space U+3000 and the no-break space U+00A0 are
    stripped like the blank, a letter of two bytes is not. *)
Example trim_unicode_spaces :
  trim "　 a　b  　" = "a　b" ∧ trim " 　 " = EmptyString ∧ trim " é " = "é".
Proof. by vm_compute. Qed.

End TrimFacts.

(** ** Template consistency ([checkTemplateConsistency]) *)

Module ConsistencyFacts.
Import Spec Samples TemplateJs.

Example regex_groups_sample :
  regex_groups None "x{a} {#rows}{ b }{}{c{d}}{/rows}{e" = ["a"; "#rows"; " b "; "d"; "/rows"].
Proof. vm_compute. reflexivity. Qed.

Example placeholders_sample :
  placeholders_of_text "x{a} {#rows}{ b }{}{c{d}}{/rows}{e {a}" = ["a"; "b"; "d"].
Proof. vm_compute. reflexivity. Qed.

Lemma elem_of_table_keys (tables : list Table) (s : list string) (k : string) :
  k ∈ foldl (λ s table, foldl (λ s col, set_add (c_key col) s) s (tb_columns table)) s tables
  ↔ k ∈ s ∨ k ∈ concat ((λ table, c_key <$> tb_columns table) <$> tables).
Proof.
  revert s. induction tables as [| table tables IH]; intros s; simpl.
  - rewrite elem_of_nil. tauto.
  - rewrite IH, elem_of_foldl_set_add, elem_of_app. tauto.
Qed.

Lemma NoDup_table_keys (tables : list Table) (s : list string) :
  NoDup s →
  NoDup (foldl (λ s table, foldl (λ s col, set_add (c_key col) s) s (tb_columns table)) s tables).
Proof.
  revert s. induction tables as [| table tables IH]; intros s Hs; simpl; [done |].
  apply IH. by apply NoDup_foldl_set_add.
Qed.

Lemma elem_of_configKeys (template : Template) (k : string) :
  k ∈ configKeys template ↔ k ∈ spec_configured_keys template.
Proof.
  unfold configKeys, spec_configured_keys.
  destruct (t_detailTables template) as [tables |]; simpl.
  - rewrite elem_of_table_keys, elem_of_foldl_set_add, elem_of_app, elem_of_nil. tauto.
  - rewrite elem_of_foldl_set_add, elem_of_app. simpl.
    rewrite !elem_of_nil. tauto.
Qed.

Lemma NoDup_configKeys (template : Template) : NoDup (configKeys template).
Proof.
  unfold configKeys. destruct (t_detailTables template).
  - apply NoDup_table_keys, NoDup_foldl_set_add, NoDup_nil_2.
  - apply NoDup_foldl_set_add, NoDup_nil_2.
Qed.

Lemma NoDup_add_tag (s : list string) (g : string) : NoDup s → NoDup (add_tag s g).
Proof.
  intros Hs. unfold add_tag.
  destruct (negb _ && negb _); [by apply NoDup_set_add | done].
Qed.

Lemma NoDup_placeholders_of_text (tags : string) : NoDup (placeholders_of_text tags).
Proof.
  unfold placeholders_of_text.
  generalize (regex_groups None tags). intros groups.
  assert (Hnil : NoDup (@nil string)) by apply NoDup_nil_2.
  revert Hnil. generalize (@nil string).
  induction groups as [| g groups IH]; intros s Hs; simpl; [done |].
  apply IH. by apply NoDup_add_tag.
Qed.

Lemma filter_singleton_perm (P : string → Prop) `{!∀ x, Decision (P x)} (l : list string) (x y : string) :
  l ≡ₚ [x; y] → P x → ¬ P y → filter P l = [x].
Proof.
  intros Hl Hx Hy.
  apply Permutation_singleton_r.
  rewrite Hl. rewrite filter_cons_True by done. by rewrite filter_cons_False, filter_nil.
Qed.

Section WithHost.
Context `{DocxHost}.

(** The result when the payload decodes and the document library reads it. *)
Lemma checkTemplateConsistency_parsed (template : Template) (wf : WordFile) (bytes tags : string) :
  t_wordFile template = Some wf →
  wf_data wf ≠ EmptyString →
  atob (base64_part (wf_data wf)) = Some bytes →
  docx_getFullText bytes = Some tags →
  checkTemplateConsistency template =
    let placeholders := placeholders_of_text tags in
    let keys := configKeys template in
    let missW := filter (λ key, set_has key placeholders = false) keys in
    let missC := filter (λ p, set_has p keys = false) placeholders in
    mkConsistencyResult
      (filter (λ key, set_has key placeholders = true) keys) missW missC
      (bool_decide (length missW = 0%nat) && bool_decide (length missC = 0%nat)) None.
Proof.
  intros Hwf Hdata Hatob Htext. unfold checkTemplateConsistency.
  rewrite Hwf. apply String.eqb_neq in Hdata. rewrite Hdata, Hatob.
  unfold extractPlaceholdersFromWord. by rewrite Htext.
Qed.

(** C2. When the payload decodes but the document library fails on it
    (corrupt archive, malformed tags), [extractPlaceholdersFromWord]
    swallows the failure: [checkTemplateConsistency] reports no error and
    lists every configured key as missing in the document, exactly as for a
    readable document without placeholders. *)
Theorem checkTemplateConsistency_unreadable_document
    (template : Template) (wf : WordFile) (bytes : string) :
  t_wordFile template = Some wf →
  wf_data wf ≠ EmptyString →
  atob (base64_part (wf_data wf)) = Some bytes →
  docx_getFullText bytes = None →
  checkTemplateConsistency template =
    mkConsistencyResult [] (configKeys template) []
      (bool_decide (configKeys template = [])) None.
Proof.
  intros Hwf Hdata Hatob Htext. unfold checkTemplateConsistency.
  rewrite Hwf. apply String.eqb_neq in Hdata. rewrite Hdata, Hatob.
  unfold extractPlaceholdersFromWord. rewrite Htext.
  assert (Hnone : ∀ l : list string, filter (λ key, set_has key [] = true) l = []).
  { induction l as [| x l IH]; [done |].
    rewrite filter_cons_False; [done |]. unfold set_has.
    rewrite bool_decide_eq_true. apply not_elem_of_nil. }
  assert (Hall : ∀ l : list string, filter (λ key, set_has key [] = false) l = l).
  { induction l as [| x l IH]; [done |].
    rewrite filter_cons_True; [by rewrite IH |]. unfold set_has.
    rewrite bool_decide_eq_false. apply not_elem_of_nil. }
  rewrite Hnone, Hall, filter_nil. simpl. rewrite andb_true_r.
  f_equal. apply bool_decide_ext. apply length_zero_iff_nil.
Qed.

End WithHost.

(** [data.split(',')[1]] of a data URL is its payload, and [undefined] of a
    text without a comma. *)
Lemma split_on_no_comma (s : string) :
  WordCheckJs.has_comma s = false → split_on ","%char s = [s].
Proof.
  induction s as [| c s IH]; [done |]. cbn [WordCheckJs.has_comma split_on].
  intros [Hc Hs]%orb_false_iff. by rewrite Hc, (IH Hs).
Qed.

Lemma split_on_data_url (header payload : string) :
  WordCheckJs.has_comma header = false →
  split_on ","%char (header +:+ String ","%char payload)
  = header :: split_on ","%char payload.
Proof.
  induction header as [| c header IH].
  - intros _. rewrite StringFacts.append_empty_l. cbn [split_on].
    by change (Ascii.eqb "," ",") with true.
  - cbn [WordCheckJs.has_comma]. intros [Hc Hs]%orb_false_iff.
    rewrite StringFacts.append_cons. cbn [split_on]. by rewrite Hc, (IH Hs).
Qed.

Lemma base64_part_data_url (header payload : string) :
  WordCheckJs.has_comma header = false → WordCheckJs.has_comma payload = false →
  base64_part (header +:+ String ","%char payload) = payload.
Proof.
  intros Hh Hp. unfold base64_part.
  by rewrite (split_on_data_url _ _ Hh), (split_on_no_comma _ Hp).
Qed.

Lemma base64_part_no_comma (data : string) :
  WordCheckJs.has_comma data = false → base64_part data = "undefined".
Proof. intros Hd. unfold base64_part. by rewrite (split_on_no_comma _ Hd). Qed.

Section WithHosts.
Context `{DocxHost} `{DocxErrorHost}.

(** C1. Let the base64 text [payload] decode to a document whose text the
    document library reads.  When the template holds it as a data URL
    (header, comma, payload), [checkTemplateConsistency] reports no error
    and [matched] holds exactly the configured keys (field keys and column
    keys) that are extracted placeholders, [missingInWord] the configured
    keys that are not, [missingInConfig] the placeholders that are not
    configured, each without repetition, and [valid] is true iff both
    mismatch lists are empty; with configured keys {a,b} and placeholders
    {b,c} the result is [b], [a], [c] and [valid = false].  When the
    template holds the payload without the header, which
    [validateWordTemplate] accepts with the same placeholders,
    [checkTemplateConsistency] reconciles nothing: it returns the
    self-check-failed error with three empty lists. *)
Theorem checkTemplateConsistency_reconciles
    (template : Template) (wf : WordFile) (header payload bytes tags : string) :
  t_wordFile template = Some wf →
  payload ≠ EmptyString →
  WordCheckJs.has_comma header = false →
  WordCheckJs.has_comma payload = false →
  atob payload = Some bytes →
  docx_getFullText bytes = Some tags →
  let result := checkTemplateConsistency template in
  let placeholders := placeholders_of_text tags in
  (wf_data wf = header +:+ String ","%char payload →
   error result = None
   ∧ (∀ key, key ∈ matched result ↔ key ∈ spec_configured_keys template ∧ key ∈ placeholders)
   ∧ (∀ key, key ∈ missingInWord result
             ↔ key ∈ spec_configured_keys template ∧ key ∉ placeholders)
   ∧ (∀ p, p ∈ missingInConfig result ↔ p ∈ placeholders ∧ p ∉ spec_configured_keys template)
   ∧ NoDup (matched result) ∧ NoDup (missingInWord result) ∧ NoDup (missingInConfig result)
   ∧ (valid result = true ↔ missingInWord result = [] ∧ missingInConfig result = [])
   ∧ (∀ a b c, a ≠ b → b ≠ c → a ≠ c →
        configKeys template ≡ₚ [a; b] → placeholders ≡ₚ [b; c] →
        matched result = [b] ∧ missingInWord result = [a]
        ∧ missingInConfig result = [c] ∧ valid result = false))
  ∧ (wf_data wf = payload →
     WordCheckJs.validateWordTemplate payload
     = mkWordValidation true None (Some placeholders) None
     ∧ result = mkConsistencyResult [] [] [] false
                  (Some "模板自检失败，请检查 Word 文件格式是否正确")).
Proof.
  intros Hwf Hne Hheader Hpayload Hatob Htext result placeholders. split.
  - intros Hdata.
    assert (Hdata' : wf_data wf ≠ EmptyString).
    { rewrite Hdata. clear. by destruct header. }
    assert (Hatob' : atob (base64_part (wf_data wf)) = Some bytes).
    { by rewrite Hdata, base64_part_data_url. }
    subst result. rewrite (checkTemplateConsistency_parsed _ _ _ _ Hwf Hdata' Hatob' Htext).
    cbn zeta. fold placeholders. simpl.
    split_and!.
    + done.
    + intros key. rewrite list_elem_of_filter, set_has_true, elem_of_configKeys. tauto.
    + intros key. rewrite list_elem_of_filter, set_has_false, elem_of_configKeys. tauto.
    + intros p. rewrite list_elem_of_filter, set_has_false, elem_of_configKeys. tauto.
    + apply NoDup_filter, NoDup_configKeys.
    + apply NoDup_filter, NoDup_configKeys.
    + apply NoDup_filter, NoDup_placeholders_of_text.
    + rewrite andb_true_iff, !bool_decide_eq_true, !length_zero_iff_nil. tauto.
    + intros a b c Hab Hbc Hac Hkeys Hph.
      assert (Hm : filter (λ key, set_has key placeholders = true) (configKeys template) = [b]).
      { apply (filter_singleton_perm _ _ b a).
        - rewrite Hkeys. apply Permutation_swap.
        - apply set_has_true. rewrite Hph. (rewrite ?elem_of_cons, ?elem_of_nil; naive_solver).
        - rewrite set_has_true, Hph. (rewrite ?elem_of_cons, ?elem_of_nil; naive_solver). }
      assert (Hw : filter (λ key, set_has key placeholders = false) (configKeys template) = [a]).
      { apply (filter_singleton_perm _ _ a b); [done | |].
        - rewrite set_has_false, Hph. (rewrite ?elem_of_cons, ?elem_of_nil; naive_solver).
        - rewrite set_has_false, Hph. (rewrite ?elem_of_cons, ?elem_of_nil; naive_solver). }
      assert (Hc : filter (λ p, set_has p (configKeys template) = false) placeholders = [c]).
      { apply (filter_singleton_perm _ _ c b).
        - rewrite Hph. apply Permutation_swap.
        - rewrite set_has_false, Hkeys. (rewrite ?elem_of_cons, ?elem_of_nil; naive_solver).
        - rewrite set_has_false, Hkeys. (rewrite ?elem_of_cons, ?elem_of_nil; naive_solver). }
      rewrite Hm, Hw, Hc. done.
  - intros Hdata. split.
    + unfold WordCheckJs.validateWordTemplate, WordCheckJs.base64_of.
      by rewrite Hpayload, Hatob, Htext.
    + subst result. unfold checkTemplateConsistency. rewrite Hwf, Hdata.
      apply String.eqb_neq in Hne. rewrite Hne.
      by rewrite (base64_part_no_comma _ Hpayload), atob_undefined.
Qed.

End WithHosts.

Lemma checkTemplateConsistency_reconciles_witness :
  WordCheckJs.getWordPlaceholders (H := plain_host) (H0 := WordCheckSamples.loop_errors)
    "{b} and {c}" = ["b"; "c"]
  ∧ @checkTemplateConsistency plain_host bare_template
    = mkConsistencyResult [] [] [] false (Some "模板自检失败，请检查 Word 文件格式是否正确").
Proof.
  destruct (@checkTemplateConsistency_reconciles plain_host WordCheckSamples.loop_errors
              bare_template (mkWordFile "invoice.docx" "{b} and {c}")
              "data:application/octet-stream;base64" "{b} and {c}" "{b} and {c}" "{b} and {c}"
              eq_refl ltac:(discriminate) eq_refl eq_refl eq_refl eq_refl)
    as [_ Hbare].
  destruct (Hbare eq_refl) as [Haccepts Hfails]. split; [| exact Hfails].
  unfold WordCheckJs.getWordPlaceholders. rewrite Haccepts. vm_compute. reflexivity.
Defined.

(** The data URL of the same document is reconciled. *)
Example checkTemplateConsistency_data_url :
  let result := @checkTemplateConsistency plain_host sample_template in
  matched result = ["b"] ∧ missingInWord result = ["a"]
  ∧ missingInConfig result = ["c"] ∧ valid result = false ∧ error result = None.
Proof. vm_compute. by repeat split. Qed.

Lemma checkTemplateConsistency_unreadable_document_witness :
  @checkTemplateConsistency failing_host sample_template
  = mkConsistencyResult [] ["a"; "b"] [] false None.
Proof.
  rewrite (@checkTemplateConsistency_unreadable_document failing_host sample_template
             (mkWordFile "invoice.docx" "data:application/octet-stream;base64,{b} and {c}")
             "{b} and {c}" eq_refl ltac:(discriminate) eq_refl eq_refl).
  vm_compute. reflexivity.
Defined.

End ConsistencyFacts.

(** ** Document data preparation ([prepareDataForWord]) *)

Module PrepareFacts.
Import Spec Samples WordJs.

Lemma filled_idemp (v : option wordval) : filled (Some (filled v)) = filled v.
Proof. by destruct v as [[[] |] |]. Qed.

Lemma plain_not_proto (name : string) :
  plain_name name → String.eqb name "__proto__" = false.
Proof.
  unfold plain_name, object_prototype_has, object_prototype_members. cbn [existsb].
  rewrite !orb_false_iff. tauto.
Qed.

Lemma row_get_plain (row : gmap string scalar) (key : string) :
  plain_name key → blank_if_empty (row_get row key) = CScalar (filled_value (row !! key)).
Proof.
  unfold row_get. intros ->. destruct (row !! key) as [[| | [| c s] | n] |]; done.
Qed.

Lemma row_set_plain (processedRow : gmap string cell) (key : string) (value : cell) :
  plain_name key → row_set processedRow key value = <[key := value]> processedRow.
Proof. intros Hkey. unfold row_set. by rewrite (plain_not_proto _ Hkey). Qed.

Lemma process_row_lookup (columns : list Column) (row : gmap string scalar) (key : string) :
  Forall (λ col, plain_name (c_key col)) columns →
  key ∈ c_key <$> columns →
  process_row columns row !! key = Some (CScalar (filled_value (row !! key))).
Proof.
  unfold process_row. generalize (∅ : gmap string cell).
  induction columns as [| col columns IH] using rev_ind; intros acc Hplain Hin.
  - by apply elem_of_nil in Hin.
  - apply Forall_app in Hplain as [Hplain [Hcol _]%Forall_cons].
    rewrite foldl_app. cbn [foldl]. rewrite (row_set_plain _ _ _ Hcol).
    destruct (decide (c_key col = key)) as [<- | Hne].
    + by rewrite lookup_insert_eq, (row_get_plain _ _ Hcol).
    + rewrite lookup_insert_ne by done. apply IH; [done |].
      rewrite fmap_app, elem_of_app in Hin. destruct Hin as [Hin | Hin]; [done |].
      cbn in Hin. apply list_elem_of_singleton in Hin. congruence.
Qed.

Lemma last_table_cons_later (name : string) (table : Table) (tables : list Table) (t : Table) :
  last_table name tables = Some t → last_table name (table :: tables) = Some t.
Proof. simpl. by intros ->. Qed.

Lemma last_table_cons_none (name : string) (table : Table) (tables : list Table) :
  last_table name tables = None →
  last_table name (table :: tables) = (if decide (tb_name table = name) then Some table else None).
Proof. simpl. by intros ->. Qed.

Lemma last_table_none (name : string) (tables : list Table) :
  last_table name tables = None ↔ name ∉ tb_name <$> tables.
Proof.
  induction tables as [| table tables IH]; simpl.
  - split; [intros _; apply not_elem_of_nil | done].
  - rewrite not_elem_of_cons, <- IH.
    destruct (last_table name tables); [naive_solver |].
    case_decide; naive_solver.
Qed.

Lemma last_table_elem (name : string) (tables : list Table) (table : Table) :
  last_table name tables = Some table → table ∈ tables ∧ tb_name table = name.
Proof.
  induction tables as [| t tables IH]; [done |]. simpl.
  destruct (last_table name tables) as [later |].
  - intros [= ->]. destruct IH as [Hin Hname]; [done |]. split; [by right | done].
  - case_decide; [| done]. intros [= ->]. split; [by left | done].
Qed.

(** The own properties of [data] after [data[tableName] = rows]. *)
Lemma data_set_rows_own (data : WordData) (name : string) (rows : list (gmap string cell))
    (key : string) :
  (is_Some (wd_own data !! key) → is_Some (wd_own (data_set_rows data name rows) !! key))
  ∧ (key ≠ name → wd_own (data_set_rows data name rows) !! key = wd_own data !! key).
Proof.
  unfold data_set_rows. destruct (_ && _); cbn [wd_own]; [done |]. split.
  - intros Hkey. destruct (decide (name = key)) as [-> | Hne].
    + rewrite lookup_insert_eq. eauto.
    + by rewrite lookup_insert_ne.
  - intros Hne. by rewrite lookup_insert_ne.
Qed.

Lemma data_set_rows_plain (data : WordData) (name : string) (rows : list (gmap string cell)) :
  plain_name name →
  data_set_rows data name rows
  = mkWordData (<[name := WRows rows]> (wd_own data)) (wd_proto data).
Proof. intros Hname. unfold data_set_rows. by rewrite (plain_not_proto _ Hname). Qed.

(** The loop over the tables returns when every read of the table data
    gives rows, and then only. *)
Lemma put_tables_returns (td : gmap string (list (gmap string scalar)))
    (tables : list Table) (data : WordData) :
  (∃ data', put_tables td tables data = Ok data')
  ↔ Forall (rows_readable (Some td)) (tb_name <$> tables).
Proof.
  revert data. induction tables as [| table tables IH]; intros data.
  - split; [constructor | eauto].
  - rewrite fmap_cons, Forall_cons. cbn [put_tables]. unfold put_table, table_rows.
    cbn [rows_readable]. unfold plain_name.
    destruct (td !! tb_name table) as [rows |] eqn:Hrows.
    + rewrite IH. split; [eauto | tauto].
    + destruct (object_prototype_has (tb_name table)).
      * split; [by intros [? ?] | intros [[[? ?] | ?] _]; done].
      * rewrite IH. split; [eauto | tauto].
Qed.

Lemma put_tables_own (td : gmap string (list (gmap string scalar)))
    (tables : list Table) (data data' : WordData) (key : string) :
  put_tables td tables data = Ok data' →
  (is_Some (wd_own data !! key) → is_Some (wd_own data' !! key))
  ∧ (key ∉ tb_name <$> tables → wd_own data' !! key = wd_own data !! key).
Proof.
  revert data. induction tables as [| table tables IH]; intros data Hrun.
  - cbn in Hrun. by injection Hrun as <-.
  - cbn [put_tables] in Hrun. unfold put_table in Hrun.
    destruct (table_rows td (tb_name table)) as [rows | e]; [| done].
    destruct (IH _ Hrun) as [Hsome Hother].
    destruct (data_set_rows_own data (tb_name table)
                (map (process_row (tb_columns table)) rows) key) as [Hsome1 Hother1].
    split; [auto |]. rewrite fmap_cons, not_elem_of_cons. intros [Hne Hkey].
    rewrite Hother by done. by apply Hother1.
Qed.

(** The loop over tables with plain names. *)
Lemma put_tables_plain (td : gmap string (list (gmap string scalar)))
    (tables : list Table) (data : WordData) :
  Forall (λ table, plain_name (tb_name table)) tables →
  ∃ data',
    put_tables td tables data = Ok data'
    ∧ wd_proto data' = wd_proto data
    ∧ ∀ name table, last_table name tables = Some table →
        wd_own data' !! name
        = Some (WRows (process_row (tb_columns table) <$> default [] (td !! name))).
Proof.
  revert data. induction tables as [| t tables IH]; intros data Hplain.
  - exists data. by split_and!.
  - apply Forall_cons in Hplain as [Hname Hplain].
    cbn [put_tables]. unfold put_table, table_rows.
    assert (Hrows : match td !! tb_name t with
                    | Some rows => Ok rows
                    | None => if object_prototype_has (tb_name t)
                              then Throw not_a_function else Ok []
                    end = Ok (default [] (td !! tb_name t))).
    { unfold plain_name in Hname. rewrite Hname. by destruct (td !! tb_name t). }
    rewrite Hrows, (data_set_rows_plain _ _ _ Hname).
    destruct (IH (mkWordData
                    (<[tb_name t := WRows (map (process_row (tb_columns t))
                                             (default [] (td !! tb_name t)))]> (wd_own data))
                    (wd_proto data)) Hplain) as (data' & Hrun & Hproto & Hlast).
    exists data'. split_and!; [done | done |].
    intros name table Hname'.
    destruct (last_table name tables) as [later |] eqn:Hrest.
    + rewrite (last_table_cons_later _ _ _ _ Hrest) in Hname'. simplify_eq.
      by apply Hlast.
    + rewrite (last_table_cons_none _ _ _ Hrest) in Hname'.
      case_decide as Hn; [| done]. simplify_eq.
      destruct (put_tables_own td tables _ data' (tb_name table) Hrun) as [_ Hother].
      rewrite Hother by by apply last_table_none.
      cbn [wd_own]. by rewrite lookup_insert_eq.
Qed.

Section WithRealm.
Context `{JsRealm}.

Lemma fill_field_own (data : WordData) (field : Field) (key : string) :
  wd_proto (fill_field data field) = wd_proto data
  ∧ (is_Some (wd_own data !! key) → is_Some (wd_own (fill_field data field) !! key))
  ∧ (key ≠ f_key field → wd_own (fill_field data field) !! key = wd_own data !! key).
Proof.
  unfold fill_field. destruct (reads_empty data (f_key field)); [| done].
  cbn [wd_own wd_proto]. split_and!; [done | |].
  - intros Hkey. destruct (decide (f_key field = key)) as [-> | Hne].
    + rewrite lookup_insert_eq. eauto.
    + by rewrite lookup_insert_ne.
  - intros Hne. by rewrite lookup_insert_ne.
Qed.

Lemma fill_fields_own (fields : list Field) (data : WordData) (key : string) :
  wd_proto (foldl fill_field data fields) = wd_proto data
  ∧ (is_Some (wd_own data !! key) → is_Some (wd_own (foldl fill_field data fields) !! key))
  ∧ (key ∉ f_key <$> fields → wd_own (foldl fill_field data fields) !! key = wd_own data !! key).
Proof.
  revert data. induction fields as [| field fields IH]; intros data; [done |].
  cbn [foldl]. destruct (IH (fill_field data field)) as (Hproto & Hsome & Hother).
  destruct (fill_field_own data field key) as (Hproto1 & Hsome1 & Hother1).
  split_and!; [congruence | auto |].
  rewrite fmap_cons, not_elem_of_cons. intros [Hne Hkey].
  rewrite Hother by done. by apply Hother1.
Qed.

Lemma fill_field_lookup (data : WordData) (field : Field) (key : string) :
  wd_proto data = None → plain_name (f_key field) →
  wd_own (fill_field data field) !! key
  = if decide (f_key field = key) then Some (filled (wd_own data !! key))
    else wd_own data !! key.
Proof.
  intros Hproto Hplain. unfold fill_field, reads_empty. rewrite Hproto.
  unfold plain_name in Hplain. rewrite Hplain. case_decide as Hk.
  - subst key. destruct (wd_own data !! f_key field) as [[[] |] |] eqn:E; cbn;
      rewrite ?lookup_insert_eq, ?E; done.
  - destruct (wd_own data !! f_key field) as [[[] |] |] eqn:E; cbn;
      rewrite ?lookup_insert_ne by done; done.
Qed.

Lemma fill_fields_lookup (fields : list Field) (data : WordData) (key : string) :
  wd_proto data = None → Forall (λ field, plain_name (f_key field)) fields →
  wd_own (foldl fill_field data fields) !! key
  = if decide (key ∈ f_key <$> fields) then Some (filled (wd_own data !! key))
    else wd_own data !! key.
Proof.
  revert data. induction fields as [| field fields IH]; intros data Hproto Hplain.
  - rewrite decide_False by (rewrite fmap_nil; apply not_elem_of_nil). done.
  - apply Forall_cons in Hplain as [Hfield Hplain].
    rewrite fmap_cons. cbn [foldl]. rewrite IH; [| | done].
    + rewrite (fill_field_lookup _ _ _ Hproto Hfield).
      repeat case_decide; subst; rewrite ?filled_idemp; try done;
        exfalso; rewrite elem_of_cons in *; naive_solver.
    + by destruct (fill_field_own data field key) as [-> _].
Qed.

(** C8. For a template whose field keys, table names and column keys are
    no names of members of [Object.prototype], [prepareDataForWord]
    returns an object with the usual prototype.  Every configured field
    key that is not also the name of a detail table bound to rows is mapped
    to its value, or to the empty string when the value is absent or null.
    Given table data, every configured detail-table name is mapped to an
    array with one row per input row (none when the name has no entry), and
    every row holds each column key of the table configured last under that
    name, with the empty string for an absent or null value.  With fields
    [{key:name}] and no data, [name] is the empty string. *)
Theorem prepareDataForWord_fills
    (fieldData : gmap string scalar)
    (tableData : option (gmap string (list (gmap string scalar))))
    (template : Template) :
  plain_names template →
  ∃ data,
    prepareDataForWord fieldData tableData template = Ok data
    ∧ wd_proto data = None
    ∧ (∀ field, field ∈ t_fields template →
         f_key field ∉ bound_table_names template tableData →
         field_filled fieldData data (f_key field))
    ∧ (∀ td tables name, tableData = Some td → t_detailTables template = Some tables →
         name ∈ tb_name <$> tables →
         ∃ table rows,
           last_table name tables = Some table
           ∧ wd_own data !! name = Some (WRows rows)
           ∧ length rows = length (default [] (td !! name))
           ∧ ∀ i row col, default [] (td !! name) !! i = Some row → col ∈ tb_columns table →
               ∃ out, rows !! i = Some out
                      ∧ out !! c_key col = Some (CScalar (filled_value (row !! c_key col))))
    ∧ prepareDataForWord ∅ tableData name_template
      = Ok (mkWordData {[ "name" := WScalar (SStr EmptyString) ]} None).
Proof.
  intros [Hfields Htables].
  set (start := mkWordData (WScalar <$> fieldData) None).
  assert (Hprepared : ∃ prepared,
    match t_detailTables template, tableData with
    | Some tables, Some td => put_tables td tables start
    | _, _ => Ok start
    end = Ok prepared
    ∧ wd_proto prepared = None
    ∧ (∀ key, key ∉ bound_table_names template tableData →
         wd_own prepared !! key = WScalar <$> fieldData !! key)
    ∧ (∀ td tables name table, tableData = Some td → t_detailTables template = Some tables →
         last_table name tables = Some table →
         wd_own prepared !! name
         = Some (WRows (process_row (tb_columns table) <$> default [] (td !! name))))).
  { unfold bound_table_names.
    destruct (t_detailTables template) as [tables |] eqn:Hdt, tableData as [td |];
      try (exists start; split_and!; [done | done | intros; apply lookup_fmap | done]).
    destruct (put_tables_plain td tables start) as (prepared & Hrun & Hproto & Hlast).
    { cbn in Htables. eapply Forall_impl; [exact Htables |]. by intros table [? _]. }
    exists prepared. split_and!; [done | done | |].
    - intros key Hkey.
      destruct (put_tables_own td tables start prepared key Hrun) as [_ Hother].
      rewrite Hother by done. apply lookup_fmap.
    - intros td' tables' name table [= <-] [= <-]. apply Hlast. }
  destruct Hprepared as (prepared & Hrun & Hproto & Hother & Hlast).
  exists (foldl fill_field prepared (t_fields template)).
  split_and!.
  - unfold prepareDataForWord. fold start. cbv zeta. by rewrite Hrun.
  - by destruct (fill_fields_own (t_fields template) prepared EmptyString) as [-> _].
  - intros field Hfield Hfree. unfold field_filled.
    rewrite (fill_fields_lookup _ _ _ Hproto Hfields).
    rewrite decide_True by (apply list_elem_of_fmap; eauto).
    rewrite (Hother _ Hfree).
    by destruct (fieldData !! f_key field) as [[] |].
  - intros td tables name Htd Hdt Hname.
    destruct (last_table name tables) as [table |] eqn:Hlast';
      [| by apply last_table_none in Hlast'].
    exists table, (process_row (tb_columns table) <$> default [] (td !! name)).
    split_and!; [done | | by rewrite length_fmap |].
    + rewrite (fill_fields_lookup _ _ _ Hproto Hfields), (Hlast _ _ _ _ Htd Hdt Hlast').
      by case_decide.
    + intros i row col Hrow Hcol. exists (process_row (tb_columns table) row).
      split; [by rewrite list_lookup_fmap, Hrow |].
      apply process_row_lookup; [| apply list_elem_of_fmap; eauto].
      rewrite Hdt in Htables. cbn in Htables. rewrite Forall_forall in Htables.
      apply last_table_elem in Hlast' as [Hin _]. by destruct (Htables _ Hin).
  - by destruct tableData.
Qed.

End WithRealm.

Lemma prepareDataForWord_fills_witness :
  ∃ data,
    @prepareDataForWord sample_realm ∅ (Some {["items" := [ {["sku" := SNum 1]} ]]})
      (mkTemplate JNull JNull EmptyString EmptyString None
         [mkField "name" "Name" "text" false]
         (Some [mkTable "items" [mkColumn "sku" "SKU" "text"]]) JNull JNull)
    = Ok data
    ∧ field_filled ∅ data "name".
Proof.
  destruct (@prepareDataForWord_fills sample_realm ∅
              (Some {["items" := [ {["sku" := SNum 1]} ]]})
              (mkTemplate JNull JNull EmptyString EmptyString None
                 [mkField "name" "Name" "text" false]
                 (Some [mkTable "items" [mkColumn "sku" "SKU" "text"]]) JNull JNull))
    as (data & Hrun & _ & Hfields & _).
  - split; repeat constructor.
  - exists data. split; [exact Hrun |].
    apply (Hfields (mkField "name" "Name" "text" false)).
    + apply list_elem_of_here.
    + intros Hin. apply list_elem_of_singleton in Hin. discriminate.
Defined.

(** On that template the field key is mapped to the rows of the table, not
    to the value of the field; without table data no table name is mapped
    at all; a table named as a member of [Object.prototype] that has no
    entry in the table data makes the function throw; a field key that
    names such a member is not filled in; and for a column key that names
    such a member the row holds the inherited member, or no property at
    all for [__proto__]. *)
Lemma prepareDataForWord_field_shadowed :
  (∃ data,
     @prepareDataForWord sample_realm {["items" := SStr "x"]}
       (Some {["items" := [ {["sku" := SNum 1]} ]]}) shadowing_template = Ok data
     ∧ ¬ field_filled {["items" := SStr "x"]} data "items")
  ∧ @prepareDataForWord sample_realm ∅ None (table_template "rows" ["a"])
    = Ok (mkWordData ∅ None)
  ∧ @prepareDataForWord sample_realm ∅ (Some ∅) (table_template "toString" ["a"])
    = Throw (mkJsError "TypeError" "rows.map is not a function")
  ∧ @prepareDataForWord sample_realm ∅ None (field_template "constructor")
    = Ok (mkWordData ∅ None)
  ∧ @prepareDataForWord sample_realm ∅ (Some {["rows" := [ ∅ ]]})
      (table_template "rows" ["constructor"; "__proto__"; "a"])
    = Ok (mkWordData
            {["rows" := WRows [ {["constructor" := CInherited "constructor";
                                  "a" := CScalar (SStr EmptyString)]} ]]} None).
Proof.
  split; [| split_and!].
  - eexists. split; [by vm_compute |]. unfold field_filled. vm_compute. discriminate.
  - by vm_compute.
  - by vm_compute.
  - by vm_compute.
  - by vm_compute.
Qed.

Example prepareDataForWord_missing_column :
  @prepareDataForWord sample_realm ∅ (Some {["rows" := [ {["a" := SNum 1]} ]]})
    (table_template "rows" ["a"; "b"])
  = Ok (mkWordData
          {["rows" := WRows [ {["a" := CScalar (SNum 1);
                                "b" := CScalar (SStr EmptyString)]} ]]} None).
Proof. by vm_compute. Qed.

(** When the table data has an own entry [__proto__] and the field data
    has none, the rows of a table of that name become the prototype of the
    result: the fields [length] and [map] are then not filled in, the
    field [name] is. *)
Example prepareDataForWord_proto_table :
  @prepareDataForWord sample_realm ∅ (Some {["__proto__" := [ {["a" := SNum 1]} ]]})
    (mkTemplate JNull JNull EmptyString EmptyString None
       [mkField "length" "L" "text" false; mkField "map" "M" "text" false;
        mkField "name" "N" "text" false]
       (Some [mkTable "__proto__" [mkColumn "a" "A" "text"]]) JNull JNull)
  = Ok (mkWordData {["name" := WScalar (SStr EmptyString)]}
          (Some [ {["a" := CScalar (SNum 1)]} ])).
Proof. by vm_compute. Qed.

End PrepareFacts.

(** ** Sorting ([Array.prototype.sort] with the date comparators) *)

Module SortFacts.
Import Spec.
Section WithHost.
Context `{BrowserHost}.
Context {A : Type} (key : A → jstr).

Lemma sort_insert_perm (cmp : A → A → option Z) (x : A) (l : list A) :
  sort_insert cmp x l ≡ₚ x :: l.
Proof.
  induction l as [| y l IH]; simpl; [done |].
  destruct (goes_first cmp x y); [done |].
  rewrite IH. apply Permutation_swap.
Qed.

Lemma js_sort_perm (cmp : A → A → option Z) (l : list A) : js_sort cmp l ≡ₚ l.
Proof.
  induction l as [| x l IH]; simpl; [done |].
  unfold js_sort in *. simpl. by rewrite sort_insert_perm, IH.
Qed.

Lemma elem_of_js_sort (cmp : A → A → option Z) (l : list A) (x : A) :
  x ∈ js_sort cmp l ↔ x ∈ l.
Proof. by rewrite js_sort_perm. Qed.

Lemma not_older_trans (a b c : A) : not_older key a b → not_older key b c → not_older key a c.
Proof.
  intros (x & y & Ha & Hb & Hxy) (y' & z & Hb' & Hc & Hyz).
  exists x, z. split_and!; [done | done |]. simplify_eq. lia.
Qed.

Lemma sort_insert_sorted (x : A) (l : list A) :
  is_Some (date_value (key x)) →
  Forall (λ a, is_Some (date_value (key a))) l →
  StronglySorted (not_older key) l →
  StronglySorted (not_older key) (sort_insert (newest_first key) x l).
Proof.
  intros [dx Hx] Hl Hsorted. induction Hsorted as [| y l Hs IH Hy]; simpl.
  - repeat constructor.
  - apply Forall_cons in Hl as [[dy Hdy] Hl].
    unfold goes_first, newest_first. rewrite Hx, Hdy.
    case_bool_decide as Hle.
    + assert (Hxy : not_older key x y) by (exists dx, dy; split_and!; [done | done | lia]).
      constructor; [by constructor |].
      constructor; [done |].
      eapply Forall_impl; [exact Hy |]. intros z Hz. by eapply not_older_trans.
    + constructor; [by apply IH |].
      rewrite sort_insert_perm. constructor; [| done].
      exists dy, dx. split_and!; [done | done | lia].
Qed.

Lemma js_sort_sorted (l : list A) :
  Forall (λ a, is_Some (date_value (key a))) l →
  StronglySorted (not_older key) (js_sort (newest_first key) l).
Proof.
  induction l as [| x l IH]; intros Hl; [constructor |].
  apply Forall_cons in Hl as [Hx Hl]. unfold js_sort in *. simpl.
  apply sort_insert_sorted; [done | | by apply IH].
  eapply Forall_forall. intros a Ha. fold (js_sort (newest_first key) l) in Ha.
  apply elem_of_js_sort in Ha. by eapply Forall_forall in Hl.
Qed.

End WithHost.
End SortFacts.

(** ** The transactional store ([js/storage.js]) *)

Module StorageFacts.
Import Spec StorageJs SortFacts.


Section WithHost.
Context `{BrowserHost}.

#[local] Instance by_key_total {A : Type} : Total (@by_key _ A).
Proof. intros e1 e2. apply key_le_total. Qed.

#[local] Instance by_key_trans {A : Type} : Transitive (@by_key _ A).
Proof. intros e1 e2 e3. apply key_le_trans. Qed.







(** The keys of the listed values ascend. *)
Lemma getAll_sorted {V : Type} (m : gmap string V) :
  StronglySorted by_key (merge_sort by_key (map_to_list m)).
Proof. apply StronglySorted_merge_sort; apply _. Qed.


End WithHost.



Example getRecordsByTemplateId_sample :
  (@getRecordsByTemplateId Samples.sample_host (JStr "t1") Samples.browser_world).1
  = Ok [Samples.record_of "r2" "t1" "tttt"; Samples.record_of "r1" "t1" "tt"].
Proof. vm_compute. reflexivity. Qed.

End StorageFacts.

(** ** The file store ([js/storage-file.js]) *)

Module FileStorageFacts.
Import Spec FileStorageJs.

Lemma getWorkspace_none (w : World) :
  workspaceHandle w = false → savedHandle w = false →
  getWorkspace w = (Throw (Error no_workspace_message), w).
Proof.
  intros Hh _. unfold getWorkspace, loadWorkspaceHandle. run_async.
  by rewrite Hh.
Qed.

Lemma getWorkspace_granted (w : World) :
  workspaceHandle w = true → getWorkspace w = (Ok tt, w).
Proof. intros Hh. unfold getWorkspace. run_async. by rewrite Hh. Qed.

Section WithHost.
Context `{BrowserHost}.

(** C9. Before a workspace has been granted (no handle in this session and
    none to reload), the two save operations fail with their own message
    followed by the no-workspace message; loading one template fails with
    the template-not-found message and the delete operations with their
    delete-failed messages; the two load-all operations return the empty
    list; none of them changes the state.  The unsupported-environment
    error is raised by the grant flow [selectWorkspace] when the browser
    lacks the capability. *)
Theorem file_store_without_workspace
    (w : World) (template : Template) (record : Rec) (id : jstr) :
  workspaceHandle w = false →
  savedHandle w = false →
  saveTemplateToFile template w
    = (Throw (Error ("保存模板失败: " +:+ no_workspace_message)), w)
  ∧ saveRecordToFile record w
    = (Throw (Error ("保存记录失败: " +:+ no_workspace_message)), w)
  ∧ loadTemplateFromFile id w = (Throw (Error "模板不存在"), w)
  ∧ deleteTemplateFile id w = (Throw (Error "删除模板失败"), w)
  ∧ deleteRecordFile record w = (Throw (Error "删除记录失败"), w)
  ∧ deleteRecordsByTemplateId id w = (Throw (Error "删除记录失败"), w)
  ∧ loadTemplatesFromFiles w = (Ok [], w)
  ∧ loadRecordsFromFiles id w = (Ok [], w)
  ∧ (supportsFileSystem w = false →
     selectWorkspace w = (Throw (Error unsupported_message), w)).
Proof.
  intros Hh Hs. pose proof (getWorkspace_none w Hh Hs) as Hws.
  split_and!.
  - unfold saveTemplateToFile. run_async. by rewrite Hws.
  - unfold saveRecordToFile. run_async. by rewrite Hws.
  - unfold loadTemplateFromFile. run_async. by rewrite Hws.
  - unfold deleteTemplateFile. run_async. by rewrite Hws.
  - unfold deleteRecordFile. run_async. by rewrite Hws.
  - unfold deleteRecordsByTemplateId. run_async. by rewrite Hws.
  - unfold loadTemplatesFromFiles. run_async. by rewrite Hws.
  - unfold loadRecordsFromFiles. run_async. by rewrite Hws.
  - intros Hsup. unfold selectWorkspace. run_async. by rewrite Hsup.
Qed.

End WithHost.

Lemma file_store_without_workspace_witness :
  let w := Samples.empty_world FileMode in
  @saveTemplateToFile (Samples.template_named "t1" "Invoice" "t") w
    = (Throw (Error ("保存模板失败: " +:+ no_workspace_message)), w)
  ∧ @saveRecordToFile (Samples.record_of "r1" "t1" "t") w
    = (Throw (Error ("保存记录失败: " +:+ no_workspace_message)), w)
  ∧ @loadTemplateFromFile (JStr "t1") w = (Throw (Error "模板不存在"), w)
  ∧ @deleteTemplateFile (JStr "t1") w = (Throw (Error "删除模板失败"), w)
  ∧ @deleteRecordFile (Samples.record_of "r1" "t1" "t") w = (Throw (Error "删除记录失败"), w)
  ∧ @deleteRecordsByTemplateId (JStr "t1") w = (Throw (Error "删除记录失败"), w)
  ∧ @loadTemplatesFromFiles Samples.sample_host w = (Ok [], w)
  ∧ @loadRecordsFromFiles (JStr "t1") w = (Ok [], w)
  ∧ (supportsFileSystem w = false →
     selectWorkspace w = (Throw (Error unsupported_message), w)).
Proof.
  exact (@file_store_without_workspace Samples.sample_host (Samples.empty_world FileMode)
           (Samples.template_named "t1" "Invoice" "t") (Samples.record_of "r1" "t1" "t")
           (JStr "t1") eq_refl eq_refl).
Defined.

(** Loading all templates before a workspace has been granted does not
    fail: it returns the empty list. *)
Lemma loadTemplatesFromFiles_without_workspace_succeeds :
  ¬ ∃ e w', @loadTemplatesFromFiles Samples.sample_host (Samples.empty_world FileMode)
            = (Throw e, w').
Proof. intros (e & w' & Hrun). vm_compute in Hrun. discriminate. Qed.

End FileStorageFacts.

(** ** The storage adapter ([js/storage-adapter.js]) *)

Module AdapterFacts.
Import Spec Samples FileStorageJs StorageAdapterJs FileStorageFacts.

Lemma truthy_JStr (s : string) : truthy (JStr s) = true ↔ s ≠ EmptyString.
Proof.
  simpl. rewrite negb_true_iff. split.
  - intros Hs. by apply String.eqb_neq.
  - intros Hs. by apply String.eqb_neq.
Qed.

Lemma truthy_is_JStr (v : jstr) : truthy v = true → ∃ s, v = JStr s ∧ s ≠ EmptyString.
Proof. destruct v as [| | s]; try done. intros Hs. exists s. by apply truthy_JStr in Hs. Qed.

Lemma ends_with_refl (s : string) : ends_with s s = true.
Proof. destruct s; cbn [ends_with]; by rewrite String.eqb_refl. Qed.

Lemma ends_with_app (suffix s : string) : ends_with suffix (s +:+ suffix) = true.
Proof.
  induction s as [| c s IH].
  - apply ends_with_refl.
  - change (String c s +:+ suffix) with (String c (s +:+ suffix)).
    cbn [ends_with]. rewrite IH. apply orb_true_r.
Qed.


Lemma elem_of_json_files {A : Type} (files : gmap string (option A)) (a : A) :
  a ∈ json_files files
  ↔ ∃ f, files !! f = Some (Some a) ∧ ends_with ".json" f = true.
Proof.
  unfold json_files. rewrite list_elem_of_omap. split.
  - intros ([f c] & Hin & Hf). apply elem_of_map_to_list in Hin. simpl in Hf.
    destruct (ends_with ".json" f) eqn:He; [| done]. subst c. eauto.
  - intros (f & Hf & He). exists (f, Some a). split; [by apply elem_of_map_to_list |].
    simpl. by rewrite He.
Qed.


Section WithHost.
Context `{BrowserHost}.














End WithHost.



End AdapterFacts.

(** ** Names of files and folders *)

Module DeleteFacts.
Import Spec Samples FileStorageJs StorageAdapterJs AppJs FileStorageFacts AdapterFacts.




Lemma filter_none {A : Type} (f : A → bool) (l : list A) :
  (∀ x, x ∈ l → f x = false) → List.filter f l = [].
Proof.
  induction l as [| x l IH]; intros Hl; [done |]. simpl.
  rewrite (Hl x) by apply list_elem_of_here. apply IH.
  intros y Hy. apply Hl. by apply list_elem_of_further.
Qed.

End DeleteFacts.

(** ** Pack import ([js/export.js]) on the transactional backend *)

Module ImportFacts.
Import Spec Samples StorageAdapterJs ExportJs ExportSpec FileStorageFacts AdapterFacts.



Section WithHost.
Context `{BrowserHost}.









(** *** Full backup *)








End WithHost.


Example importFullBackup_sample :
  let run := @importFullBackup Samples.sample_host (Parsed sample_backup)
               Samples.browser_world in
  run.1 = Ok (mkBackupImportResult 1 1)
  ∧ log run.2 = log Samples.browser_world ++ [IdbPutTemplate "t3"; IdbPutRecord "r9"]
  ∧ idb_templates run.2 !! "t1" = idb_templates Samples.browser_world !! "t1"
  ∧ (t_name <$> idb_templates run.2 !! "t3") = Some (JStr "Memo").
Proof. vm_compute. repeat split. Qed.


End ImportFacts.

(** ** Records packs ([importRecordsPack]) on the transactional backend *)

Module RecordsPackFacts.
Import Spec Samples StorageAdapterJs ExportJs ExportSpec FileStorageFacts AdapterFacts ImportFacts.

Section WithHost.
Context `{BrowserHost}.









End WithHost.


Example importRecordsPack_sample :
  (@importRecordsPack Samples.sample_host (Parsed sample_pack) Samples.browser_world).1
  = Ok (mkRecordsImportResult 1 1 2).
Proof. vm_compute. reflexivity. Qed.


End RecordsPackFacts.

(** ** Template packs ([importTemplatePack]) on the transactional backend *)

Module TemplatePackFacts.
Import Spec Samples StorageAdapterJs ExportJs ExportSpec FileStorageFacts AdapterFacts ImportFacts.

Section WithHost.
Context `{BrowserHost}.



Lemma getAllTemplates_ready (w : World) :
  store_ready w → getAllTemplates w = (Ok (existing_templates w), w).
Proof.
  intros Hready. unfold getAllTemplates, existing_templates. run_async.
  destruct (storageMode w) eqn:Hmode; [| done].
  unfold FileStorageJs.loadTemplatesFromFiles. run_async.
  by rewrite (getWorkspace_granted _ (Hready Hmode)).
Qed.










End WithHost.




(** The same import on the file backend rewrites the file of [t1]. *)
Example importTemplatePack_overwrite_file :
  let run := @importTemplatePack Samples.sample_host (Parsed invoice_pack) "overwrite"
               workspace_t1 in
  (tir_action <$> (match run.1 with Ok result => Some result | Throw _ => None end))
  = Some "overwritten"
  ∧ t_id <$> template_table run.2 !! "t1.json" = Some (JStr "t1")
  ∧ size (template_table run.2) = 1.
Proof. vm_compute. repeat split. Qed.

(** Among stored templates updated at the same time the one with the
    smaller key comes first in the listing, and is the one matched. *)
Example importTemplatePack_match_in_key_order :
  let w := set_idb_templates
             {[ "t3" := template_named "t3" "Invoice" "t";
                "t1" := template_named "t1" "Invoice" "t" ]}
             (empty_world BrowserMode) in
  @matching_id sample_host (template_named "zz" "Invoice" "tt") w = JStr "t1"
  ∧ (tir_template
       <$> (match (@importTemplatePack sample_host (Parsed invoice_pack) "overwrite" w).1 with
            | Ok result => Some result
            | Throw _ => None
            end))
    ≫= (fmap t_id) = Some (JStr "t1").
Proof. vm_compute. split; reflexivity. Qed.

End TemplatePackFacts.

(** ** Template validation ([validateTemplate]) *)

Module ValidateFacts.
Import ValidateJs ValidateSpec.

Lemma word_char_not_space (c : ascii) (s : string) :
  is_word_char c = true → space_width (String c s) = 0.
Proof.
  intros Hc.
  assert (Hbytes : is_space c = false ∧ is_byte 194 c = false ∧ is_byte 225 c = false
                   ∧ is_byte 226 c = false ∧ is_byte 227 c = false ∧ is_byte 239 c = false).
  { destruct c as [[] [] [] [] [] [] [] []]; vm_compute in Hc |- *;
      first [discriminate Hc | by repeat split]. }
  destruct Hbytes as (Hs & H194 & H225 & H226 & H227 & H239).
  cbn [space_width]. rewrite Hs.
  destruct s as [| b s2]; [done |]. unfold is_space2. rewrite H194. cbn [andb].
  destruct s2 as [| d s3]; [done |]. unfold is_space3.
  by rewrite H225, H226, H227, H239.
Qed.

Lemma letter_is_word_char (c : ascii) : is_letter_or_underscore c = true → is_word_char c = true.
Proof. unfold is_word_char. by intros ->. Qed.

Lemma trim_start_word_char (c : ascii) (s : string) :
  is_word_char c = true → trim_start (String c s) = String c s.
Proof. intros Hc. apply TrimFacts.trim_start_no_space. by apply word_char_not_space. Qed.

Lemma trim_end_word_chars (s : string) : all_word_chars s = true → trim_end s = s.
Proof.
  induction s as [| c s IH]; [done |]. cbn [all_word_chars].
  intros [Hc Hs]%andb_true_iff.
  rewrite TrimFacts.trim_end_unfold, (trim_start_word_char _ _ Hc). by rewrite (IH Hs).
Qed.

Lemma identifier_not_blank (s : string) : is_identifier s = true → is_blank s = false.
Proof.
  destruct s as [| c s]; [done |]. cbn [is_identifier].
  intros [Hc Hs]%andb_true_iff. apply letter_is_word_char in Hc.
  unfold is_blank, trim. rewrite (trim_start_word_char _ _ Hc).
  rewrite trim_end_word_chars; [done |]. cbn [all_word_chars]. by rewrite Hc, Hs.
Qed.

Lemma app_nil_iff {A : Type} (l k : list A) : l ++ k = [] ↔ l = [] ∧ k = [].
Proof. split; [apply app_eq_nil | by intros [-> ->]]. Qed.

(** One field: the errors it adds, and the keys seen after it. *)
Lemma check_field_step (errors keys : list string) (index : nat) (f : Field) :
  ∃ added keys',
    check_field (errors, keys) index f = (errors ++ added, keys')
    ∧ (added = [] ↔ field_ok f ∧ f_key f ∉ keys)
    ∧ (added = [] → ∀ k, k ∈ keys' ↔ k = f_key f ∨ k ∈ keys).
Proof.
  unfold check_field, field_ok.
  destruct (is_blank (f_key f)) eqn:Hblank.
  { destruct (is_blank (f_label f)); eexists _, _;
      (split; [by rewrite <- ?app_assoc |]);
      (split; [| done]); (split; [done |]); intros [[Hid _] _];
      apply identifier_not_blank in Hid; congruence. }
  destruct (is_identifier (f_key f)) eqn:Hid; cbn [negb].
  2:{ destruct (is_blank (f_label f)); eexists _, _;
        (split; [by rewrite <- ?app_assoc |]);
        (split; [| done]); (split; [done |]); by intros [[? _] _]. }
  unfold set_has. case_bool_decide as Hseen.
  { destruct (is_blank (f_label f)); eexists _, _;
      (split; [by rewrite <- ?app_assoc |]);
      (split; [| done]); (split; [done |]); by intros [_ ?]. }
  destruct (is_blank (f_label f)) eqn:Hlabel.
  - eexists _, _. split; [done |]. split; [| done]. split; [done |]. by intros [[_ ?] _].
  - exists [], (set_add (f_key f) keys). split; [by rewrite app_nil_r |].
    split; [done |]. intros _ k. apply elem_of_set_add.
Qed.

Lemma check_fields_errors (fields : list Field) (start : nat) (errors keys : list string) :
  ∃ added,
    (for_each_indexed check_field start fields (errors, keys)).1 = errors ++ added
    ∧ (added = [] ↔ Forall field_ok fields ∧ NoDup (f_key <$> fields)
                    ∧ ∀ k, k ∈ f_key <$> fields → k ∉ keys).
Proof.
  revert start errors keys. induction fields as [| f fields IH]; intros start errors keys.
  - exists []. split; [by rewrite app_nil_r |]. split; [| done]. intros _.
    split_and!; [constructor | constructor |]. intros k Hk. by apply elem_of_nil in Hk.
  - cbn [for_each_indexed].
    destruct (check_field_step errors keys start f) as (added & keys' & -> & Hadded & Hkeys).
    destruct (IH (S start) (errors ++ added) keys') as (rest & -> & Hrest).
    exists (added ++ rest). split; [by rewrite app_assoc |].
    rewrite app_nil_iff, fmap_cons, Forall_cons, NoDup_cons. split.
    + intros [Ha Hr]. specialize (Hkeys Ha). apply Hadded in Ha as [Hok Hnew].
      apply Hrest in Hr as (Hall & Hnd & Hfresh).
      split_and!; try done.
      * intros Hin. apply (Hfresh _ Hin), Hkeys. by left.
      * intros k [-> | Hk]%elem_of_cons; [done |].
        intros Hin. apply (Hfresh _ Hk), Hkeys. by right.
    + intros ((Hok & Hall) & (Hnotin & Hnd) & Hfresh).
      assert (Ha : added = []).
      { apply Hadded. split; [done |]. apply Hfresh, list_elem_of_here. }
      split; [done |]. specialize (Hkeys Ha). apply Hrest. split_and!; try done.
      intros k Hk [-> | Hin]%Hkeys; [done |].
      by apply (Hfresh k); [apply list_elem_of_further |].
Qed.

Lemma check_column_step (name : string) (errors keys : list string) (index : nat) (c : Column) :
  ∃ added keys',
    check_column name (errors, keys) index c = (errors ++ added, keys')
    ∧ (added = [] ↔ column_ok c ∧ c_key c ∉ keys)
    ∧ (added = [] → ∀ k, k ∈ keys' ↔ k = c_key c ∨ k ∈ keys).
Proof.
  unfold check_column, column_ok.
  destruct (is_blank (c_key c)) eqn:Hblank.
  { destruct (is_blank (c_label c)); eexists _, _;
      (split; [by rewrite <- ?app_assoc |]);
      (split; [| done]); (split; [done |]); by intros [[? _] _]. }
  unfold set_has. case_bool_decide as Hseen.
  { destruct (is_blank (c_label c)); eexists _, _;
      (split; [by rewrite <- ?app_assoc |]);
      (split; [| done]); (split; [done |]); by intros [_ ?]. }
  destruct (is_blank (c_label c)) eqn:Hlabel.
  - eexists _, _. split; [done |]. split; [| done]. split; [done |]. by intros [[_ ?] _].
  - exists [], (set_add (c_key c) keys). split; [by rewrite app_nil_r |].
    split; [done |]. intros _ k. apply elem_of_set_add.
Qed.

Lemma check_columns_errors (name : string) (columns : list Column) (start : nat)
    (errors keys : list string) :
  ∃ added,
    (for_each_indexed (check_column name) start columns (errors, keys)).1 = errors ++ added
    ∧ (added = [] ↔ Forall column_ok columns ∧ NoDup (c_key <$> columns)
                    ∧ ∀ k, k ∈ c_key <$> columns → k ∉ keys).
Proof.
  revert start errors keys. induction columns as [| c columns IH]; intros start errors keys.
  - exists []. split; [by rewrite app_nil_r |]. split; [| done]. intros _.
    split_and!; [constructor | constructor |]. intros k Hk. by apply elem_of_nil in Hk.
  - cbn [for_each_indexed].
    destruct (check_column_step name errors keys start c)
      as (added & keys' & -> & Hadded & Hkeys).
    destruct (IH (S start) (errors ++ added) keys') as (rest & -> & Hrest).
    exists (added ++ rest). split; [by rewrite app_assoc |].
    rewrite app_nil_iff, fmap_cons, Forall_cons, NoDup_cons. split.
    + intros [Ha Hr]. specialize (Hkeys Ha). apply Hadded in Ha as [Hok Hnew].
      apply Hrest in Hr as (Hall & Hnd & Hfresh).
      split_and!; try done.
      * intros Hin. apply (Hfresh _ Hin), Hkeys. by left.
      * intros k [-> | Hk]%elem_of_cons; [done |].
        intros Hin. apply (Hfresh _ Hk), Hkeys. by right.
    + intros ((Hok & Hall) & (Hnotin & Hnd) & Hfresh).
      assert (Ha : added = []).
      { apply Hadded. split; [done |]. apply Hfresh, list_elem_of_here. }
      split; [done |]. specialize (Hkeys Ha). apply Hrest. split_and!; try done.
      intros k Hk [-> | Hin]%Hkeys; [done |].
      by apply (Hfresh k); [apply list_elem_of_further |].
Qed.

Lemma check_table_step (errors names : list string) (index : nat) (table : Table) :
  ∃ added names',
    check_table (errors, names) index table = (errors ++ added, names')
    ∧ (added = [] ↔ table_ok table ∧ tb_name table ∉ names)
    ∧ (added = [] → ∀ k, k ∈ names' ↔ k = tb_name table ∨ k ∈ names).
Proof.
  unfold check_table, table_ok.
  set (pre := if is_blank (tb_name table) then _ else _).
  assert (Hpre : ∃ added names',
    pre = (errors ++ added, names')
    ∧ (added = [] ↔ is_identifier (tb_name table) = true ∧ tb_name table ∉ names)
    ∧ (added = [] → ∀ k, k ∈ names' ↔ k = tb_name table ∨ k ∈ names)).
  { subst pre. destruct (is_blank (tb_name table)) eqn:Hblank.
    { eexists _, _. split; [done |]. split; [| done]. split; [done |].
      intros [Hid _]. apply identifier_not_blank in Hid. congruence. }
    destruct (is_identifier (tb_name table)) eqn:Hid; cbn [negb].
    2:{ eexists _, _. split; [done |]. split; [| done]. split; [done |]. by intros [? _]. }
    unfold set_has. case_bool_decide as Hseen.
    { eexists _, _. split; [done |]. split; [| done]. split; [done |]. by intros [_ ?]. }
    exists [], (set_add (tb_name table) names). split; [by rewrite app_nil_r |].
    split; [done |]. intros _ k. apply elem_of_set_add. }
  destruct Hpre as (added & names' & -> & Hadded & Hnames).
  destruct (tb_columns table) as [| c columns] eqn:Hcols.
  - eexists _, names'. split; [by rewrite <- app_assoc |]. split.
    + split; [by intros [_ ?]%app_nil_iff | by intros [(_ & ? & _) _]].
    + by intros [_ ?]%app_nil_iff.
  - destruct (check_columns_errors (tb_name table) (c :: columns) 0 (errors ++ added) [])
      as (rest & -> & Hrest).
    exists (added ++ rest), names'. split; [by rewrite app_assoc |].
    rewrite app_nil_iff. split.
    + rewrite Hadded, Hrest. split.
      * intros [[? ?] (? & ? & _)]. done.
      * intros [(? & _ & ? & ?) ?]. split_and!; try done.
        intros k _. apply not_elem_of_nil.
    + intros [Ha _]. by apply Hnames.
Qed.

Lemma check_tables_errors (tables : list Table) (start : nat) (errors names : list string) :
  ∃ added,
    (for_each_indexed check_table start tables (errors, names)).1 = errors ++ added
    ∧ (added = [] ↔ Forall table_ok tables ∧ NoDup (tb_name <$> tables)
                    ∧ ∀ k, k ∈ tb_name <$> tables → k ∉ names).
Proof.
  revert start errors names. induction tables as [| t tables IH]; intros start errors names.
  - exists []. split; [by rewrite app_nil_r |]. split; [| done]. intros _.
    split_and!; [constructor | constructor |]. intros k Hk. by apply elem_of_nil in Hk.
  - cbn [for_each_indexed].
    destruct (check_table_step errors names start t) as (added & names' & -> & Hadded & Hnames).
    destruct (IH (S start) (errors ++ added) names') as (rest & -> & Hrest).
    exists (added ++ rest). split; [by rewrite app_assoc |].
    rewrite app_nil_iff, fmap_cons, Forall_cons, NoDup_cons. split.
    + intros [Ha Hr]. specialize (Hnames Ha). apply Hadded in Ha as [Hok Hnew].
      apply Hrest in Hr as (Hall & Hnd & Hfresh).
      split_and!; try done.
      * intros Hin. apply (Hfresh _ Hin), Hnames. by left.
      * intros k [-> | Hk]%elem_of_cons; [done |].
        intros Hin. apply (Hfresh _ Hk), Hnames. by right.
    + intros ((Hok & Hall) & (Hnotin & Hnd) & Hfresh).
      assert (Ha : added = []).
      { apply Hadded. split; [done |]. apply Hfresh, list_elem_of_here. }
      split; [done |]. specialize (Hnames Ha). apply Hrest. split_and!; try done.
      intros k Hk [-> | Hin]%Hnames; [done |].
      by apply (Hfresh k); [apply list_elem_of_further |].
Qed.

(** X1. [validateTemplate] accepts a template exactly when its name is not
    blank, a Word file with data is attached, every field key is an
    identifier and every field label is not blank, the field keys are
    pairwise different, there are at most three detail tables, every table
    has an identifier as name, at least one column, column keys and labels
    that are not blank and column keys that are pairwise different within
    the table, the table names are pairwise different, and there is at
    least one field or table. *)
Theorem validateTemplate_valid_iff (template : Template) :
  vr_valid (validateTemplate template) = true ↔ well_formed template.
Proof.
  unfold validateTemplate, well_formed. cbn [vr_valid].
  rewrite bool_decide_eq_true.
  set (tables := default [] (t_detailTables template)).
  set (e1 := if is_blank_value (t_name template) then _ else _).
  set (e2 := match t_wordFile template with Some _ => _ | None => _ end).
  assert (H1 : ∃ a1, e1 = [] ++ a1 ∧ (a1 = [] ↔ is_blank_value (t_name template) = false)).
  { subst e1. destruct (is_blank_value (t_name template)); eexists; split; done. }
  destruct H1 as (a1 & He1 & Ha1).
  assert (H2 : ∃ a2, e2 = e1 ++ a2
                     ∧ (a2 = [] ↔ ∃ wf, t_wordFile template = Some wf
                                        ∧ wf_data wf ≠ EmptyString)).
  { subst e2. destruct (t_wordFile template) as [wf |].
    - destruct (String.eqb_spec (wf_data wf) EmptyString) as [Hd | Hd].
      + eexists. split; [done |]. split; [done |]. intros (wf' & [= <-] & ?). done.
      + exists []. split; [by rewrite app_nil_r |]. split; [eauto | done].
    - eexists. split; [done |]. split; [done |]. by intros (wf & ? & _). }
  destruct H2 as (a2 & He2 & Ha2).
  clearbody e1 e2. subst e1 e2. cbn [app].
  set (e3 := if negb (bool_decide (t_fields template = [])) then _ else _).
  assert (H3 : ∃ a3, e3 = (a1 ++ a2) ++ a3
                     ∧ (a3 = [] ↔ Forall field_ok (t_fields template)
                                   ∧ NoDup (f_key <$> t_fields template))).
  { subst e3. case_bool_decide as Hf; cbn [negb].
    - exists []. split; [by rewrite app_nil_r |]. rewrite Hf. split; [| done].
      intros _. split; constructor.
    - destruct (check_fields_errors (t_fields template) 0 (a1 ++ a2) []) as (a3 & -> & Ha3).
      exists a3. split; [done |]. rewrite Ha3. split; [by intros (? & ? & _) |].
      intros [? ?]. split_and!; try done. intros k _. apply not_elem_of_nil. }
  destruct H3 as (a3 & He3 & Ha3). clearbody e3. subst e3.
  set (e4 := if negb (bool_decide (tables = [])) then _ else _).
  assert (H4 : ∃ a4, e4 = ((a1 ++ a2) ++ a3) ++ a4
                     ∧ (a4 = [] ↔ length tables ≤ 3 ∧ Forall table_ok tables
                                   ∧ NoDup (tb_name <$> tables))).
  { subst e4. case_bool_decide as Ht; cbn [negb].
    - exists []. split; [by rewrite app_nil_r |]. rewrite Ht. split; [| done].
      intros _. split_and!; [simpl; lia | constructor | constructor].
    - case_bool_decide as Hlen.
      + destruct (check_tables_errors tables 0
                    ((((a1 ++ a2) ++ a3)) ++ ["明细表最多只能添加 3 张"]) [])
          as (a4 & -> & _).
        eexists. split; [by rewrite <- app_assoc |]. split; [done |]. lia.
      + destruct (check_tables_errors tables 0 ((a1 ++ a2) ++ a3) []) as (a4 & -> & Ha4).
        exists a4. split; [done |]. rewrite Ha4. split.
        * intros (? & ? & _). split_and!; [lia | done | done].
        * intros (_ & ? & ?). split_and!; try done. intros k _. apply not_elem_of_nil. }
  destruct H4 as (a4 & He4 & Ha4). clearbody e4. subst e4.
  destruct (decide (t_fields template = [])) as [Hf | Hf],
           (decide (tables = [])) as [Ht | Ht];
    rewrite ?(bool_decide_eq_true_2 _ Hf), ?(bool_decide_eq_false_2 _ Hf),
      ?(bool_decide_eq_true_2 _ Ht), ?(bool_decide_eq_false_2 _ Ht); cbn [negb andb];
    rewrite ?app_nil_iff, Ha1, Ha2, Ha3, Ha4; try tauto.
  split; [by intros [_ ?] | tauto].
Qed.

End ValidateFacts.

(** ** The extracted placeholders ([extractPlaceholdersFromWord]) *)

Module PlaceholderFacts.
Import TemplateJs PlaceholderSpec.

Lemma has_brace_list (l : list ascii) :
  has_brace (String.string_of_list_ascii l) = existsb is_brace l.
Proof. induction l as [| c l IH]; [done |]. simpl. by rewrite IH. Qed.

Lemma existsb_rev {A : Type} (f : A → bool) (l : list A) : existsb f (rev l) = existsb f l.
Proof.
  induction l as [| x l IH]; [done |]. simpl.
  rewrite existsb_app, IH. simpl. rewrite orb_false_r. apply orb_comm.
Qed.

(** The groups captured by the regular expression hold no brace. *)
Lemma regex_groups_no_brace (s : string) (inside : option (list ascii)) (g : string) :
  (∀ acc, inside = Some acc → existsb is_brace acc = false) →
  g ∈ regex_groups inside s → has_brace g = false.
Proof.
  revert inside. induction s as [| c s IH]; intros inside Hacc Hg.
  - by apply elem_of_nil in Hg.
  - cbn [regex_groups] in Hg.
    destruct (Ascii.eqb c "{") eqn:Hopen.
    { apply (IH (Some [])); [| done]. by intros acc [= <-]. }
    destruct (Ascii.eqb c "}") eqn:Hclose.
    { destruct inside as [[| a acc] |].
      - apply (IH None); [done | done].
      - apply elem_of_cons in Hg as [-> | Hg]; [| by apply (IH None)].
        rewrite has_brace_list, existsb_rev. by apply Hacc.
      - by apply (IH None). }
    destruct inside as [acc |]; [| by apply (IH None)].
    apply (IH (Some (c :: acc))); [| done].
    intros acc' [= <-]. simpl. unfold is_brace at 1. rewrite Hopen, Hclose.
    by apply Hacc.
Qed.

Lemma has_brace_append (p q : string) :
  has_brace (p +:+ q) = has_brace p || has_brace q.
Proof.
  induction p as [| c p IH]; [done |].
  rewrite StringFacts.append_cons. cbn [has_brace]. by rewrite IH, orb_assoc.
Qed.

Lemma has_brace_trim_start (s : string) : has_brace s = false → has_brace (trim_start s) = false.
Proof.
  induction s as [s Hw Hs | p s' Hp Hs Hq IH] using TrimFacts.trim_start_ind.
  - by rewrite Hs.
  - rewrite Hs, has_brace_append. intros [_ Hs']%orb_false_iff. auto.
Qed.

Lemma has_brace_trim_end (s : string) : has_brace s = false → has_brace (trim_end s) = false.
Proof.
  induction s as [| c s IH]; [done |]. rewrite TrimFacts.trim_end_unfold. cbn [has_brace].
  intros [Hc Hs]%orb_false_iff. specialize (IH Hs).
  destruct (trim_start (String c s)); [done |]. cbn [has_brace]. by rewrite Hc, IH.
Qed.

Lemma add_tag_kept (s : list string) (g : string) :
  has_brace g = false → Forall kept_tag s → Forall kept_tag (add_tag s g).
Proof.
  intros Hg Hs. unfold add_tag.
  destruct (starts_with_char "#" (trim g)) eqn:Hhash; [done |].
  destruct (starts_with_char "/" (trim g)) eqn:Hslash; [done |]. cbn [negb andb].
  apply Forall_forall. intros p [-> | Hp]%elem_of_set_add.
  - split_and!; [| apply TrimFacts.trim_idemp | done | done].
    by apply has_brace_trim_end, has_brace_trim_start.
  - by apply (proj1 (Forall_forall _ _) Hs).
Qed.

Lemma foldl_add_tag_kept (groups : list string) (s : list string) :
  Forall (λ g, has_brace g = false) groups → Forall kept_tag s →
  Forall kept_tag (foldl add_tag s groups).
Proof.
  revert s. induction groups as [| g groups IH]; intros s Hgroups Hs; [done |].
  apply Forall_cons in Hgroups as [Hg Hgroups]. simpl.
  apply IH; [done |]. by apply add_tag_kept.
Qed.

Lemma placeholders_of_text_kept (tags : string) : Forall kept_tag (placeholders_of_text tags).
Proof.
  unfold placeholders_of_text. apply foldl_add_tag_kept; [| constructor].
  apply Forall_forall. intros g Hg. by apply (regex_groups_no_brace tags None).
Qed.

Lemma add_tag_mono (s : list string) (g p : string) : p ∈ s → p ∈ add_tag s g.
Proof.
  intros Hp. unfold add_tag. destruct (negb _ && negb _); [| done].
  apply elem_of_set_add. by right.
Qed.

Lemma foldl_add_tag_mono (groups : list string) (s : list string) (p : string) :
  p ∈ s → p ∈ foldl add_tag s groups.
Proof.
  revert s. induction groups as [| g groups IH]; intros s Hp; [done |].
  simpl. by apply IH, add_tag_mono.
Qed.

Lemma foldl_add_tag_elem (groups : list string) (s : list string) (g : string) :
  g ∈ groups →
  starts_with_char "#"%char (trim g) = false → starts_with_char "/"%char (trim g) = false →
  trim g ∈ foldl add_tag s groups.
Proof.
  revert s. induction groups as [| g' groups IH]; intros s Hg Hhash Hslash.
  - by apply elem_of_nil in Hg.
  - simpl. apply elem_of_cons in Hg as [<- | Hg]; [| by apply IH].
    apply foldl_add_tag_mono. unfold add_tag. rewrite Hhash, Hslash. cbn [negb andb].
    apply elem_of_set_add. by left.
Qed.

(** Reading a prefix leaves the automaton in some state. *)
Lemma regex_groups_app (before rest : string) (inside : option (list ascii)) :
  ∃ groups inside',
    regex_groups inside (before +:+ rest) = groups ++ regex_groups inside' rest.
Proof.
  revert inside. induction before as [| c before IH]; intros inside.
  - by exists [], inside.
  - change (String c before +:+ rest) with (String c (before +:+ rest)).
    cbn [regex_groups].
    destruct (Ascii.eqb c "{"); [apply IH |].
    destruct (Ascii.eqb c "}").
    + destruct inside as [[| a acc] |]; [apply IH | | apply IH].
      destruct (IH None) as (groups & inside' & ->).
      by exists (String.string_of_list_ascii (rev (a :: acc)) :: groups), inside'.
    + destruct inside; apply IH.
Qed.

(** Reading a brace-free key up to its closing brace completes a match. *)
Lemma regex_groups_key (key rest : string) (acc : list ascii) :
  has_brace key = false →
  rev acc ++ String.list_ascii_of_string key ≠ [] →
  regex_groups (Some acc) (key +:+ String "}" rest)
  = String.string_of_list_ascii (rev acc ++ String.list_ascii_of_string key)
      :: regex_groups None rest.
Proof.
  revert acc. induction key as [| c key IH]; intros acc Hkey Hne.
  - cbn [String.append regex_groups String.list_ascii_of_string] in *.
    rewrite app_nil_r in *. destruct acc as [| a acc]; [done |].
    by change (Ascii.eqb "}" "{") with false; change (Ascii.eqb "}" "}") with true.
  - cbn [has_brace] in Hkey. apply orb_false_iff in Hkey as [Hc Hkey].
    unfold is_brace in Hc. apply orb_false_iff in Hc as [Hopen Hclose].
    change (String c key +:+ String "}" rest) with (String c (key +:+ String "}" rest)).
    cbn [regex_groups]. rewrite Hopen, Hclose.
    rewrite IH; [| done |].
    + cbn [rev String.list_ascii_of_string]. by rewrite <- app_assoc.
    + cbn [rev]. rewrite <- app_assoc. by destruct (rev acc).
Qed.

Section WithHost.
Context `{DocxHost}.

(** X2. Whatever the document, the placeholders extracted from it are
    pairwise different, and each of them holds no brace, has no white space
    at either end and starts neither with [#] nor with [/]. *)
Theorem extractPlaceholdersFromWord_shape (fileData : string) :
  NoDup (extractPlaceholdersFromWord fileData)
  ∧ Forall kept_tag (extractPlaceholdersFromWord fileData).
Proof.
  unfold extractPlaceholdersFromWord. destruct (docx_getFullText fileData) as [tags |].
  - split; [apply ConsistencyFacts.NoDup_placeholders_of_text | apply placeholders_of_text_kept].
  - split; constructor.
Qed.

(** X3. When the document library reads the text of the document and the
    text holds a key between braces, the key without the white space around
    it is among the extracted placeholders, provided the key holds no brace
    and at least one character and, trimmed, does not start with [#] or
    [/]; what stands before and after it in the text does not matter. *)
Theorem extractPlaceholdersFromWord_finds
    (fileData before key after : string) :
  docx_getFullText fileData = Some (before +:+ String "{" (key +:+ String "}" after)) →
  has_brace key = false →
  key ≠ EmptyString →
  starts_with_char "#"%char (trim key) = false →
  starts_with_char "/"%char (trim key) = false →
  trim key ∈ extractPlaceholdersFromWord fileData.
Proof.
  intros Htext Hbrace Hne Hhash Hslash.
  unfold extractPlaceholdersFromWord. rewrite Htext. unfold placeholders_of_text.
  apply foldl_add_tag_elem; [| done | done].
  destruct (regex_groups_app before (String "{" (key +:+ String "}" after)) None)
    as (groups & inside' & ->).
  apply elem_of_app. right.
  cbn [regex_groups]. change (Ascii.eqb "{" "{") with true. cbv iota.
  rewrite regex_groups_key; [| done | by destruct key].
  cbn [rev app]. rewrite String.string_of_list_ascii_of_string. apply list_elem_of_here.
Qed.

End WithHost.

Lemma extractPlaceholdersFromWord_finds_witness :
  "total" ∈ @extractPlaceholdersFromWord Samples.plain_host "Sum: { total } of {#rows}{n}{/rows}".
Proof.
  apply (@extractPlaceholdersFromWord_finds Samples.plain_host
           "Sum: { total } of {#rows}{n}{/rows}" "Sum: " " total " " of {#rows}{n}{/rows}");
    [reflexivity | reflexivity | discriminate | reflexivity | reflexivity].
Defined.

End PlaceholderFacts.

(** ** Document data preparation: what is passed through *)

Module PrepareKeepFacts.
Import Spec Samples WordJs PrepareFacts.

Section WithRealm.
Context `{JsRealm}.

(** X4. [prepareDataForWord] passes on what it is not configured for:
    whenever it returns, no key of the field data is missing from the own
    properties of the result, and a key of the field data that is neither
    a configured field key nor the name of a detail table bound to rows
    keeps its value.  It returns exactly when, for every detail table
    bound to rows, the table data has an entry of that name or the name is
    no name of a member of [Object.prototype]. *)
Theorem prepareDataForWord_keeps
    (fieldData : gmap string scalar)
    (tableData : option (gmap string (list (gmap string scalar))))
    (template : Template) (key : string) :
  is_Some (fieldData !! key) →
  (∀ data, prepareDataForWord fieldData tableData template = Ok data →
     is_Some (wd_own data !! key)
     ∧ (key ∉ f_key <$> t_fields template →
        key ∉ bound_table_names template tableData →
        wd_own data !! key = WScalar <$> fieldData !! key))
  ∧ ((∃ data, prepareDataForWord fieldData tableData template = Ok data)
     ↔ Forall (rows_readable tableData) (bound_table_names template tableData)).
Proof.
  intros Hkey. set (start := mkWordData (WScalar <$> fieldData) None).
  assert (Hstart : is_Some (wd_own start !! key)).
  { cbn. rewrite lookup_fmap. destruct Hkey as [v ->]. eauto. }
  split.
  - intros data Hrun. unfold prepareDataForWord in Hrun. fold start in Hrun.
    cbv zeta in Hrun.
    destruct (match t_detailTables template, tableData with
              | Some tables, Some td => put_tables td tables start
              | _, _ => Ok start
              end) as [prepared | e] eqn:Hprepared; [| done].
    injection Hrun as <-.
    destruct (fill_fields_own (t_fields template) prepared key) as (_ & Hsome & Hother).
    assert (Hpre : is_Some (wd_own prepared !! key)
                   ∧ (key ∉ bound_table_names template tableData →
                      wd_own prepared !! key = wd_own start !! key)).
    { unfold bound_table_names.
      destruct (t_detailTables template) as [tables |], tableData as [td |];
        try (injection Hprepared as <-; done).
      destruct (put_tables_own td tables start prepared key Hprepared); auto. }
    destruct Hpre as [Hpre1 Hpre2]. split; [auto |].
    intros Hfield Htable. rewrite Hother, Hpre2 by done. apply lookup_fmap.
  - unfold prepareDataForWord, bound_table_names. fold start. cbv zeta.
    destruct (t_detailTables template) as [tables |], tableData as [td |];
      try (split; [constructor | eauto]).
    rewrite <- (put_tables_returns td tables start).
    split.
    + intros [data Hrun]. destruct (put_tables td tables start); [eauto | done].
    + intros [prepared ->]. eauto.
Qed.

End WithRealm.

Lemma prepareDataForWord_keeps_witness :
  ∃ data,
    @prepareDataForWord sample_realm {["note" := SStr "n"; "items" := SStr "x"]}
      (Some {["items" := [ {["sku" := SNum 1]} ]]}) shadowing_template = Ok data
    ∧ wd_own data !! "note" = Some (WScalar (SStr "n")).
Proof.
  destruct (@prepareDataForWord_keeps sample_realm
              {["note" := SStr "n"; "items" := SStr "x"]}
              (Some {["items" := [ {["sku" := SNum 1]} ]]}) shadowing_template "note")
    as [Hkeep Hreturns].
  - apply (bool_decide_unpack _). by vm_compute.
  - destruct (proj2 Hreturns) as [data Hrun].
    + apply Forall_cons. split; [| constructor].
      left. apply (bool_decide_unpack _). by vm_compute.
    + exists data. split; [exact Hrun |].
      destruct (Hkeep data Hrun) as [_ Hsame].
      refine (eq_trans (Hsame _ _) _).
      * intros Hin. apply list_elem_of_singleton in Hin. discriminate.
      * intros Hin. apply list_elem_of_singleton in Hin. discriminate.
      * by vm_compute.
Defined.

End PrepareKeepFacts.

(** ** Saving and reading back a template, on either backend *)

Module TemplateStoreFacts.
Import Spec Samples FileStorageJs StorageAdapterJs FileStorageFacts AdapterFacts ImportFacts
  TemplatePackFacts.

Section WithHost.
Context `{BrowserHost}.



End WithHost.


End TemplateStoreFacts.

(** ** Deleting records and templates in the transactional store *)

Module RecordStoreFacts.
Import Spec Samples StoreSpec StorageAdapterJs AppJs AdapterFacts DeleteFacts ImportFacts.



Section WithHost.
Context `{BrowserHost}.

Lemma deleteRecord_run (k : string) (w : World) :
  StorageJs.deleteRecord (JStr k) w
  = (Ok tt, add_event (IdbDeleteRecord k) (set_idb_records (delete k (idb_records w)) w)).
Proof. reflexivity. Qed.








End WithHost.




Example deleteTemplate_onClick_browser_log :
  log (@deleteTemplate_onClick sample_host "t1" browser_world).2
  = [IdbDeleteRecord "r2"; IdbDeleteRecord "r1"; IdbDeleteTemplate "t1"].
Proof. by vm_compute. Qed.

End RecordStoreFacts.

(** ** Choosing the backend ([initStorage], [switchToFileStorage]) *)

Module ModeFacts.
Import Spec Samples FileStorageJs StorageAdapterJs FileStorageFacts TemplatePackFacts.

Section WithHost.
Context `{BrowserHost}.

(** X8. [initStorage] selects the file backend exactly when the browser has
    the file-system capability and the workspace handle is set in this
    session; a handle saved by an earlier session makes no difference, as
    [loadWorkspaceHandle] never returns it.  Otherwise it selects the
    transactional backend and opens the database, and fails with the
    cannot-open message, the transactional backend already selected, when
    the database does not open.  It leaves the stored data, the workspace
    handle and the log as they are. *)
Theorem initStorage_selects (w : World) :
  let file_store := supportsFileSystem w && workspaceHandle w in
  initStorage w
  = ((if file_store then Ok tt
      else if databaseOpens w then Ok tt else Throw (Error "无法打开数据库")),
     set_storageMode (if file_store then FileMode else BrowserMode) w)
  ∧ (∀ saved, (initStorage (set_savedHandle saved w)).1 = (initStorage w).1
              ∧ storageMode (initStorage (set_savedHandle saved w)).2
                = storageMode (initStorage w).2)
  ∧ (file_store = true → store_ready (initStorage w).2).
Proof.
  cbn zeta.
  assert (Hrun : ∀ w, initStorage w
            = ((if supportsFileSystem w && workspaceHandle w then Ok tt
                else if databaseOpens w then Ok tt else Throw (Error "无法打开数据库")),
               set_storageMode
                 (if supportsFileSystem w && workspaceHandle w then FileMode else BrowserMode)
                 w)).
  { intros w0. unfold initStorage, hasWorkspace, loadWorkspaceHandle, StorageJs.initDB.
    run_async.
    destruct (supportsFileSystem w0) eqn:Hsup; cbn [andb].
    - destruct (workspaceHandle w0) eqn:Hhandle; [done |].
      cbn. by destruct (databaseOpens w0).
    - cbn. by destruct (databaseOpens w0). }
  split_and!.
  - apply Hrun.
  - intros saved. by rewrite !Hrun.
  - intros Hfile. rewrite Hrun, Hfile. intros _. cbn.
    by apply andb_true_iff in Hfile as [_ ->].
Qed.

(** X9. [switchToFileStorage] fails with the unsupported-browser message
    when the browser lacks the file-system capability and with the
    cancelled message when the user closes the folder picker, in both cases
    leaving the state as it is; otherwise it returns [true] with the file
    backend active and the workspace handle set.  It moves no data: the
    stores of both backends are as before, and [getAllTemplates] then lists
    the templates of the workspace. *)
Theorem switchToFileStorage_outcomes (w : World) :
  (supportsFileSystem w = false →
   switchToFileStorage w = (Throw (Error unsupported_message), w))
  ∧ (supportsFileSystem w = true → userPicksFolder w = false →
     switchToFileStorage w = (Throw (Error "用户取消选择"), w))
  ∧ (supportsFileSystem w = true → userPicksFolder w = true →
     let w' := set_storageMode FileMode (set_workspaceHandle true w) in
     switchToFileStorage w = (Ok true, w')
     ∧ store_ready w'
     ∧ getAllTemplates w'
       = (Ok (js_sort (newest_first t_updatedAt) (json_files (fs_templates w))), w')).
Proof.
  unfold switchToFileStorage, selectWorkspace. run_async. split_and!.
  - intros ->. done.
  - intros -> ->. done.
  - intros Hs Hp. rewrite Hs, Hp. cbn zeta. split_and!; [done | by intros _ |].
    exact (getAllTemplates_ready (set_storageMode FileMode (set_workspaceHandle true w))
             (λ _, eq_refl)).
Qed.

End WithHost.
End ModeFacts.

(** ** Date ranges, counts and statistics *)

Module QueriesFacts.
Import Spec Samples StoreSpec QueriesSpec FileStorageJs StorageAdapterJs QueriesJs StatsJs
  RecordStoreFacts.




Section WithHost.
Context `{BrowserHost}.






End WithHost.

Section WithHosts.
Context `{BrowserHost} `{IsoHost}.




End WithHosts.


Example getRecordsByDateRange_sample :
  (@getRecordsByDateRange sample_host (JStr "t1") (JStr "ttt") JNull browser_world).1
  = Ok [record_of "r2" "t1" "tttt"].
Proof. by vm_compute. Qed.

Example getTemplateStats_sample :
  (@getTemplateStats sample_host MoreSamples.sample_iso (JStr "t1") browser_world).1
  = Ok (mkTemplateStats 2 (JStr "tttt")).
Proof. by vm_compute. Qed.

End QueriesFacts.

(** ** Date formatting ([formatDate]) *)

Module FormatFacts.
Import FormatJs FormatSpec FormatAvoid StringFacts.

Lemma string_of_uint_digits (d : Decimal.uint) :
  all_digits (DecimalString.NilEmpty.string_of_uint d) = true.
Proof. induction d; simpl; done. Qed.

Lemma nat_to_string_digits (n : nat) : all_digits (nat_to_string n) = true.
Proof. apply string_of_uint_digits. Qed.

Lemma padStart2_digits (s : string) : all_digits s = true → all_digits (padStart2 s) = true.
Proof. unfold padStart2. destruct s as [| a [| b s]]; simpl; intros Hs; by rewrite ?Hs. Qed.

Lemma digits_avoid (c : ascii) (s : string) :
  is_digit c = false → all_digits s = true → avoids c s = true.
Proof.
  intros Hc. induction s as [| x s IH]; [done |]. cbn [all_digits avoids].
  intros [Hx Hs]%andb_true_iff. rewrite (IH Hs), andb_true_r.
  apply negb_true_iff, Ascii.eqb_neq. intros ->. congruence.
Qed.

Lemma token_head_not_digit (c : ascii) : token_head c → is_digit c = false ∧ c ≠ "-"%char.
Proof. intros [-> | [-> | [-> | [-> | [-> | ->]]]]]; by vm_compute. Qed.

Lemma padded_avoid (c : ascii) (n : nat) :
  token_head c → avoids c (padStart2 (nat_to_string n)) = true.
Proof.
  intros [Hc _]%token_head_not_digit.
  apply digits_avoid; [done |]. apply padStart2_digits, nat_to_string_digits.
Qed.

Lemma nan_avoid (c : ascii) : token_head c → avoids c "NaN" = true.
Proof. intros [-> | [-> | [-> | [-> | [-> | ->]]]]]; by vm_compute. Qed.

Lemma year_avoid (c : ascii) (date : DateParts) : token_head c → avoids c (year_text date) = true.
Proof.
  intros Hc. destruct date as [y m d h mi s |]; [| by apply nan_avoid].
  destruct (token_head_not_digit c Hc) as [Hdigit Hminus].
  cbn [year_text]. unfold Z_to_string. case_bool_decide.
  - change ("-" +:+ ?x) with (String "-" x). cbn [avoids]. rewrite (digits_avoid _ _ Hdigit (nat_to_string_digits _)).
    rewrite andb_true_r. by apply negb_true_iff, Ascii.eqb_neq.
  - apply digits_avoid; [done | apply nat_to_string_digits].
Qed.

Lemma month_avoid (c : ascii) (date : DateParts) : token_head c → avoids c (month_text date) = true.
Proof. intros Hc. destruct date; [by apply padded_avoid | by apply nan_avoid]. Qed.

Lemma day_avoid (c : ascii) (date : DateParts) : token_head c → avoids c (day_text date) = true.
Proof. intros Hc. destruct date; [by apply padded_avoid | by apply nan_avoid]. Qed.

Lemma hours_avoid (c : ascii) (date : DateParts) : token_head c → avoids c (hours_text date) = true.
Proof. intros Hc. destruct date; [by apply padded_avoid | by apply nan_avoid]. Qed.

Lemma minutes_avoid (c : ascii) (date : DateParts) :
  token_head c → avoids c (minutes_text date) = true.
Proof. intros Hc. destruct date; [by apply padded_avoid | by apply nan_avoid]. Qed.

Lemma seconds_avoid (c : ascii) (date : DateParts) :
  token_head c → avoids c (seconds_text date) = true.
Proof. intros Hc. destruct date; [by apply padded_avoid | by apply nan_avoid]. Qed.

(** The search for a token passes over a text without its first
    character. *)
Lemma replace_first_skip (c : ascii) (p r a rest : string) :
  avoids c a = true →
  replace_first (String c p) r (a +:+ rest) = a +:+ replace_first (String c p) r rest.
Proof.
  induction a as [| x a IH]; [done |]. cbn [avoids].
  intros [Hx Ha]%andb_true_iff. apply negb_true_iff in Hx.
  change (String x a +:+ rest) with (String x (a +:+ rest)).
  cbn [replace_first strip_prefix]. rewrite Hx, (IH Ha). done.
Qed.

Lemma replace_first_absent (c : ascii) (p r s : string) :
  avoids c s = true → replace_first (String c p) r s = s.
Proof.
  induction s as [| x s IH]; [done |]. cbn [avoids].
  intros [Hx Hs]%andb_true_iff. apply negb_true_iff in Hx.
  cbn [replace_first strip_prefix]. by rewrite Hx, (IH Hs).
Qed.

Lemma token_heads :
  token_head "Y" ∧ token_head "M" ∧ token_head "D" ∧ token_head "H" ∧ token_head "m"
  ∧ token_head "s".
Proof. unfold token_head. naive_solver. Qed.

#[local] Ltac token := unfold token_head; naive_solver.

#[local] Ltac pass_over :=
  repeat first
    [ rewrite (replace_first_skip _ _ _ (year_text _)) by (apply year_avoid; token)
    | rewrite (replace_first_skip _ _ _ (month_text _)) by (apply month_avoid; token)
    | rewrite (replace_first_skip _ _ _ (day_text _)) by (apply day_avoid; token)
    | rewrite (replace_first_skip _ _ _ (hours_text _)) by (apply hours_avoid; token)
    | rewrite (replace_first_skip _ _ _ (minutes_text _)) by (apply minutes_avoid; token)
    | rewrite (replace_first_skip _ _ _ (seconds_text _)) by (apply seconds_avoid; token)
    | rewrite (replace_first_absent _ _ _ (minutes_text _)) by (apply minutes_avoid; token)
    | rewrite (replace_first_absent _ _ _ (seconds_text _)) by (apply seconds_avoid; token)
    | rewrite (replace_first_absent _ _ _ (day_text _)) by (apply day_avoid; token)
    | progress cbn [replace_first strip_prefix Ascii.eqb Bool.eqb]
    | rewrite append_cons
    | rewrite append_empty_l
    | rewrite append_empty_r ].

Lemma formatDate_dashed (date : DateParts) :
  formatDate date "YYYY-MM-DD"
  = year_text date +:+ "-" +:+ month_text date +:+ "-" +:+ day_text date.
Proof. unfold formatDate. pass_over. reflexivity. Qed.

Lemma formatDate_compact (date : DateParts) :
  formatDate date "YYYYMMDD" = year_text date +:+ month_text date +:+ day_text date.
Proof. unfold formatDate. pass_over. reflexivity. Qed.

Lemma formatDate_stamp (date : DateParts) :
  formatDate date "MMDDHHmm"
  = month_text date +:+ day_text date +:+ hours_text date +:+ minutes_text date.
Proof. unfold formatDate. pass_over. reflexivity. Qed.

Lemma formatDate_full (date : DateParts) :
  formatDate date "YYYYMMDD_HHmmss"
  = year_text date +:+ month_text date +:+ day_text date +:+ "_"
    +:+ hours_text date +:+ minutes_text date +:+ seconds_text date.
Proof. unfold formatDate. pass_over. reflexivity. Qed.

Lemma all_digits_append (a b : string) :
  all_digits (a +:+ b) = all_digits a && all_digits b.
Proof.
  induction a as [| c a IH]; [done |]. rewrite append_cons. cbn [all_digits].
  by rewrite IH, andb_assoc.
Qed.

Lemma padded_length (n : nat) :
  n < 100 → String.length (padStart2 (nat_to_string n)) = 2.
Proof.
  intros Hn.
  assert (Hall : Forall (λ n, String.length (padStart2 (nat_to_string n)) = 2) (seq 0 100)).
  { apply (bool_decide_unpack _). by vm_compute. }
  apply (proj1 (Forall_forall _ _) Hall), elem_of_seq. lia.
Qed.

(** X13. For every date, valid or not, [formatDate] renders the formats
    that the application uses as the concatenation of its fields: the
    year as it is, and month (counted from 1), day, hours, minutes and
    seconds padded to two characters, each of them [NaN] for an invalid
    date.  For a date of the calendar the stamp [MMDDHHmm] consists of
    exactly eight digits and [YYYYMMDD] of digits only. *)
Theorem formatDate_formats (date : DateParts) :
  formatDate date "YYYY-MM-DD"
  = year_text date +:+ "-" +:+ month_text date +:+ "-" +:+ day_text date
  ∧ formatDate date "YYYYMMDD" = year_text date +:+ month_text date +:+ day_text date
  ∧ formatDate date "MMDDHHmm"
    = month_text date +:+ day_text date +:+ hours_text date +:+ minutes_text date
  ∧ formatDate date "YYYYMMDD_HHmmss"
    = year_text date +:+ month_text date +:+ day_text date +:+ "_"
      +:+ hours_text date +:+ minutes_text date +:+ seconds_text date
  ∧ formatDate InvalidDate "YYYY-MM-DD" = "NaN-NaN-NaN"
  ∧ (in_calendar date →
     all_digits (formatDate date "MMDDHHmm") = true
     ∧ String.length (formatDate date "MMDDHHmm") = 8
     ∧ all_digits (formatDate date "YYYYMMDD") = true).
Proof.
  split_and!; [apply formatDate_dashed | apply formatDate_compact | apply formatDate_stamp
              | apply formatDate_full | by vm_compute |].
  destruct date as [y m d h mi s |]; [| done].
  intros (Hy & Hm & Hd & Hh & Hmi & Hs).
  rewrite formatDate_stamp, formatDate_compact. cbn [year_text month_text day_text hours_text
    minutes_text]. split_and!.
  - rewrite !all_digits_append, !padStart2_digits by apply nat_to_string_digits. done.
  - rewrite !length_append, !padded_length by lia. done.
  - rewrite !all_digits_append, !padStart2_digits by apply nat_to_string_digits.
    unfold Z_to_string. rewrite bool_decide_eq_false_2 by lia.
    by rewrite nat_to_string_digits.
Qed.

Example formatDate_sample :
  formatDate (ValidDate 2024 2 7 9 5 0) "YYYY-MM-DD HH:mm:ss" = "2024-03-07 09:05:00"
  ∧ formatDate (ValidDate 2024 2 7 9 5 0) "MM/MM" = "03/MM".
Proof. by vm_compute. Qed.

End FormatFacts.

(** ** Validation of an uploaded document ([validateWordTemplate]) *)

Module WordCheckFacts.
Import TemplateJs WordCheckJs WordCheckSpec AdapterFacts.

Lemma or_else_text_nonempty (v : jstr) (fallback : string) :
  fallback ≠ EmptyString → to_string (or_else v (JStr fallback)) ≠ EmptyString.
Proof.
  intros Hf. unfold or_else. destruct (truthy v) eqn:Hv; [| done].
  by destruct (truthy_is_JStr _ Hv) as (s & -> & Hs).
Qed.

Lemma describe_error_nonempty (e : TagError) : describe_error e ≠ EmptyString.
Proof.
  unfold describe_error.
  match goal with |- (if String.eqb ?m _ then _ else _) ≠ _ =>
    destruct (String.eqb_spec m EmptyString) as [_ | Hm]; [| exact Hm]
  end.
  by apply or_else_text_nonempty.
Qed.

Section WithHost.
Context `{DocxHost} `{DocxErrorHost}.

Lemma report_failure_shape (error : LibError) :
  let result := report_failure error in
  wv_valid result = false
  ∧ wv_placeholders result = None
  ∧ (∃ message, wv_error result = Some message ∧ message ≠ EmptyString)
  ∧ match le_errors error with
    | Some errors =>
        ∃ lines, wv_errors result = Some lines ∧ length lines = length errors
                 ∧ Forall (λ line, line ≠ EmptyString) lines
    | None => wv_errors result = None
    end.
Proof.
  unfold report_failure. destruct (le_errors error) as [errors |]; cbn.
  - split_and!; [done | done | |].
    + eexists. split; [done |]. by rewrite StringFacts.append_cons.
    + eexists. split; [done |]. split; [apply length_map |].
      apply Forall_forall. intros line [e [<- _]]%list_elem_of_In%in_map_iff.
      apply describe_error_nonempty.
  - split_and!; try done. eexists. split; [done |]. by apply or_else_text_nonempty.
Qed.

(** X14. When the uploaded data is a data URL whose payload decodes and
    the document library reads the document, [validateWordTemplate] accepts
    it with the same placeholders that the consistency check extracts from
    the decoded bytes, and [getWordPlaceholders] lists them. *)
Theorem validateWordTemplate_agrees (base64Data bytes fullText : string) :
  has_comma base64Data = true →
  atob (base64_part base64Data) = Some bytes →
  docx_getFullText bytes = Some fullText →
  validateWordTemplate base64Data
  = mkWordValidation true None (Some (extractPlaceholdersFromWord bytes)) None
  ∧ getWordPlaceholders base64Data = extractPlaceholdersFromWord bytes.
Proof.
  intros Hcomma Hatob Htext.
  assert (Hrun : validateWordTemplate base64Data
                 = mkWordValidation true None (Some (extractPlaceholdersFromWord bytes)) None).
  { unfold validateWordTemplate, base64_of, extractPlaceholdersFromWord.
    by rewrite Hcomma, Hatob, Htext. }
  split; [done |]. unfold getWordPlaceholders. by rewrite Hrun.
Qed.

(** X15. [validateWordTemplate] rejects the data exactly when the payload
    does not decode or the document library fails on the decoded bytes.
    Then it reports [valid = false] with an error message that is not
    empty and without placeholders, and [getWordPlaceholders] returns the
    empty list.  When the error thrown carries a list of errors, the
    message gives their number and the report holds one line for each of
    them, in their order and none of them empty; otherwise the report
    holds no lines. *)
Theorem validateWordTemplate_rejects (base64Data : string) :
  let result := validateWordTemplate base64Data in
  (wv_valid result = true ↔ failure_of base64Data = None)
  ∧ (failure_of base64Data = None
     ↔ ∃ bytes fullText,
         atob (base64_of base64Data) = Some bytes ∧ docx_getFullText bytes = Some fullText)
  ∧ (∀ error, failure_of base64Data = Some error →
       wv_valid result = false
       ∧ wv_placeholders result = None
       ∧ getWordPlaceholders base64Data = []
       ∧ (∃ message, wv_error result = Some message ∧ message ≠ EmptyString)
       ∧ match le_errors error with
         | Some errors =>
             wv_error result
             = Some ("Word 模板有 " +:+ nat_to_string (length errors) +:+ " 个错误")
             ∧ wv_errors result = Some (describe_error <$> errors)
             ∧ length (describe_error <$> errors) = length errors
             ∧ Forall (λ line, line ≠ EmptyString) (describe_error <$> errors)
         | None => wv_errors result = None
         end).
Proof.
  cbn zeta.
  assert (Hfail : ∀ error,
            let result := report_failure error in
            wv_valid result = false
            ∧ wv_placeholders result = None
            ∧ (∃ message, wv_error result = Some message ∧ message ≠ EmptyString)
            ∧ match le_errors error with
              | Some errors =>
                  wv_error result
                  = Some ("Word 模板有 " +:+ nat_to_string (length errors) +:+ " 个错误")
                  ∧ wv_errors result = Some (describe_error <$> errors)
                  ∧ length (describe_error <$> errors) = length errors
                  ∧ Forall (λ line, line ≠ EmptyString) (describe_error <$> errors)
              | None => wv_errors result = None
              end).
  { intros error. destruct (report_failure_shape error) as (Hv & Hp & He & _).
    cbn zeta. split_and!; [done | done | done |].
    unfold report_failure. destruct (le_errors error) as [errors |]; cbn; [| done].
    split_and!; [by rewrite length_map | done | apply length_fmap |].
    apply Forall_forall. intros line (e & -> & _)%list_elem_of_fmap.
    apply describe_error_nonempty. }
  unfold getWordPlaceholders, validateWordTemplate, failure_of.
  destruct (atob (base64_of base64Data)) as [bytes |] eqn:Hatob.
  - destruct (docx_getFullText bytes) as [fullText |] eqn:Htext.
    + split_and!; [done | split; eauto | done].
    + destruct (Hfail (docx_error bytes)) as (Hv & Hp & He & Hl).
      rewrite Hv. split_and!.
      * done.
      * split; [done |]. intros (b & t & [= <-] & Ht). congruence.
      * intros error [= <-]. by split_and!.
  - destruct (Hfail (atob_error (base64_of base64Data))) as (Hv & Hp & He & Hl).
    rewrite Hv. split_and!.
    + done.
    + split; [done |]. by intros (b & t & [=] & _).
    + intros error [= <-]. by split_and!.
Qed.

End WithHost.

Lemma validateWordTemplate_agrees_witness :
  @getWordPlaceholders Samples.plain_host WordCheckSamples.loop_errors
    "data:application/octet-stream;base64,{b} and {c}"
  = ["b"; "c"].
Proof.
  destruct (@validateWordTemplate_agrees Samples.plain_host WordCheckSamples.loop_errors
              "data:application/octet-stream;base64,{b} and {c}" "{b} and {c}" "{b} and {c}"
              eq_refl eq_refl eq_refl) as [_ Hlist].
  refine (eq_trans Hlist _). by vm_compute.
Defined.

Example validateWordTemplate_unopened_loop :
  wv_errors (@validateWordTemplate Samples.failing_host WordCheckSamples.loop_errors
               "data:application/octet-stream;base64,{/rows}")
  = Some ["循环未开始: 找到结束标签 " +:+ dquote +:+ "{/rows}" +:+ dquote
          +:+ " 但缺少开始标签 " +:+ dquote +:+ "{#rows}" +:+ dquote +:+ " (位置: 12)"].
Proof. by vm_compute. Qed.

End WordCheckFacts.

(** ** Exporting a full backup and importing it again *)

Module BackupFacts.
Import Spec Samples ExportSpec StorageAdapterJs ExportJs ExportPacksJs AdapterFacts ImportFacts.



Section WithHost.
Context `{BrowserHost}.



End WithHost.

Section WithHosts.
Context `{BrowserHost} `{LocalTimeHost}.




End WithHosts.




Example exportFullBackup_sample :
  dl_fileName <$> (match (@exportFullBackup sample_host ExportSamples.sample_local
                            browser_world).1 with
                   | Ok file => Some file
                   | Throw _ => None
                   end)
  = Some "Word模板工具_完整备份_20240102_000000.backup".
Proof. by vm_compute. Qed.

End BackupFacts.

(** ** Exporting packs and importing them again *)

Module PackExportFacts.
Import Spec Samples StoreSpec ExportSpec StorageAdapterJs QueriesJs ExportJs ExportPacksJs
  AdapterFacts ImportFacts RecordsPackFacts TemplatePackFacts QueriesFacts.


Section WithHosts.
Context `{BrowserHost} `{LocalTimeHost}.




End WithHosts.



End PackExportFacts.

(** ** Deleting a record through the adapter *)

Module DeleteRecordFacts.
Import Spec Samples FileLayoutSpec FileStorageJs StorageAdapterJs FileStorageFacts AdapterFacts
  ImportFacts.


Section WithHost.
Context `{BrowserHost}.



End WithHost.


End DeleteRecordFacts.

(** ** The template editor and the duplication of templates *)

Module EditorFacts.
Import Spec Samples ValidateJs ValidateSpec FileStorageJs StorageAdapterJs EditorJs
  DuplicateJs DuplicateSpec AdapterFacts ImportFacts TemplatePackFacts.



Section WithHost.
Context `{BrowserHost}.








End WithHost.


(** The editor turns the sample template down when the name is blank. *)
Example saveTemplate_onSubmit_blank_name :
  ∃ errors,
    @saveTemplate_onSubmit sample_host sample_template "   " "" None None browser_world
    = (Ok (ValidationDialog errors), browser_world)
    ∧ "模板名称不能为空" ∈ errors.
Proof. eexists. split; [by vm_compute |]. by left. Qed.

(** So it does when the name is an ideographic space. *)
Example saveTemplate_onSubmit_ideographic_name :
  ∃ errors,
    @saveTemplate_onSubmit sample_host sample_template "　" EmptyString None None
      browser_world
    = (Ok (ValidationDialog errors), browser_world)
    ∧ "模板名称不能为空" ∈ errors.
Proof. eexists. split; [by vm_compute |]. by left. Qed.


End EditorFacts.

(** ** The templates of the workspace folder *)

Module FileListFacts.
Import Spec Samples FileStorageJs AdapterFacts FileStorageFacts SortFacts.

Section WithHost.
Context `{BrowserHost}.

(** X23. With a workspace granted, [loadTemplatesFromFiles] returns the
    templates of the files of the templates folder whose name ends in
    [.json] and whose content parses, and only those; the other files are
    passed over without an error.  Every template that
    [loadTemplateFromFile] can load is in that list, and when the listed
    [updatedAt] values are valid dates the list is ordered newest first.
    Neither function changes the state. *)
Theorem loadTemplatesFromFiles_lists (w : World) :
  workspaceHandle w = true →
  ∃ l, loadTemplatesFromFiles w = (Ok l, w)
       ∧ (∀ t, t ∈ l ↔ ∃ name, fs_templates w !! name = Some (Some t)
                               ∧ ends_with ".json" name = true)
       ∧ (∀ tid t w', loadTemplateFromFile tid w = (Ok t, w') → t ∈ l ∧ w' = w)
       ∧ ((∀ t, t ∈ l → is_Some (date_value (t_updatedAt t))) →
          StronglySorted (not_older t_updatedAt) l).
Proof.
  intros Hgranted.
  exists (js_sort (newest_first t_updatedAt) (json_files (fs_templates w))).
  split_and!.
  - unfold loadTemplatesFromFiles. run_async. by rewrite (getWorkspace_granted w Hgranted).
  - intros t. by rewrite elem_of_js_sort, elem_of_json_files.
  - intros tid t w'. unfold loadTemplateFromFile. run_async.
    rewrite (getWorkspace_granted w Hgranted).
    destruct (valid_name (to_string tid +:+ ".json")); run_async; cbv beta iota; [| done].
    destruct (fs_templates w !! (to_string tid +:+ ".json")) as [[t' |] |] eqn:Hfile;
      [| done | done].
    intros [= -> ->]. split; [| done].
    apply elem_of_js_sort, elem_of_json_files. eexists. split; [exact Hfile |].
    apply ends_with_app.
  - intros Hdates. apply js_sort_sorted, Forall_forall. intros t Ht.
    apply Hdates. by apply elem_of_js_sort.
Qed.

End WithHost.

Lemma loadTemplatesFromFiles_lists_witness :
  workspaceHandle workspace_t1 = true
  ∧ ∃ l, @loadTemplatesFromFiles sample_host workspace_t1 = (Ok l, workspace_t1)
         ∧ template_named "t1" "Invoice" "t" ∈ l.
Proof.
  split; [reflexivity |].
  destruct (@loadTemplatesFromFiles_lists sample_host workspace_t1 eq_refl)
    as (l & Hrun & Hlisted & _).
  exists l. split; [exact Hrun |]. apply Hlisted. exists "t1.json".
  split; [| reflexivity]. vm_compute. reflexivity.
Defined.

End FileListFacts.

(** ** The delete-template action on either backend *)

Module DeleteActionFacts.
Import Spec Samples StoreSpec FileLayoutSpec FileStorageJs StorageAdapterJs AppJs
  FileStorageFacts AdapterFacts DeleteFacts RecordStoreFacts DeleteRecordFacts.







Section WithHost.
Context `{BrowserHost}.





End WithHost.



Example deleteTemplate_onClick_file_log :
  log (@deleteTemplate_onClick sample_host "t1" workspace_t1).2
  = [FsRemoveRecord "t1" "r1.json"; FsRemoveTemplate "t1.json"; FsRemoveRecordDir "t1"].
Proof. by vm_compute. Qed.


End DeleteActionFacts.
